(** * entropy-zero firmware: a shallow embedding of [main/main.c]

    The firmware harvests 64 random bits per report cycle, encodes them as a
    small JSON text and publishes it over MQTT, while a Wi-Fi event handler
    keeps the station associated and starts SmartConfig provisioning when no
    credentials are stored.

    Conventions of the embedding:
    - [uint32_t] / [uint64_t] values are [Z] with the wrap-around written out;
    - a [float] or [double] value is the real number ([R]) it denotes, and
      every conversion and operation rounds its exact result to 24 or 53
      significant bits, to nearest, ties to even; the C library's [log] is
      partial here (it has a pole at 0);
    - the file-scope statics of [main.c] are the fields of one [state] record,
      together with what the environment holds (task registry, stored station
      configuration, number of random draws) and the list of calls made to the
      external capabilities (radio, MQTT client, SmartConfig, scheduler);
    - functions that touch the statics are written in a small state monad
      whose results also record a restart, a task that is still blocked and C
      undefined behaviour;
    - logging ([ESP_LOGx], [printf]) is not modelled. *)

From Stdlib Require Import ZArith List String Ascii Bool Lia Reals Lra.
Import ListNotations.

Local Open Scope string_scope.
Local Open Scope Z_scope.

(** ** Machine integers *)

Definition UINT32_MAX : Z := 4294967295.

Definition wrap32 (z : Z) : Z := z mod 2 ^ 32.
Definition wrap64 (z : Z) : Z := z mod 2 ^ 64.

Definition BIT0 : Z := Z.shiftl 1 0.
Definition BIT1 : Z := Z.shiftl 1 1.

(** ** Constants of [main.c] *)

Definition MQTT_TOPIC : string := "entropy/zero".
Definition AVERAGE_DELAY_MINUTES : Z := 60.
Definition CONNECTED_BIT : Z := BIT0.
Definition ESPTOUCH_DONE_BIT : Z := BIT1.

(** [sizeof(json_payload)] *)
Definition json_payload_size : nat := 64.

(** ** Entropy Sampler: composing and encoding the sample *)

(** [((uint64_t)hi << 32) | lo] for two [uint32_t] operands. *)
Definition compose64 (hi lo : Z) : Z :=
  Z.lor (wrap64 (Z.shiftl hi 32)) lo.

(** Decimal conversion as [printf]'s [%llu] performs it: the digits are
    produced from the least significant one by division by ten, until the
    quotient is zero.  Twenty rounds are enough for any 64-bit value. *)
Definition digit_char (d : Z) : ascii :=
  ascii_of_nat (48 + Z.to_nat d).

Fixpoint utoa_loop (rounds : nat) (n : Z) (acc : string) : string :=
  match rounds with
  | O => acc
  | S k =>
      let acc' := String (digit_char (n mod 10)) acc in
      if n / 10 =? 0 then acc' else utoa_loop k (n / 10) acc'
  end.

Definition utoa (n : Z) : string := utoa_loop 20 n EmptyString.

(** The format string ["{\"entropy\": %llu}"] applied to [v]. *)
Definition dquote : ascii := ascii_of_nat 34.

Definition entropy_prefix : string :=
  String "{" (String dquote ("entropy" ++ String dquote ": ")).

Definition format_entropy (v : Z) : string :=
  entropy_prefix ++ utoa v ++ "}".

(** [snprintf(buf, size, ...)]: at most [size - 1] characters are stored,
    followed by the terminating NUL.  The result is the C string left in the
    buffer (without the terminator). *)
Definition snprintf (size : nat) (formatted : string) : string :=
  substring 0 (size - 1) formatted.

Definition encode_payload (v : Z) : string :=
  snprintf json_payload_size (format_entropy v).

(** Bytes the payload occupies in the buffer, terminator included. *)
Definition payload_bytes (p : string) : nat := S (String.length p).

(** A reader of the published message, as a collector would decode it: the
    literal opening, a non-empty run of decimal digits read by Horner's rule,
    the closing brace and nothing else. *)
Definition digit_value (c : ascii) : option Z :=
  let n := nat_of_ascii c in
  if andb (Nat.leb 48 n) (Nat.leb n 57) then Some (Z.of_nat n - 48) else None.

Fixpoint read_digits (s : string) (acc : Z) : Z * string :=
  match s with
  | EmptyString => (acc, s)
  | String c rest =>
      match digit_value c with
      | Some d => read_digits rest (acc * 10 + d)
      | None => (acc, s)
      end
  end.

Fixpoint strip_prefix (p s : string) : option string :=
  match p, s with
  | EmptyString, _ => Some s
  | String a p', String b s' =>
      if Ascii.eqb a b then strip_prefix p' s' else None
  | String _ _, EmptyString => None
  end.

Definition decode_payload (p : string) : option Z :=
  match strip_prefix entropy_prefix p with
  | None => None
  | Some body =>
      match body with
      | EmptyString => None
      | String c _ =>
          match digit_value c with
          | None => None
          | Some _ =>
              let '(v, rest) := read_digits body 0 in
              if String.eqb rest "}" then Some v else None
          end
      end
  end.

(** ** Interval Scheduler: binary floating point

    [float] is IEEE 754 binary32 (24 significant bits) and [double] binary64
    (53 significant bits).  A conversion or an operation yields its exact
    result rounded to nearest, ties to even.  The finite values that occur in
    [generate_poisson_delay] stay within the normal range of both formats,
    so the exponent range is not modelled; the only non-finite values come
    from [log(0)], for which the functions below yield [None]. *)

(** The nearest integer, the even one on a tie. *)
Definition rne (m : R) : Z :=
  let f := Int_part m in
  match total_order_T (m - IZR f) (1 / 2) with
  | inleft (left _) => f
  | inleft (right _) => if Z.even f then f else f + 1
  | inright _ => f + 1
  end.

(** [floor (log2 x)] of a positive [x]. *)
Definition binade (x : R) : Z := Int_part (ln x / ln 2).

(** A positive [x] rounded to [prec] significant bits. *)
Definition round_pos (prec : Z) (x : R) : R :=
  let e := binade x - (prec - 1) in
  (IZR (rne (x * powerRZ 2 (- e))) * powerRZ 2 e)%R.

Definition round (prec : Z) (x : R) : R :=
  match total_order_T x 0 with
  | inleft (left _) => (- round_pos prec (- x))%R
  | inleft (right _) => 0%R
  | inright _ => round_pos prec x
  end.

Definition FLT_MANT_DIG : Z := 24.
Definition DBL_MANT_DIG : Z := 53.

Definition to_float (x : R) : R := round FLT_MANT_DIG x.
Definition to_double (x : R) : R := round DBL_MANT_DIG x.

(** [(float)n] for an unsigned integer [n]. *)
Definition float_of_uint32 (n : Z) : R := to_float (IZR n).

(** [float U = (float)esp_random() / UINT32_MAX]: the draw and [UINT32_MAX]
    are converted to [float] and divided in [float]. *)
Definition U_of_draw (draw : Z) : R :=
  to_float (float_of_uint32 draw / float_of_uint32 UINT32_MAX)%R.

(** [log] of the C library, on [double]: finite for positive arguments only
    ([log(0)] is a pole, [log] of a negative number a domain error).  Its
    result is taken as the correctly rounded logarithm, as IEEE 754
    recommends. *)
Definition log (x : R) : option R :=
  if Rlt_dec 0 x then Some (to_double (ln x)) else None.

(** [float delay_minutes = -AVERAGE_DELAY_MINUTES * log(U)]: the product is
    formed in [double] and stored as [float]. *)
Definition delay_minutes (U : R) : option R :=
  match log U with
  | Some l => Some (to_float (to_double (- IZR AVERAGE_DELAY_MINUTES * l)))
  | None => None
  end.

(** Conversion of a floating value to [uint32_t]: the value is truncated
    toward zero; the behaviour is undefined when the truncated value is
    not representable.  [Int_part] is the floor, which is the truncation for
    the non-negative values this file converts. *)
Definition to_uint32 (x : R) : option Z :=
  let t := Int_part x in
  if andb (0 <=? t) (t <=? UINT32_MAX) then Some t else None.

(** [(uint32_t)(delay_minutes * 60 * 1000 / portTICK_PERIOD_MS)]: the
    integer operands are converted to [float] and each operation is done in
    [float], from left to right. *)
Definition poisson_ticks (portTICK_PERIOD_MS : Z) (draw : Z) : option Z :=
  match delay_minutes (U_of_draw draw) with
  | Some d =>
      to_uint32
        (to_float (to_float (to_float (d * 60) * 1000)
                   / float_of_uint32 portTICK_PERIOD_MS))%R
  | None => None
  end.

(** Fixed-point lower bounds of the exponential, used to bracket [ln 2]:
    numbers are numerators over [scale]; squaring rounds down. *)
Definition scale : Z := 10 ^ 30.

Definition sq_down (c : Z) : Z := c * c / scale.

Fixpoint sq_iter (k : nat) (c : Z) : Z :=
  match k with
  | O => c
  | S k' => sq_iter k' (sq_down c)
  end.

(** ** The program state *)

(** [wifi_config_t.sta], as far as [main.c] touches it. *)
Record wifi_sta_config := mk_sta {
  ssid : list Z;          (* uint8_t ssid[32] *)
  password : list Z;      (* uint8_t password[64] *)
  bssid_set : bool;
  bssid : list Z          (* uint8_t bssid[6] *)
}.

(** [smartconfig_event_got_ssid_pswd_t] *)
Record got_ssid_pswd := mk_evt {
  evt_ssid : list Z;      (* uint8_t ssid[32] *)
  evt_password : list Z;  (* uint8_t password[64] *)
  evt_bssid_set : bool;
  evt_bssid : list Z;
  evt_type : Z
}.

Definition SC_TYPE_ESPTOUCH : Z := 0.
Definition SC_TYPE_ESPTOUCH_V2 : Z := 3.

(** Calls to the external capabilities, in the order they are made. *)
Inductive call : Type :=
| esp_wifi_connect
| esp_wifi_disconnect
| esp_wifi_set_config (cfg : wifi_sta_config)
| esp_smartconfig_set_type (type : Z)
| esp_smartconfig_start
| esp_smartconfig_stop
| esp_smartconfig_get_rvd_data
| xTaskCreate (name : string) (created : bool)
| vTaskDelete
| vTaskDelay (ticks : Z)
| esp_mqtt_client_init
| esp_mqtt_client_register_event (handle : option Z)
| esp_mqtt_client_start (handle : option Z)
| esp_mqtt_client_publish (handle : option Z) (topic data : string)
                          (len qos retain : Z)
| esp_mqtt_client_stop (handle : option Z)
| esp_mqtt_client_destroy (handle : option Z)
| esp_restart.

(** Where a task of [main.c] stands. *)
Inductive location : Type :=
| sc_entry        (* smartconfig_task created, not yet run *)
| sc_waiting      (* smartconfig_task blocked in xEventGroupWaitBits *)
| report_running. (* report_entropy, which never exits *)

Record task := mk_task {
  pcTaskName : string;
  at_location : location
}.

Record state := mk_state {
  s_wifi_event_group : Z;            (* the bits of the event group *)
  client : option Z;                 (* None is NULL *)
  entropy64 : Z;
  json_payload : string;
  MQTT_DISCONNECT_FLAG : bool;
  draws : nat;                       (* calls of esp_random so far *)
  sta_config : option wifi_sta_config; (* what esp_wifi_get_config yields;
                                          None when it reports an error *)
  tasks : list task;                 (* the scheduler's task registry *)
  calls : list call
}.

(** The state [app_main] starts from: zero-initialised statics. *)
Definition boot (stored : option wifi_sta_config) : state :=
  mk_state 0 None 0 EmptyString false 0 stored [] [].

Definition set_event_group (g : Z) (s : state) : state :=
  mk_state g (client s) (entropy64 s) (json_payload s)
           (MQTT_DISCONNECT_FLAG s) (draws s) (sta_config s) (tasks s) (calls s).
Definition set_client (c : option Z) (s : state) : state :=
  mk_state (s_wifi_event_group s) c (entropy64 s) (json_payload s)
           (MQTT_DISCONNECT_FLAG s) (draws s) (sta_config s) (tasks s) (calls s).
Definition set_entropy64 (v : Z) (s : state) : state :=
  mk_state (s_wifi_event_group s) (client s) v (json_payload s)
           (MQTT_DISCONNECT_FLAG s) (draws s) (sta_config s) (tasks s) (calls s).
Definition set_json_payload (p : string) (s : state) : state :=
  mk_state (s_wifi_event_group s) (client s) (entropy64 s) p
           (MQTT_DISCONNECT_FLAG s) (draws s) (sta_config s) (tasks s) (calls s).
Definition set_flag (b : bool) (s : state) : state :=
  mk_state (s_wifi_event_group s) (client s) (entropy64 s) (json_payload s)
           b (draws s) (sta_config s) (tasks s) (calls s).
Definition set_draws (n : nat) (s : state) : state :=
  mk_state (s_wifi_event_group s) (client s) (entropy64 s) (json_payload s)
           (MQTT_DISCONNECT_FLAG s) n (sta_config s) (tasks s) (calls s).
Definition set_sta_config (c : option wifi_sta_config) (s : state) : state :=
  mk_state (s_wifi_event_group s) (client s) (entropy64 s) (json_payload s)
           (MQTT_DISCONNECT_FLAG s) (draws s) c (tasks s) (calls s).
Definition set_tasks (ts : list task) (s : state) : state :=
  mk_state (s_wifi_event_group s) (client s) (entropy64 s) (json_payload s)
           (MQTT_DISCONNECT_FLAG s) (draws s) (sta_config s) ts (calls s).
Definition record_call (c : call) (s : state) : state :=
  mk_state (s_wifi_event_group s) (client s) (entropy64 s) (json_payload s)
           (MQTT_DISCONNECT_FLAG s) (draws s) (sta_config s) (tasks s)
           (calls s ++ [c]).

(** ** The monad of the firmware's procedures *)

Inductive result (A : Type) : Type :=
| Done (a : A) (s : state)   (* returned *)
| Reboot (s : state)         (* esp_restart() was called: nothing follows *)
| Blocked (s : state)        (* still blocked or polling when the observed
                                part of the run ends *)
| Undefined.                 (* undefined behaviour of C *)

Arguments Done {A} a s.
Arguments Reboot {A} s.
Arguments Blocked {A} s.
Arguments Undefined {A}.

Definition M (A : Type) : Type := state -> result A.

Definition ret {A} (a : A) : M A := fun s => Done a s.

Definition bind {A B} (m : M A) (k : A -> M B) : M B :=
  fun s =>
    match m s with
    | Done a s' => k a s'
    | Reboot s' => Reboot s'
    | Blocked s' => Blocked s'
    | Undefined => Undefined
    end.

Notation "x <- m ;; k" := (bind m (fun x => k))
  (at level 61, m at next level, right associativity).
Notation "m ;;; k" := (bind m (fun _ => k))
  (at level 61, right associativity).

Definition get {A} (f : state -> A) : M A := fun s => Done (f s) s.
Definition modify (f : state -> state) : M unit := fun s => Done tt (f s).
Definition do_call (c : call) : M unit := modify (record_call c).
Definition restart : M unit := fun s => Reboot (record_call esp_restart s).
Definition block {A} : M A := fun s => Blocked s.
Definition undefined {A} : M A := fun _ => Undefined.

(** ** Identifiers of the ESP-IDF headers

    The numeric values are those of the ESP-IDF enumerations; the handlers
    only compare them for equality. *)

Inductive esp_event_base_t : Type := WIFI_EVENT | IP_EVENT | SC_EVENT.

Definition base_eqb (a b : esp_event_base_t) : bool :=
  match a, b with
  | WIFI_EVENT, WIFI_EVENT | IP_EVENT, IP_EVENT | SC_EVENT, SC_EVENT => true
  | _, _ => false
  end.

Definition WIFI_EVENT_STA_START : Z := 2.
Definition WIFI_EVENT_STA_DISCONNECTED : Z := 5.
Definition IP_EVENT_STA_GOT_IP : Z := 0.
Definition SC_EVENT_SCAN_DONE : Z := 0.
Definition SC_EVENT_FOUND_CHANNEL : Z := 1.
Definition SC_EVENT_GOT_SSID_PSWD : Z := 2.
Definition SC_EVENT_SEND_ACK_DONE : Z := 3.

Definition MQTT_EVENT_ERROR : Z := 0.
Definition MQTT_EVENT_CONNECTED : Z := 1.
Definition MQTT_EVENT_DISCONNECTED : Z := 2.
Definition MQTT_EVENT_PUBLISHED : Z := 5.

Definition ESP_OK : Z := 0.

(** ** FreeRTOS primitives used by [main.c] *)

Definition xEventGroupSetBits (uxBitsToSet : Z) : M unit :=
  modify (fun s => set_event_group (Z.lor (s_wifi_event_group s) uxBitsToSet) s).

Definition xEventGroupClearBits (uxBitsToClear : Z) : M unit :=
  modify (fun s => set_event_group (Z.ldiff (s_wifi_event_group s) uxBitsToClear) s).

(** [xEventGroupWaitBits(group, bits, xClearOnExit, xWaitForAllBits,
    portMAX_DELAY)]: the caller stays blocked until the unblock condition
    holds (all of the bits when [xWaitForAllBits], any of them otherwise);
    it then gets the value of the group, and the waited bits are cleared
    when [xClearOnExit].  The value is read when the task is scheduled
    again, so bits set in between are seen together. *)
Definition wait_condition (g uxBitsToWaitFor : Z) (xWaitForAllBits : bool) : bool :=
  if xWaitForAllBits
  then Z.land g uxBitsToWaitFor =? uxBitsToWaitFor
  else negb (Z.land g uxBitsToWaitFor =? 0).

Definition xEventGroupWaitBits (uxBitsToWaitFor : Z)
           (xClearOnExit xWaitForAllBits : bool) : M Z :=
  fun s =>
    let g := s_wifi_event_group s in
    if wait_condition g uxBitsToWaitFor xWaitForAllBits
    then Done g (if xClearOnExit
                 then set_event_group (Z.ldiff g uxBitsToWaitFor) s
                 else s)
    else Blocked s.

Definition task_named (name : string) (t : task) : bool :=
  String.eqb (pcTaskName t) name.

(** [xTaskGetHandle(name) != NULL] *)
Definition xTaskGetHandle (name : string) : M bool :=
  get (fun s => existsb (task_named name) (tasks s)).

(** [xTaskCreate]: the task is added to the registry unless the allocation
    fails ([created] is false); [main.c] ignores the return value. *)
Definition spawn (name : string) (entry : location) (created : bool) : M unit :=
  do_call (xTaskCreate name created) ;;;
  if created
  then modify (fun s => set_tasks (tasks s ++ [mk_task name entry]) s)
  else ret tt.

Definition remove_nth (i : nat) (ts : list task) : list task :=
  firstn i ts ++ skipn (S i) ts.

Definition move_nth (i : nat) (l : location) (ts : list task) : list task :=
  match nth_error ts i with
  | Some t => firstn i ts ++ mk_task (pcTaskName t) l :: skipn (S i) ts
  | None => ts
  end.

(** ** C library helpers on byte arrays *)

Fixpoint strlen (bytes : list Z) : nat :=
  match bytes with
  | [] => O
  | b :: rest => if b =? 0 then O else S (strlen rest)
  end.

(** [memcpy(dst, src, n)] into a zeroed destination of [n] bytes. *)
Definition memcpy (n : nat) (src : list Z) : list Z :=
  firstn n (src ++ repeat 0 n).

(** One session's environment: what the MQTT client library answers and the
    events its task delivers to [mqtt_event_handler] during each polling
    delay, each with the value [esp_mqtt_client_publish] would return. *)
Record mqtt_session := mk_session {
  init_result : option Z;             (* esp_mqtt_client_init *)
  start_result : Z;                   (* esp_mqtt_client_start *)
  deliveries : list (list (Z * Z))
}.

(** What the environment does between two steps of the connectivity model. *)
Inductive action : Type :=
| Event (created : bool) (event_base : esp_event_base_t) (event_id : Z)
        (event_data : option got_ssid_pswd)
| Schedule (i : nat).

Section Firmware.

(** The Random Source: the [n]-th word the hardware generator yields. *)
Variable hw_random : nat -> Z.

(** FreeRTOS tick period, from the build configuration. *)
Variable portTICK_PERIOD_MS : Z.

(** Build option guarding the BSSID copy in [event_handler]. *)
Variable CONFIG_SET_MAC_ADDRESS_OF_TARGET_AP : bool.

Definition esp_random : M Z :=
  fun s => Done (wrap32 (hw_random (draws s))) (set_draws (S (draws s)) s).

(** *** Delivery Session *)

(** [publish_result] is what [esp_mqtt_client_publish] returns when the
    handler calls it. *)
Definition mqtt_event_handler (event_id publish_result : Z) : M unit :=
  if event_id =? MQTT_EVENT_CONNECTED then
    c <- get client ;;
    p <- get json_payload ;;
    do_call (esp_mqtt_client_publish c MQTT_TOPIC p 0 1 0) ;;;
    let msg_id := publish_result in
    if msg_id <? 0 then modify (set_flag true) else ret tt
  else if event_id =? MQTT_EVENT_PUBLISHED then modify (set_flag true)
  else if event_id =? MQTT_EVENT_DISCONNECTED then modify (set_flag true)
  else if event_id =? MQTT_EVENT_ERROR then restart
  else ret tt.

Fixpoint deliver (events : list (Z * Z)) : M unit :=
  match events with
  | [] => ret tt
  | (event_id, publish_result) :: rest =>
      mqtt_event_handler event_id publish_result ;;; deliver rest
  end.

(** The [while(1)] of [send_data]: one iteration per element of [ds]. *)
Fixpoint poll (ds : list (list (Z * Z))) : M unit :=
  match ds with
  | [] => block
  | d :: ds' =>
      do_call (vTaskDelay (1000 / portTICK_PERIOD_MS)) ;;;
      deliver d ;;;
      flag <- get MQTT_DISCONNECT_FLAG ;;
      if flag then
        c <- get client ;;
        do_call (esp_mqtt_client_stop c) ;;;
        do_call (esp_mqtt_client_destroy c) ;;;
        modify (set_flag false)
      else poll ds'
  end.

(** The parameter shadows the global of the same name and is not used. *)
Definition send_data (entropy64 : Z) (e : mqtt_session) : M unit :=
  do_call esp_mqtt_client_init ;;;
  modify (set_client (init_result e)) ;;;
  c <- get client ;;
  do_call (esp_mqtt_client_register_event c) ;;;
  match c with
  | None => ret tt
  | Some _ =>
      do_call (esp_mqtt_client_start c) ;;;
      let err := start_result e in
      if negb (err =? ESP_OK) then ret tt
      else poll (deliveries e)
  end.

(** The part of [send_data] before its polling loop; the result tells
    whether the loop is entered. *)
Definition session_start (e : mqtt_session) : M bool :=
  do_call esp_mqtt_client_init ;;;
  modify (set_client (init_result e)) ;;;
  c <- get client ;;
  do_call (esp_mqtt_client_register_event c) ;;;
  match c with
  | None => ret false
  | Some _ =>
      do_call (esp_mqtt_client_start c) ;;;
      ret (start_result e =? ESP_OK)
  end.

(** *** Interval Scheduler and Report Loop *)

Definition generate_poisson_delay : M Z :=
  draw <- esp_random ;;
  match poisson_ticks portTICK_PERIOD_MS draw with
  | Some ticks => ret ticks
  | None => undefined
  end.

(** Lines 154-156 of [report_entropy]: the sample and its encoding. *)
Definition harvest : M unit :=
  hi <- esp_random ;;
  lo <- esp_random ;;
  modify (set_entropy64 (compose64 hi lo)) ;;;
  v <- get entropy64 ;;
  modify (set_json_payload (encode_payload v)).

Definition report_cycle (e : mqtt_session) : M unit :=
  poisson_delay <- generate_poisson_delay ;;
  do_call (vTaskDelay poisson_delay) ;;;
  harvest ;;;
  v <- get entropy64 ;;
  send_data v e.

(** The first [length es] iterations of the [while (1)] of
    [report_entropy]. *)
Fixpoint report_entropy (es : list mqtt_session) : M unit :=
  match es with
  | [] => ret tt
  | e :: es' => report_cycle e ;;; report_entropy es'
  end.

(** A cycle of [report_entropy] up to the polling loop of [send_data]; the
    result tells whether the loop is entered. *)
Definition cycle_to_wait (e : mqtt_session) : M bool :=
  poisson_delay <- generate_poisson_delay ;;
  do_call (vTaskDelay poisson_delay) ;;;
  harvest ;;;
  session_start e.

(** *** Connectivity Manager *)

Definition start_smartconfig (created : bool) : M unit :=
  running <- xTaskGetHandle "sc_task" ;;
  if negb running then spawn "sc_task" sc_entry created else ret tt.

Definition event_handler (created : bool) (event_base : esp_event_base_t)
           (event_id : Z) (event_data : option got_ssid_pswd) : M unit :=
  if base_eqb event_base WIFI_EVENT && (event_id =? WIFI_EVENT_STA_START) then
    cfg <- get sta_config ;;
    match cfg with
    | Some wifi_config =>
        if Nat.ltb 0 (strlen (ssid wifi_config))
        then do_call esp_wifi_connect
        else start_smartconfig created
    | None => start_smartconfig created
    end
  else if base_eqb event_base WIFI_EVENT
          && (event_id =? WIFI_EVENT_STA_DISCONNECTED) then
    xEventGroupClearBits CONNECTED_BIT ;;;
    do_call esp_wifi_connect
  else if base_eqb event_base IP_EVENT && (event_id =? IP_EVENT_STA_GOT_IP) then
    xEventGroupSetBits CONNECTED_BIT ;;;
    running <- xTaskGetHandle "report_task" ;;
    if negb running then spawn "report_task" report_running created else ret tt
  else if base_eqb event_base SC_EVENT && (event_id =? SC_EVENT_SCAN_DONE) then
    ret tt
  else if base_eqb event_base SC_EVENT && (event_id =? SC_EVENT_FOUND_CHANNEL) then
    ret tt
  else if base_eqb event_base SC_EVENT && (event_id =? SC_EVENT_GOT_SSID_PSWD) then
    match event_data with
    | None => undefined
    | Some evt =>
        let wifi_config :=
          mk_sta (memcpy 32 (evt_ssid evt)) (memcpy 64 (evt_password evt))
                 (CONFIG_SET_MAC_ADDRESS_OF_TARGET_AP && evt_bssid_set evt)
                 (if CONFIG_SET_MAC_ADDRESS_OF_TARGET_AP && evt_bssid_set evt
                  then memcpy 6 (evt_bssid evt) else repeat 0 6) in
        (if evt_type evt =? SC_TYPE_ESPTOUCH_V2
         then do_call esp_smartconfig_get_rvd_data else ret tt) ;;;
        do_call esp_wifi_disconnect ;;;
        do_call (esp_wifi_set_config wifi_config) ;;;
        modify (set_sta_config (Some wifi_config)) ;;;
        do_call esp_wifi_connect
    end
  else if base_eqb event_base SC_EVENT && (event_id =? SC_EVENT_SEND_ACK_DONE) then
    xEventGroupSetBits ESPTOUCH_DONE_BIT
  else ret tt.

(** *** Provisioning Listener

    One scheduling of task [i] of the registry: from its entry to the first
    wait, or one iteration of the [while (1)] from the wait it is blocked
    in.  The test of [CONNECTED_BIT] only guards a log line. *)
Definition smartconfig_task (i : nat) (at_loc : location) : M unit :=
  match at_loc with
  | sc_entry =>
      do_call (esp_smartconfig_set_type SC_TYPE_ESPTOUCH) ;;;
      do_call esp_smartconfig_start ;;;
      modify (fun s => set_tasks (move_nth i sc_waiting (tasks s)) s)
  | sc_waiting =>
      uxBits <- xEventGroupWaitBits (Z.lor CONNECTED_BIT ESPTOUCH_DONE_BIT)
                                    true false ;;
      if negb (Z.land uxBits ESPTOUCH_DONE_BIT =? 0) then
        do_call esp_smartconfig_stop ;;;
        do_call vTaskDelete ;;;
        modify (fun s => set_tasks (remove_nth i (tasks s)) s)
      else ret tt
  | report_running => ret tt
  end.

(** *** The connectivity model: events and task scheduling interleaved *)

Definition step (a : action) : M unit :=
  match a with
  | Event created event_base event_id event_data =>
      event_handler created event_base event_id event_data
  | Schedule i =>
      t <- get (fun s => nth_error (tasks s) i) ;;
      match t with
      | Some t => smartconfig_task i (at_location t)
      | None => ret tt
      end
  end.

(** The state after a step; a task that stays blocked leaves the system
    running. *)
Definition after {A} (r : result A) : option state :=
  match r with
  | Done _ s => Some s
  | Blocked s => Some s
  | Reboot _ => None
  | Undefined => None
  end.

Fixpoint run (tr : list action) (s : state) : option state :=
  match tr with
  | [] => Some s
  | a :: tr' =>
      match after (step a s) with
      | Some s' => run tr' s'
      | None => None
      end
  end.

End Firmware.

(** ** Vocabulary of the statements *)

(** A delivered event [(event_id, publish_result)] is the protocol error. *)
Definition is_error (ev : Z * Z) : Prop := fst ev = MQTT_EVENT_ERROR.

(** The events after which [MQTT_DISCONNECT_FLAG] is set. *)
Definition settles (ev : Z * Z) : Prop :=
  (fst ev = MQTT_EVENT_CONNECTED /\ snd ev < 0) \/
  fst ev = MQTT_EVENT_PUBLISHED \/
  fst ev = MQTT_EVENT_DISCONNECTED.

Definition is_connected (ev : Z * Z) : bool := fst ev =? MQTT_EVENT_CONNECTED.

(** The teardown at the end of the polling loop of [send_data]. *)
Definition torn_down (s : state) : state :=
  set_flag false
    (record_call (esp_mqtt_client_destroy (client s))
       (record_call (esp_mqtt_client_stop (client s)) s)).

(** The Provisioning Listener exists. *)
Definition provisioning (s : state) : bool :=
  existsb (task_named "sc_task") (tasks s).

(** Number of tasks of a given name in the registry. *)
Definition instances (name : string) (s : state) : nat :=
  List.length (filter (task_named name) (tasks s)).

(** The action delivers the capture-acknowledged event, respectively the
    address-acquired event. *)
Definition is_ack (a : action) : Prop :=
  match a with
  | Event _ SC_EVENT event_id _ => event_id = SC_EVENT_SEND_ACK_DONE
  | _ => False
  end.

Definition is_got_ip (a : action) : Prop :=
  match a with
  | Event _ IP_EVENT event_id _ => event_id = IP_EVENT_STA_GOT_IP
  | _ => False
  end.

(** The calls recorded when a procedure returns. *)
Definition calls_of {A} (r : result A) : list call :=
  match r with
  | Done _ s => calls s
  | Reboot s => calls s
  | Blocked s => calls s
  | Undefined => []
  end.

(** No station credentials are stored. *)
Definition no_credentials (s : state) : bool :=
  match sta_config s with
  | Some wifi_config => negb (Nat.ltb 0 (strlen (ssid wifi_config)))
  | None => true
  end.

(** The Provisioning Listener has stopped the capture or deleted itself. *)
Definition listener_exited (s : state) : Prop :=
  In esp_smartconfig_stop (calls s) \/ In vTaskDelete (calls s).



(** ** Vocabulary of the further properties *)

(** The state a procedure ends in, when it has one. *)
Definition state_of {A} (r : result A) : option state :=
  match r with
  | Done _ s => Some s
  | Reboot s => Some s
  | Blocked s => Some s
  | Undefined => None
  end.

(** A procedure relates the state it starts in to any state it ends in. *)
Definition preserves {A} (R : state -> state -> Prop) (m : M A) : Prop :=
  forall s s', state_of (m s) = Some s' -> R s s'.

(** What the Connectivity Manager and the Provisioning Listener own. *)
Definition same_connectivity (s s' : state) : Prop :=
  s_wifi_event_group s' = s_wifi_event_group s /\
  tasks s' = tasks s /\
  sta_config s' = sta_config s.

(** What the Report Loop and the Delivery Session own. *)
Definition same_delivery (s s' : state) : Prop :=
  client s' = client s /\
  entropy64 s' = entropy64 s /\
  json_payload s' = json_payload s /\
  MQTT_DISCONNECT_FLAG s' = MQTT_DISCONNECT_FLAG s /\
  draws s' = draws s.

(** What a Delivery Session leaves alone: the connectivity state, the
    number of draws, the sample and its encoding. *)
Definition session_frame (s s' : state) : Prop :=
  same_connectivity s s' /\
  draws s' = draws s /\
  entropy64 s' = entropy64 s /\
  json_payload s' = json_payload s.




(** The events [event_handler] reacts to with more than a log line. *)
Definition handled (event_base : esp_event_base_t) (event_id : Z) : bool :=
  match event_base with
  | WIFI_EVENT =>
      (event_id =? WIFI_EVENT_STA_START)
      || (event_id =? WIFI_EVENT_STA_DISCONNECTED)
  | IP_EVENT => event_id =? IP_EVENT_STA_GOT_IP
  | SC_EVENT =>
      (event_id =? SC_EVENT_GOT_SSID_PSWD)
      || (event_id =? SC_EVENT_SEND_ACK_DONE)
  end.

Definition is_capture_start (c : call) : bool :=
  match c with esp_smartconfig_start => true | _ => false end.

Definition is_capture_stop (c : call) : bool :=
  match c with esp_smartconfig_stop => true | _ => false end.

Definition count_calls (p : call -> bool) (s : state) : nat :=
  List.length (filter p (calls s)).

Definition is_waiting (t : task) : bool :=
  match at_location t with sc_waiting => true | _ => false end.

(** Listeners that have started the capture and are blocked in their wait. *)
Definition waiting_listeners (s : state) : nat :=
  List.length (filter is_waiting (tasks s)).

(** The two kinds of task [main.c] creates: the report task, which runs
    [report_entropy], and the listener, which runs [smartconfig_task]. *)
Definition task_ok (t : task) : Prop :=
  (pcTaskName t = "report_task" /\ at_location t = report_running) \/
  (pcTaskName t = "sc_task" /\ at_location t <> report_running).

(** ** Proof automation *)

Ltac run_monad :=
  unfold do_call, restart, block, undefined in *;
  unfold bind, get, modify, ret in *;
  cbn beta iota in *.

Ltac split_ifs :=
  repeat match goal with
         | |- context [if ?b then _ else _] => destruct b eqn:?
         | |- context [match ?o with Some _ => _ | None => _ end] =>
             destruct o eqn:?
         end.

Ltac mqtt_ids :=
  unfold MQTT_EVENT_ERROR, MQTT_EVENT_CONNECTED, MQTT_EVENT_DISCONNECTED,
    MQTT_EVENT_PUBLISHED in *.

(** * Properties *)

Example encode_payload_max :
  encode_payload 18446744073709551615 =
  String "{" (String dquote ("entropy" ++ String dquote ": 18446744073709551615}")).
Proof. reflexivity. Qed.

Example encode_payload_zero : decode_payload (encode_payload 0) = Some 0.
Proof. reflexivity. Qed.

Example decode_payload_max :
  decode_payload (encode_payload 18446744073709551615) = Some 18446744073709551615.
Proof. reflexivity. Qed.

Example compose64_example :
  compose64 0xDEADBEEF 0x01234567 = 0xDEADBEEF01234567.
Proof. reflexivity. Qed.

(** ** Entropy Sampler *)

Lemma wrap32_range (z : Z) : 0 <= wrap32 z < 2 ^ 32.
Proof. unfold wrap32. apply Z.mod_pos_bound. lia. Qed.

Lemma compose64_sum (hi lo : Z) :
  0 <= hi < 2 ^ 32 -> 0 <= lo < 2 ^ 32 ->
  compose64 hi lo = hi * 2 ^ 32 + lo.
Proof.
  intros Hhi Hlo. unfold compose64, wrap64.
  rewrite Z.shiftl_mul_pow2 by lia.
  rewrite Z.mod_small by lia.
  rewrite <- Z.lxor_lor, <- Z.add_nocarry_lxor; try reflexivity.
  all: apply Z.bits_inj'; intros n Hn; rewrite Z.land_spec, Z.bits_0.
  all: destruct (Z.lt_ge_cases n 32) as [Hlt | Hge].
  all: try (rewrite Z.mul_pow2_bits_low by lia; reflexivity).
  all: rewrite (Z.bits_above_log2 lo n), andb_false_r; try reflexivity; try lia.
  all: destruct (Z.eq_dec lo 0) as [-> | Hnz]; [simpl; lia |].
  all: apply Z.lt_le_trans with 32; [apply Z.log2_lt_pow2; lia | lia].
Qed.

Lemma compose64_high (hi lo : Z) :
  0 <= hi < 2 ^ 32 -> 0 <= lo < 2 ^ 32 ->
  Z.shiftr (compose64 hi lo) 32 = hi.
Proof.
  intros Hhi Hlo. rewrite compose64_sum by assumption.
  rewrite Z.shiftr_div_pow2 by lia.
  rewrite Z.div_add_l by lia. rewrite Z.div_small by lia. lia.
Qed.

Lemma compose64_low (hi lo : Z) :
  0 <= hi < 2 ^ 32 -> 0 <= lo < 2 ^ 32 ->
  Z.land (compose64 hi lo) (Z.ones 32) = lo.
Proof.
  intros Hhi Hlo. rewrite compose64_sum by assumption.
  rewrite Z.land_ones by lia.
  rewrite Z.add_comm, Z.mod_add by lia. apply Z.mod_small; lia.
Qed.

Lemma compose64_range (hi lo : Z) :
  0 <= hi < 2 ^ 32 -> 0 <= lo < 2 ^ 32 ->
  0 <= compose64 hi lo < 2 ^ 64.
Proof. intros Hhi Hlo. rewrite compose64_sum by assumption. lia. Qed.

(** *** Strings *)

Lemma string_length_app (a b : string) :
  String.length (a ++ b) = (String.length a + String.length b)%nat.
Proof. induction a as [| c a IH]; simpl; congruence. Qed.

Lemma app_assoc_string (a b c : string) : ((a ++ b) ++ c = a ++ b ++ c)%string.
Proof. induction a as [| x a IH]; simpl; congruence. Qed.

Lemma substring_all (n : nat) (s : string) :
  (String.length s <= n)%nat -> substring 0 n s = s.
Proof.
  revert n. induction s as [| c s IH]; intros [| n] H; simpl in *;
    try reflexivity; try lia.
  f_equal. apply IH. lia.
Qed.

Lemma strip_prefix_app (p s : string) : strip_prefix p (p ++ s) = Some s.
Proof.
  induction p as [| c p IH]; simpl; [reflexivity |].
  rewrite Ascii.eqb_refl. exact IH.
Qed.

(** *** Decimal digits *)

Lemma digit_value_char (d : Z) :
  0 <= d < 10 -> digit_value (digit_char d) = Some d.
Proof.
  intros H. unfold digit_value, digit_char.
  rewrite nat_ascii_embedding by lia.
  replace (Nat.leb 48 (48 + Z.to_nat d)) with true
    by (symmetry; apply Nat.leb_le; lia).
  replace (Nat.leb (48 + Z.to_nat d) 57) with true
    by (symmetry; apply Nat.leb_le; lia).
  cbn [andb]. f_equal. lia.
Qed.

Lemma digit_value_brace : digit_value "}"%char = None.
Proof. reflexivity. Qed.

(** What [utoa_loop] prepends to its accumulator: a non-empty run of at
    most [k] digits that a Horner reader turns back into [n]. *)
Lemma utoa_loop_spec (k : nat) :
  forall n acc, 0 <= n < 10 ^ Z.of_nat (S k) ->
  exists c ds,
    utoa_loop (S k) n acc = (String c ds ++ acc)%string /\
    (String.length (String c ds) <= S k)%nat /\
    (exists d, digit_value c = Some d) /\
    forall a tail,
      read_digits (String c ds ++ tail) a =
      read_digits tail (a * 10 ^ Z.of_nat (String.length (String c ds)) + n).
Proof.
  induction k as [| k IH]; intros n acc Hn.
  - change (10 ^ Z.of_nat 1) with 10 in Hn.
    assert (Hd : n / 10 = 0) by (apply Z.div_small; lia).
    assert (Hm : n mod 10 = n) by (apply Z.mod_small; lia).
    exists (digit_char n), EmptyString. cbn [utoa_loop].
    rewrite Hd, Hm. cbn [Z.eqb append String.length].
    split; [reflexivity | split; [lia | split]].
    + exists n. apply digit_value_char. lia.
    + intros a tail. cbn [read_digits].
      rewrite digit_value_char by lia. f_equal; lia.
  - assert (Hmod : 0 <= n mod 10 < 10) by (apply Z.mod_pos_bound; lia).
    change (utoa_loop (S (S k)) n acc) with
      (let acc' := String (digit_char (n mod 10)) acc in
       if n / 10 =? 0 then acc' else utoa_loop (S k) (n / 10) acc').
    cbv zeta. destruct (Z.eqb_spec (n / 10) 0) as [Hz | Hnz].
    + assert (Hm : n mod 10 = n)
        by (pose proof (Z.div_mod n 10 ltac:(lia)); lia).
      exists (digit_char (n mod 10)), EmptyString.
      cbn [append String.length].
      split; [reflexivity | split; [lia | split]].
      * exists (n mod 10). apply digit_value_char; assumption.
      * intros a tail. cbn [read_digits].
        rewrite digit_value_char by assumption. f_equal; lia.
    + assert (Hq : 0 <= n / 10 < 10 ^ Z.of_nat (S k)).
      { split; [apply Z.div_pos; lia |].
        apply Z.div_lt_upper_bound; [lia |].
        replace (Z.of_nat (S (S k))) with (Z.of_nat (S k) + 1) in Hn by lia.
        rewrite Z.pow_add_r in Hn by lia. lia. }
      destruct (IH (n / 10) (String (digit_char (n mod 10)) acc) Hq)
        as (c & ds & Heq & Hlen & Hdig & Hread).
      exists c, (ds ++ String (digit_char (n mod 10)) EmptyString)%string.
      split; [| split; [| split]].
      * rewrite Heq. cbn [append]. f_equal.
        rewrite app_assoc_string. reflexivity.
      * cbn [String.length] in *. rewrite string_length_app.
        cbn [String.length]. lia.
      * exact Hdig.
      * intros a tail.
        change (String c (ds ++ String (digit_char (n mod 10)) EmptyString))
          with (String c ds ++ String (digit_char (n mod 10)) EmptyString)%string.
        rewrite app_assoc_string. rewrite Hread.
        cbn [append read_digits]. rewrite digit_value_char by assumption.
        f_equal. cbn [String.length]. rewrite string_length_app.
        cbn [String.length].
        replace (Z.of_nat (S (String.length ds + 1)))
          with (Z.of_nat (S (String.length ds)) + 1) by lia.
        rewrite Z.pow_add_r by lia.
        pose proof (Z.div_mod n 10 ltac:(lia)). lia.
Qed.

Lemma utoa_spec (v : Z) :
  0 <= v < 2 ^ 64 ->
  exists c ds,
    utoa v = String c ds /\
    (String.length (String c ds) <= 20)%nat /\
    (exists d, digit_value c = Some d) /\
    forall tail, read_digits (String c ds ++ tail) 0 = read_digits tail v.
Proof.
  intros Hv.
  assert (Hr : 0 <= v < 10 ^ Z.of_nat 20).
  { change (10 ^ Z.of_nat 20) with 100000000000000000000.
    change (2 ^ 64) with 18446744073709551616 in Hv. lia. }
  destruct (utoa_loop_spec 19 v EmptyString Hr) as (c & ds & Heq & Hlen & Hdig & Hread).
  exists c, ds. unfold utoa. rewrite Heq. split; [| split; [| split]].
  - clear. generalize (String c ds). intros s.
    induction s as [| x s IH]; cbn [append]; congruence.
  - exact Hlen.
  - exact Hdig.
  - intros tail. rewrite Hread. f_equal.
Qed.

(** C7: for every 64-bit unsigned value the payload left in the buffer is
    the untruncated text [{"entropy": N}] with [N] a non-empty run of at most
    twenty decimal digits denoting the value; decoding it yields the value;
    with its terminator it occupies at most 35 bytes, which is within the
    63-byte limit of the message format and the 64-byte buffer. *)
Theorem payload_shape_roundtrip_bound (v : Z) :
  0 <= v < 2 ^ 64 ->
  encode_payload v = (entropy_prefix ++ utoa v ++ "}")%string /\
  read_digits (utoa v) 0 = (v, EmptyString) /\
  (1 <= String.length (utoa v) <= 20)%nat /\
  decode_payload (encode_payload v) = Some v /\
  (payload_bytes (encode_payload v) <= 35)%nat /\
  (payload_bytes (encode_payload v) <= 63)%nat /\
  (payload_bytes (encode_payload v) <= json_payload_size)%nat.
Proof.
  intros Hv.
  destruct (utoa_spec v Hv) as (c & ds & Hu & Hlen & (d & Hd) & Hread).
  assert (Hfit : (String.length (format_entropy v) <= 33)%nat).
  { unfold format_entropy. rewrite !string_length_app, Hu.
    change (String.length entropy_prefix) with 12%nat.
    change (String.length "}") with 1%nat. lia. }
  assert (Henc : encode_payload v = format_entropy v).
  { unfold encode_payload, snprintf. apply substring_all.
    change (json_payload_size - 1)%nat with 63%nat. lia. }
  split; [exact Henc |]. split; [| split; [| split]].
  - rewrite Hu. specialize (Hread EmptyString).
    replace (String c ds ++ "")%string with (String c ds) in Hread; [exact Hread |].
    clear. generalize (String c ds). intros s.
    induction s as [| x s IH]; cbn [append]; congruence.
  - rewrite Hu. cbn [String.length] in *. lia.
  - rewrite Henc. unfold decode_payload, format_entropy.
    rewrite strip_prefix_app, Hu. cbn [append]. rewrite Hd.
    change (String c (ds ++ "}")) with (String c ds ++ "}")%string.
    rewrite Hread. cbn [read_digits]. rewrite digit_value_brace.
    rewrite String.eqb_refl. reflexivity.
  - rewrite Henc. unfold payload_bytes.
    change json_payload_size with 64%nat. lia.
Qed.

Lemma payload_shape_roundtrip_bound_witness :
  0 <= 18446744073709551615 < 2 ^ 64 /\
  decode_payload (encode_payload 18446744073709551615) = Some 18446744073709551615.
Proof.
  split; [split; [discriminate | reflexivity] |].
  apply (payload_shape_roundtrip_bound 18446744073709551615).
  split; [discriminate | reflexivity].
Defined.

(** The sample and its encoding, as [harvest] leaves them. *)
Lemma harvest_done (hw_random : nat -> Z) (s : state) :
  let first := wrap32 (hw_random (draws s)) in
  let second := wrap32 (hw_random (S (draws s))) in
  exists s',
    harvest hw_random s = Done tt s' /\
    draws s' = (draws s + 2)%nat /\
    entropy64 s' = compose64 first second /\
    json_payload s' = encode_payload (entropy64 s') /\
    MQTT_DISCONNECT_FLAG s' = MQTT_DISCONNECT_FLAG s /\
    client s' = client s /\ calls s' = calls s.
Proof.
  intros first second. eexists. split; [reflexivity |].
  cbn [draws entropy64 json_payload MQTT_DISCONNECT_FLAG client calls
       set_json_payload set_entropy64 set_draws].
  repeat split. lia.
Qed.

(** C8: the sample of a cycle is built from exactly two draws of the Random
    Source; the first one is the high 32 bits of [entropy64], the second one
    the low 32 bits.  The two draws are taken in the order in which the
    operands of [|] are written. *)
Theorem sample_is_two_draws (hw_random : nat -> Z) (s : state) :
  let first := wrap32 (hw_random (draws s)) in
  let second := wrap32 (hw_random (S (draws s))) in
  exists s',
    harvest hw_random s = Done tt s' /\
    draws s' = (draws s + 2)%nat /\
    entropy64 s' = first * 2 ^ 32 + second /\
    Z.shiftr (entropy64 s') 32 = first /\
    Z.land (entropy64 s') (Z.ones 32) = second /\
    0 <= entropy64 s' < 2 ^ 64 /\
    json_payload s' = encode_payload (entropy64 s').
Proof.
  intros first second.
  pose proof (wrap32_range (hw_random (draws s))) as H1.
  pose proof (wrap32_range (hw_random (S (draws s)))) as H2.
  destruct (harvest_done hw_random s) as (s' & Hh & Hd & He & Hp & _).
  fold first second in H1, H2, He.
  exists s'. split; [exact Hh |]. split; [exact Hd |]. rewrite He.
  split; [apply compose64_sum; assumption |].
  split; [apply compose64_high; assumption |].
  split; [apply compose64_low; assumption |].
  split; [apply compose64_range; assumption |].
  rewrite <- He. exact Hp.
Qed.

(** ** Interval Scheduler *)

Local Open Scope R_scope.

(** *** Integer parts and nearest integers *)

Lemma Int_part_IZR (k : Z) : Int_part (IZR k) = k.
Proof. symmetry. apply Int_part_spec. lra. Qed.

Lemma Int_part_between (x : R) (b : Z) :
  0 <= x <= IZR b -> (0 <= Int_part x <= b)%Z.
Proof.
  intros [H0 Hb]. destruct (base_Int_part x) as [Hle Hgt]. split.
  - assert (H : (-1 < Int_part x)%Z) by (apply lt_IZR; lra). lia.
  - apply le_IZR. lra.
Qed.

Lemma Int_part_mono (x y : R) : x <= y -> (Int_part x <= Int_part y)%Z.
Proof.
  intros Hxy. destruct (base_Int_part x) as [Hx _].
  destruct (base_Int_part y) as [_ Hy].
  assert (H : (Int_part x < Int_part y + 1)%Z).
  { apply lt_IZR. rewrite plus_IZR. lra. }
  lia.
Qed.

Lemma rne_IZR (k : Z) : rne (IZR k) = k.
Proof.
  unfold rne. rewrite Int_part_IZR.
  destruct (total_order_T (IZR k - IZR k) (1 / 2)) as [[H | H] | H];
    [reflexivity | lra | lra].
Qed.

Lemma rne_range (m : R) : (Int_part m <= rne m <= Int_part m + 1)%Z.
Proof.
  unfold rne.
  destruct (total_order_T (m - IZR (Int_part m)) (1 / 2)) as [[H | H] | H];
    try lia.
  destruct (Z.even (Int_part m)); lia.
Qed.

Lemma rne_mono (a b : R) : a <= b -> (rne a <= rne b)%Z.
Proof.
  intros Hab. pose proof (Int_part_mono a b Hab) as Hf.
  pose proof (rne_range a) as Ha. pose proof (rne_range b) as Hb.
  destruct (Z.eq_dec (Int_part a) (Int_part b)) as [Heq | Hne]; [| lia].
  unfold rne. rewrite <- Heq.
  destruct (total_order_T (a - IZR (Int_part a)) (1 / 2)) as [[Ha1 | Ha1] | Ha1];
    destruct (total_order_T (b - IZR (Int_part a)) (1 / 2)) as [[Hb1 | Hb1] | Hb1];
    try lia; try lra; destruct (Z.even (Int_part a)); lia.
Qed.

(** *** Powers of two and binades *)

Lemma ln_2_pos : 0 < ln 2.
Proof. rewrite <- ln_1. apply ln_increasing; lra. Qed.

Lemma pow2_pos (k : Z) : 0 < powerRZ 2 k.
Proof. apply powerRZ_lt. lra. Qed.

Lemma pow2_add (a b : Z) : powerRZ 2 (a + b) = powerRZ 2 a * powerRZ 2 b.
Proof. apply powerRZ_add. lra. Qed.

Lemma pow2_exp (k : Z) : powerRZ 2 k = exp (IZR k * ln 2).
Proof. rewrite powerRZ_Rpower by lra. reflexivity. Qed.

Lemma pow2_IZR (n : Z) : (0 <= n)%Z -> powerRZ 2 n = IZR (2 ^ n).
Proof.
  intros Hn. rewrite <- (Z2Nat.id n Hn) at 1 2.
  rewrite <- pow_powerRZ. apply (pow_IZR 2).
Qed.

Lemma pow2_le (a b : Z) : (a <= b)%Z -> powerRZ 2 a <= powerRZ 2 b.
Proof.
  intros Hab. replace b with (a + (b - a))%Z by lia. rewrite pow2_add.
  rewrite <- (Rmult_1_r (powerRZ 2 a)) at 1.
  apply Rmult_le_compat_l; [apply Rlt_le, pow2_pos |].
  rewrite pow2_IZR by lia. apply IZR_le.
  assert (0 < 2 ^ (b - a))%Z by (apply Z.pow_pos_nonneg; lia). lia.
Qed.

Lemma exp_le_compat (x y : R) : x <= y -> exp x <= exp y.
Proof.
  intros H. destruct (Rle_lt_or_eq_dec _ _ H) as [Hlt | ->];
    [apply Rlt_le, exp_increasing; exact Hlt | lra].
Qed.

Lemma ln_le_compat (x y : R) : 0 < x -> x <= y -> ln x <= ln y.
Proof.
  intros H0 H. destruct (Rle_lt_or_eq_dec _ _ H) as [Hlt | ->];
    [apply Rlt_le, ln_increasing; assumption | lra].
Qed.

Lemma binade_spec (x : R) :
  0 < x -> powerRZ 2 (binade x) <= x < powerRZ 2 (binade x + 1).
Proof.
  intros Hx. pose proof ln_2_pos as H2. unfold binade.
  destruct (base_Int_part (ln x / ln 2)) as [Hlo Hhi].
  set (E := Int_part (ln x / ln 2)) in *.
  assert (Hq : ln x / ln 2 * ln 2 = ln x) by (field; lra).
  rewrite !pow2_exp, plus_IZR. split.
  - apply Rle_trans with (exp (ln x)); [| rewrite exp_ln by assumption; lra].
    apply exp_le_compat. rewrite <- Hq. apply Rmult_le_compat_r; lra.
  - apply Rle_lt_trans with (exp (ln x)); [rewrite exp_ln by assumption; lra |].
    apply exp_increasing. rewrite <- Hq. apply Rmult_lt_compat_r; lra.
Qed.

Lemma binade_mono (x y : R) : 0 < x -> x <= y -> (binade x <= binade y)%Z.
Proof.
  intros Hx Hxy. unfold binade. apply Int_part_mono.
  pose proof ln_2_pos. unfold Rdiv. apply Rmult_le_compat_r.
  - apply Rlt_le, Rinv_0_lt_compat. assumption.
  - apply ln_le_compat; assumption.
Qed.

Lemma binade_pow2 (k : Z) : binade (powerRZ 2 k) = k.
Proof.
  unfold binade. rewrite pow2_exp, ln_exp.
  replace (IZR k * ln 2 / ln 2) with (IZR k);
    [apply Int_part_IZR | field; pose proof ln_2_pos; lra].
Qed.

(** *** Rounding *)

Lemma round_zero (prec : Z) : round prec 0 = 0.
Proof.
  unfold round. destruct (total_order_T 0 0) as [[H | H] | H];
    [lra | reflexivity | lra].
Qed.

Lemma round_of_pos (prec : Z) (x : R) : 0 < x -> round prec x = round_pos prec x.
Proof.
  intros Hx. unfold round. destruct (total_order_T x 0) as [[H | H] | H];
    [lra | lra | reflexivity].
Qed.

Lemma round_of_neg (prec : Z) (x : R) :
  x < 0 -> round prec x = - round_pos prec (- x).
Proof.
  intros Hx. unfold round. destruct (total_order_T x 0) as [[H | H] | H];
    [reflexivity | lra | lra].
Qed.

(** The significand of a positive [x] lies in [2^(prec-1), 2^prec). *)
Lemma significand_range (prec : Z) (x : R) :
  (1 <= prec)%Z -> 0 < x ->
  IZR (2 ^ (prec - 1)) <= x * powerRZ 2 (- (binade x - (prec - 1)))
  < IZR (2 ^ prec).
Proof.
  intros Hp Hx. destruct (binade_spec x Hx) as [Hlo Hhi].
  set (E := binade x) in *.
  pose proof (pow2_pos (- (E - (prec - 1)))) as Hs.
  rewrite <- !pow2_IZR by lia. split.
  - replace (prec - 1)%Z with (E + - (E - (prec - 1)))%Z at 1 by lia.
    rewrite pow2_add. apply Rmult_le_compat_r; lra.
  - replace prec with ((E + 1) + - (E - (prec - 1)))%Z at 2 by lia.
    rewrite pow2_add. apply Rmult_lt_compat_r; lra.
Qed.

Lemma round_pos_bounds (prec : Z) (x : R) :
  (1 <= prec)%Z -> 0 < x ->
  powerRZ 2 (binade x) <= round_pos prec x <= powerRZ 2 (binade x + 1).
Proof.
  intros Hp Hx. destruct (significand_range prec x Hp Hx) as [Hlo Hhi].
  unfold round_pos. set (E := binade x) in *.
  set (m := x * powerRZ 2 (- (E - (prec - 1)))) in *.
  pose proof (pow2_pos (E - (prec - 1))) as Hs.
  assert (H1 : (2 ^ (prec - 1) <= rne m)%Z).
  { rewrite <- (rne_IZR (2 ^ (prec - 1))). apply rne_mono. exact Hlo. }
  assert (H2 : (rne m <= 2 ^ prec)%Z).
  { rewrite <- (rne_IZR (2 ^ prec)). apply rne_mono. lra. }
  apply IZR_le in H1, H2. rewrite <- !pow2_IZR in H1, H2 by lia. split.
  - replace E with ((prec - 1) + (E - (prec - 1)))%Z at 1 by lia.
    rewrite pow2_add. apply Rmult_le_compat_r; lra.
  - replace (E + 1)%Z with (prec + (E - (prec - 1)))%Z by lia.
    rewrite pow2_add. apply Rmult_le_compat_r; lra.
Qed.

Lemma round_pos_positive (prec : Z) (x : R) :
  (1 <= prec)%Z -> 0 < x -> 0 < round_pos prec x.
Proof.
  intros Hp Hx. destruct (round_pos_bounds prec x Hp Hx) as [H _].
  pose proof (pow2_pos (binade x)). lra.
Qed.

Lemma round_pos_mono (prec : Z) (x y : R) :
  (1 <= prec)%Z -> 0 < x -> x <= y -> round_pos prec x <= round_pos prec y.
Proof.
  intros Hp Hx Hxy. assert (Hy : 0 < y) by lra.
  pose proof (binade_mono x y Hx Hxy) as HE.
  destruct (Z.eq_dec (binade x) (binade y)) as [Heq | Hne].
  - unfold round_pos. rewrite Heq.
    pose proof (pow2_pos (binade y - (prec - 1))) as Hs.
    pose proof (pow2_pos (- (binade y - (prec - 1)))) as Hs'.
    apply Rmult_le_compat_r; [lra |]. apply IZR_le, rne_mono.
    apply Rmult_le_compat_r; lra.
  - destruct (round_pos_bounds prec x Hp Hx) as [_ Hux].
    destruct (round_pos_bounds prec y Hp Hy) as [Hly _].
    pose proof (pow2_le (binade x + 1) (binade y) ltac:(lia)). lra.
Qed.

Lemma round_mono (prec : Z) (x y : R) :
  (1 <= prec)%Z -> x <= y -> round prec x <= round prec y.
Proof.
  intros Hp Hxy.
  destruct (total_order_T x 0) as [[Hx | Hx] | Hx];
    destruct (total_order_T y 0) as [[Hy | Hy] | Hy]; try lra.
  - rewrite !round_of_neg by assumption.
    pose proof (round_pos_mono prec (- y) (- x) Hp ltac:(lra) ltac:(lra)). lra.
  - rewrite round_of_neg by assumption. subst y. rewrite round_zero.
    pose proof (round_pos_positive prec (- x) Hp ltac:(lra)). lra.
  - rewrite round_of_neg, round_of_pos by assumption.
    pose proof (round_pos_positive prec (- x) Hp ltac:(lra)).
    pose proof (round_pos_positive prec y Hp Hy). lra.
  - subst. lra.
  - subst x. rewrite round_zero, round_of_pos by assumption.
    pose proof (round_pos_positive prec y Hp Hy). lra.
  - rewrite !round_of_pos by assumption.
    apply round_pos_mono; assumption.
Qed.

(** Powers of two are representable. *)
Lemma round_pow2 (prec k : Z) :
  (1 <= prec)%Z -> round prec (powerRZ 2 k) = powerRZ 2 k.
Proof.
  intros Hp. rewrite round_of_pos by apply pow2_pos.
  unfold round_pos. rewrite binade_pow2.
  rewrite <- pow2_add.
  replace (k + - (k - (prec - 1)))%Z with (prec - 1)%Z by lia.
  rewrite pow2_IZR by lia. rewrite rne_IZR.
  rewrite <- pow2_IZR by lia. rewrite <- pow2_add. f_equal. lia.
Qed.

Lemma round_neg_pow2 (prec k : Z) :
  (1 <= prec)%Z -> round prec (- powerRZ 2 k) = - powerRZ 2 k.
Proof.
  intros Hp. pose proof (pow2_pos k).
  rewrite round_of_neg by lra. rewrite Ropp_involutive.
  rewrite <- round_of_pos by assumption. rewrite round_pow2 by assumption.
  reflexivity.
Qed.

Lemma round_one (prec : Z) : (1 <= prec)%Z -> round prec 1 = 1.
Proof. intros Hp. apply (round_pow2 prec 0 Hp). Qed.

Lemma round_nonneg (prec : Z) (x : R) :
  (1 <= prec)%Z -> 0 <= x -> 0 <= round prec x.
Proof.
  intros Hp Hx. rewrite <- (round_zero prec) at 1.
  apply round_mono; assumption.
Qed.

Lemma round_positive (prec : Z) (x : R) :
  (1 <= prec)%Z -> 0 < x -> 0 < round prec x.
Proof.
  intros Hp Hx. rewrite round_of_pos by assumption.
  apply round_pos_positive; assumption.
Qed.

(** *** The draw at the ends of its range *)

Lemma float_of_uint32_max_nonzero : float_of_uint32 UINT32_MAX <> 0.
Proof.
  apply Rgt_not_eq. apply round_positive; [discriminate |].
  apply IZR_lt. reflexivity.
Qed.

Lemma U_of_draw_zero : U_of_draw 0 = 0.
Proof.
  unfold U_of_draw, float_of_uint32, to_float. rewrite round_zero.
  unfold Rdiv. rewrite Rmult_0_l. apply round_zero.
Qed.

Lemma U_of_draw_max : U_of_draw UINT32_MAX = 1.
Proof.
  unfold U_of_draw. unfold Rdiv.
  rewrite Rinv_r by apply float_of_uint32_max_nonzero.
  apply round_one. discriminate.
Qed.

Lemma log_pole (x : R) : x <= 0 -> log x = None.
Proof. intros H. unfold log. destruct (Rlt_dec 0 x); [lra | reflexivity]. Qed.

Lemma log_one : log 1 = Some 0.
Proof.
  unfold log. destruct (Rlt_dec 0 1); [| lra].
  rewrite ln_1. unfold to_double. rewrite round_zero. reflexivity.
Qed.

(** At [U = 1.0] the delay is zero, for any tick period. *)
Lemma poisson_ticks_max (portTICK_PERIOD_MS : Z) :
  poisson_ticks portTICK_PERIOD_MS UINT32_MAX = Some 0%Z.
Proof.
  unfold poisson_ticks, delay_minutes. rewrite U_of_draw_max, log_one.
  rewrite Rmult_0_r. unfold to_double, to_float. rewrite !round_zero.
  rewrite Rmult_0_l, round_zero, Rmult_0_l, round_zero.
  unfold Rdiv. rewrite Rmult_0_l, round_zero.
  unfold to_uint32. replace (Int_part 0) with 0%Z; [reflexivity |].
  symmetry. apply (Int_part_IZR 0).
Qed.

(** *** Rounding error *)

Lemma rne_error (m : R) : m - 1 / 2 <= IZR (rne m) <= m + 1 / 2.
Proof.
  destruct (base_Int_part m) as [Hlo Hhi]. unfold rne.
  destruct (total_order_T (m - IZR (Int_part m)) (1 / 2)) as [[H | H] | H].
  - lra.
  - destruct (Z.even (Int_part m)); [| rewrite plus_IZR]; lra.
  - rewrite plus_IZR. lra.
Qed.

Lemma rne_down (m : R) (f : Z) : IZR f <= m < IZR f + 1 / 2 -> rne m = f.
Proof.
  intros [Hlo Hhi].
  assert (Hf : f = Int_part m) by (apply Int_part_spec; lra).
  unfold rne. rewrite <- Hf.
  destruct (total_order_T (m - IZR f) (1 / 2)) as [[H | H] | H];
    [reflexivity | lra | lra].
Qed.

Lemma rne_up (m : R) (f : Z) :
  IZR f + 1 / 2 < m < IZR f + 1 -> rne m = (f + 1)%Z.
Proof.
  intros [Hlo Hhi].
  assert (Hf : f = Int_part m) by (apply Int_part_spec; lra).
  unfold rne. rewrite <- Hf.
  destruct (total_order_T (m - IZR f) (1 / 2)) as [[H | H] | H];
    [lra | lra | reflexivity].
Qed.

Lemma pow2_cancel (e : Z) : powerRZ 2 (- e) * powerRZ 2 e = 1.
Proof.
  rewrite <- pow2_add. replace (- e + e)%Z with 0%Z by lia. reflexivity.
Qed.

Lemma pow2_neg_IZR (n : Z) :
  (0 <= n)%Z -> powerRZ 2 (- n) = / IZR (2 ^ n).
Proof.
  intros Hn. pose proof (pow2_pos n) as Hp. pose proof (pow2_cancel n) as Hc.
  rewrite <- pow2_IZR by assumption.
  apply Rmult_eq_reg_r with (powerRZ 2 n); [| lra].
  rewrite Hc, Rinv_l by lra. reflexivity.
Qed.

(** Rounding to [prec] bits changes a value by at most one part in
    [2 ^ prec]. *)
Lemma round_pos_error (prec : Z) (x : R) :
  (1 <= prec)%Z -> 0 < x ->
  x * (1 - powerRZ 2 (- prec)) <= round_pos prec x
  <= x * (1 + powerRZ 2 (- prec)).
Proof.
  intros Hp Hx. destruct (binade_spec x Hx) as [HE _].
  unfold round_pos. set (E := binade x) in *.
  set (e := (E - (prec - 1))%Z).
  set (m := x * powerRZ 2 (- e)).
  pose proof (rne_error m) as [Hlo Hhi].
  pose proof (pow2_pos e) as Ha. pose proof (pow2_pos (- prec)) as Hb.
  assert (Hm : m * powerRZ 2 e = x).
  { unfold m. rewrite Rmult_assoc, pow2_cancel. ring. }
  assert (Hh : powerRZ 2 e = 2 * (powerRZ 2 E * powerRZ 2 (- prec))).
  { replace e with (1 + (E + - prec))%Z by (unfold e; lia).
    rewrite !pow2_add, powerRZ_1. reflexivity. }
  assert (Hc : powerRZ 2 E * powerRZ 2 (- prec) <= x * powerRZ 2 (- prec)).
  { apply Rmult_le_compat_r; lra. }
  assert (H1 : (m - 1 / 2) * powerRZ 2 e <= IZR (rne m) * powerRZ 2 e).
  { apply Rmult_le_compat_r; lra. }
  assert (H2 : IZR (rne m) * powerRZ 2 e <= (m + 1 / 2) * powerRZ 2 e).
  { apply Rmult_le_compat_r; lra. }
  rewrite Rmult_minus_distr_r, Hm in H1.
  rewrite Rmult_plus_distr_r, Hm in H2. lra.
Qed.

Lemma round_error (prec : Z) (x : R) :
  (1 <= prec)%Z -> 0 <= x ->
  x * (1 - powerRZ 2 (- prec)) <= round prec x <= x * (1 + powerRZ 2 (- prec)).
Proof.
  intros Hp [Hx | <-].
  - rewrite round_of_pos by assumption. apply round_pos_error; assumption.
  - rewrite round_zero. lra.
Qed.

Lemma round_opp (prec : Z) (x : R) : round prec (- x) = - round prec x.
Proof.
  destruct (total_order_T x 0) as [[Hx | Hx] | Hx].
  - rewrite (round_of_neg prec x), (round_of_pos prec (- x)) by lra. lra.
  - subst x. rewrite Ropp_0, round_zero. lra.
  - rewrite (round_of_pos prec x), (round_of_neg prec (- x)) by lra.
    rewrite Ropp_involutive. reflexivity.
Qed.

Lemma to_float_error (x : R) :
  0 <= x -> x * (1 - / 16777216) <= to_float x <= x * (1 + / 16777216).
Proof.
  intros Hx. pose proof (round_error FLT_MANT_DIG x ltac:(discriminate) Hx) as H.
  unfold FLT_MANT_DIG in H.
  rewrite (pow2_neg_IZR 24) in H by discriminate.
  change (2 ^ 24)%Z with 16777216%Z in H. exact H.
Qed.

Lemma to_double_error (x : R) :
  0 <= x ->
  x * (1 - / 9007199254740992) <= to_double x
  <= x * (1 + / 9007199254740992).
Proof.
  intros Hx. pose proof (round_error DBL_MANT_DIG x ltac:(discriminate) Hx) as H.
  unfold DBL_MANT_DIG in H.
  rewrite (pow2_neg_IZR 53) in H by discriminate.
  change (2 ^ 53)%Z with 9007199254740992%Z in H. exact H.
Qed.

Lemma to_float_mono (x y : R) : x <= y -> to_float x <= to_float y.
Proof. apply round_mono. discriminate. Qed.

Lemma to_double_mono (x y : R) : x <= y -> to_double x <= to_double y.
Proof. apply round_mono. discriminate. Qed.

(** *** Representable values *)

Lemma binade_unique (x : R) (k : Z) :
  powerRZ 2 k <= x < powerRZ 2 (k + 1) -> binade x = k.
Proof.
  intros [Hlo Hhi]. pose proof (pow2_pos k) as Hk.
  destruct (binade_spec x ltac:(lra)) as [Blo Bhi].
  destruct (Z.lt_trichotomy (binade x) k) as [H | [H | H]]; [| exact H |].
  - pose proof (pow2_le (binade x + 1) k ltac:(lia)). lra.
  - pose proof (pow2_le (k + 1) (binade x) ltac:(lia)). lra.
Qed.

(** Integers below [2 ^ prec] are representable. *)
Lemma round_int (prec n : Z) :
  (1 <= prec)%Z -> (0 <= n < 2 ^ prec)%Z -> round prec (IZR n) = IZR n.
Proof.
  intros Hp [Hn0 Hn].
  destruct (Z.eq_dec n 0) as [-> | Hne]; [apply round_zero |].
  assert (Hx : 0 < IZR n) by (apply IZR_lt; lia).
  destruct (binade_spec (IZR n) Hx) as [Blo _].
  assert (HE0 : (0 <= binade (IZR n))%Z).
  { rewrite <- (binade_pow2 0). apply binade_mono; [apply pow2_pos |].
    change (powerRZ 2 0) with 1. apply IZR_le. lia. }
  assert (HE1 : (binade (IZR n) < prec)%Z).
  { destruct (Z_lt_le_dec (binade (IZR n)) prec) as [H | H]; [exact H |].
    pose proof (pow2_le prec (binade (IZR n)) H) as Hle.
    rewrite (pow2_IZR prec) in Hle by lia.
    apply IZR_lt in Hn. lra. }
  rewrite round_of_pos by assumption. unfold round_pos.
  set (e := (binade (IZR n) - (prec - 1))%Z).
  rewrite (pow2_IZR (- e)) by (unfold e; lia).
  rewrite <- mult_IZR, rne_IZR, mult_IZR.
  rewrite <- (pow2_IZR (- e)) by (unfold e; lia).
  rewrite Rmult_assoc, pow2_cancel. ring.
Qed.

(** Rounding commutes with scaling by a power of two. *)
Lemma round_scale (prec j : Z) (x : R) :
  (1 <= prec)%Z -> 0 < x ->
  round prec (x * powerRZ 2 j) = round prec x * powerRZ 2 j.
Proof.
  intros Hp Hx. pose proof (pow2_pos j) as Hj.
  assert (Hxj : 0 < x * powerRZ 2 j) by (apply Rmult_lt_0_compat; assumption).
  destruct (binade_spec x Hx) as [Blo Bhi].
  assert (HE : binade (x * powerRZ 2 j) = (binade x + j)%Z).
  { apply binade_unique.
    replace (binade x + j + 1)%Z with (binade x + 1 + j)%Z by lia.
    rewrite (pow2_add (binade x) j), (pow2_add (binade x + 1) j). split.
    - apply Rmult_le_compat_r; lra.
    - apply Rmult_lt_compat_r; lra. }
  rewrite !round_of_pos by assumption. unfold round_pos. rewrite HE.
  set (e := (binade x - (prec - 1))%Z).
  replace (binade x + j - (prec - 1))%Z with (e + j)%Z by (unfold e; lia).
  replace (x * powerRZ 2 j * powerRZ 2 (- (e + j)))
    with (x * powerRZ 2 (- e)).
  - rewrite pow2_add. ring.
  - rewrite Rmult_assoc, <- pow2_add. f_equal. f_equal. lia.
Qed.

Lemma float_of_uint32_exact (n : Z) :
  (0 <= n < 16777216)%Z -> float_of_uint32 n = IZR n.
Proof. intros H. apply round_int; [discriminate | exact H]. Qed.

(** [UINT32_MAX] converts to [2 ^ 32]. *)
Lemma float_of_uint32_max : float_of_uint32 UINT32_MAX = 4294967296.
Proof.
  unfold float_of_uint32, to_float, FLT_MANT_DIG.
  rewrite round_of_pos by (apply IZR_lt; reflexivity). unfold round_pos.
  assert (HE : binade (IZR UINT32_MAX) = 31%Z).
  { apply binade_unique. rewrite !pow2_IZR by discriminate.
    split; [apply IZR_le | apply IZR_lt]; vm_compute; congruence. }
  rewrite HE. change (31 - (24 - 1))%Z with 8%Z.
  rewrite (pow2_neg_IZR 8), (pow2_IZR 8) by discriminate.
  change (2 ^ 8)%Z with 256%Z. unfold UINT32_MAX.
  rewrite (rne_up _ 16777215); [change (16777215 + 1)%Z with 16777216%Z | ]; lra.
Qed.

(** *** Bracketing [ln 2] *)

Lemma scale_pos : 0 < IZR scale.
Proof. apply IZR_lt. reflexivity. Qed.

Lemma sq_down_sound (c : Z) (y : R) :
  (0 <= c)%Z -> IZR c / IZR scale <= exp y ->
  IZR (sq_down c) / IZR scale <= exp (2 * y).
Proof.
  intros Hc Hle. pose proof scale_pos as Hs.
  assert (Hfloor : IZR (sq_down c) * IZR scale <= IZR c * IZR c).
  { rewrite <- !mult_IZR. apply IZR_le. unfold sq_down.
    rewrite Z.mul_comm. apply Z.mul_div_le. reflexivity. }
  assert (H0 : 0 <= IZR c / IZR scale).
  { apply Rmult_le_pos; [apply IZR_le; assumption |].
    apply Rlt_le, Rinv_0_lt_compat; assumption. }
  replace (2 * y) with (y + y) by ring. rewrite exp_plus.
  apply Rle_trans with ((IZR c / IZR scale) * (IZR c / IZR scale)).
  - apply Rmult_le_reg_r with (IZR scale * IZR scale).
    + apply Rmult_lt_0_compat; assumption.
    + replace (IZR (sq_down c) / IZR scale * (IZR scale * IZR scale))
        with (IZR (sq_down c) * IZR scale) by (field; lra).
      replace (IZR c / IZR scale * (IZR c / IZR scale) * (IZR scale * IZR scale))
        with (IZR c * IZR c) by (field; lra).
      exact Hfloor.
  - apply Rmult_le_compat; assumption.
Qed.

Lemma sq_down_nonneg (c : Z) : (0 <= c)%Z -> (0 <= sq_down c)%Z.
Proof.
  intros Hc. unfold sq_down. apply Z.div_pos; [nia | reflexivity].
Qed.

Lemma sq_iter_sound (k : nat) :
  forall (c : Z) (y : R),
    (0 <= c)%Z -> IZR c / IZR scale <= exp y ->
    IZR (sq_iter k c) / IZR scale <= exp (2 ^ k * y).
Proof.
  induction k as [| k IH]; intros c y Hc Hle.
  - cbn [sq_iter pow]. rewrite Rmult_1_l. exact Hle.
  - cbn [sq_iter pow].
    replace (2 * 2 ^ k * y) with (2 ^ k * (2 * y)) by ring.
    apply IH; [apply sq_down_nonneg; assumption |].
    apply sq_down_sound; assumption.
Qed.

(** A lower bound of [exp (p / q)] computed in fixed point, from
    [1 + x <= exp x] at [x = p / (2 ^ 34 q)] and thirty-four squarings. *)
Lemma exp_lower_bound (p q : Z) :
  (0 < q)%Z -> (0 <= scale + scale * p / (17179869184 * q))%Z ->
  IZR (sq_iter 34 (scale + scale * p / (17179869184 * q))) / IZR scale
  <= exp (IZR p / IZR q).
Proof.
  intros Hq Hc. pose proof scale_pos as Hs.
  assert (Hq' : 0 < IZR q) by (apply IZR_lt; assumption).
  replace (IZR p / IZR q) with (2 ^ 34 * (IZR p / (17179869184 * IZR q))).
  2:{ replace (2 ^ 34) with 17179869184 by (simpl; lra). field. lra. }
  apply sq_iter_sound; [assumption |].
  apply Rle_trans with (1 + IZR p / (17179869184 * IZR q));
    [| apply exp_ineq1_le].
  rewrite plus_IZR.
  assert (Hfl : IZR (scale * p / (17179869184 * q)) * (17179869184 * IZR q)
                <= IZR scale * IZR p).
  { replace 17179869184 with (IZR 17179869184) by reflexivity.
    rewrite <- !mult_IZR. apply IZR_le.
    rewrite Z.mul_comm. apply Z.mul_div_le. lia. }
  apply Rmult_le_reg_r with (IZR scale * (17179869184 * IZR q)).
  - apply Rmult_lt_0_compat; lra.
  - replace ((IZR scale + IZR (scale * p / (17179869184 * q))) / IZR scale *
             (IZR scale * (17179869184 * IZR q)))
      with (IZR scale * (17179869184 * IZR q)
            + IZR (scale * p / (17179869184 * q)) * (17179869184 * IZR q))
      by (field; lra).
    replace ((1 + IZR p / (17179869184 * IZR q))
             * (IZR scale * (17179869184 * IZR q)))
      with (IZR scale * (17179869184 * IZR q) + IZR scale * IZR p)
      by (field; lra).
    lra.
Qed.

Lemma ln_2_lower : 693147180 / 1000000000 < ln 2.
Proof.
  assert (H : / 2 < exp (IZR (-693147180) / IZR 1000000000)).
  { eapply Rlt_le_trans;
      [| apply exp_lower_bound; [reflexivity | vm_compute; discriminate]].
    apply Rmult_lt_reg_r with (IZR scale); [apply scale_pos |].
    unfold Rdiv. rewrite Rmult_assoc, Rinv_l, Rmult_1_r
      by (apply Rgt_not_eq, scale_pos).
    apply Rmult_lt_reg_l with 2; [lra |].
    rewrite <- Rmult_assoc, Rinv_r, Rmult_1_l by lra.
    replace 2 with (IZR 2) by reflexivity. rewrite <- mult_IZR.
    apply IZR_lt. vm_compute. reflexivity. }
  replace (IZR (-693147180) / IZR 1000000000)
    with (- (693147180 / 1000000000)) in H by lra.
  rewrite exp_Ropp in H.
  assert (He : exp (693147180 / 1000000000) < 2).
  { pose proof (exp_pos (693147180 / 1000000000)) as Hp.
    apply Rinv_lt_contravar in H.
    - rewrite !Rinv_inv in H. exact H.
    - apply Rmult_lt_0_compat; [lra | apply Rinv_0_lt_compat; assumption]. }
  apply exp_lt_inv. rewrite exp_ln by lra. exact He.
Qed.

Lemma ln_2_upper : ln 2 < 693147181 / 1000000000.
Proof.
  assert (H : 2 < exp (IZR 693147181 / IZR 1000000000)).
  { eapply Rlt_le_trans;
      [| apply exp_lower_bound; [reflexivity | vm_compute; discriminate]].
    apply Rmult_lt_reg_r with (IZR scale); [apply scale_pos |].
    unfold Rdiv. rewrite Rmult_assoc, Rinv_l, Rmult_1_r
      by (apply Rgt_not_eq, scale_pos).
    replace 2 with (IZR 2) by reflexivity. rewrite <- mult_IZR.
    apply IZR_lt. vm_compute. reflexivity. }
  apply exp_lt_inv. rewrite exp_ln by lra. exact H.
Qed.

Lemma ln_3_lower : 1098612288 / 1000000000 < ln 3.
Proof.
  assert (H : / 3 < exp (IZR (-1098612288) / IZR 1000000000)).
  { eapply Rlt_le_trans;
      [| apply exp_lower_bound; [reflexivity | vm_compute; discriminate]].
    apply Rmult_lt_reg_r with (IZR scale); [apply scale_pos |].
    unfold Rdiv. rewrite Rmult_assoc, Rinv_l, Rmult_1_r
      by (apply Rgt_not_eq, scale_pos).
    apply Rmult_lt_reg_l with 3; [lra |].
    rewrite <- Rmult_assoc, Rinv_r, Rmult_1_l by lra.
    replace 3 with (IZR 3) by reflexivity. rewrite <- mult_IZR.
    apply IZR_lt. vm_compute. reflexivity. }
  replace (IZR (-1098612288) / IZR 1000000000)
    with (- (1098612288 / 1000000000)) in H by lra.
  rewrite exp_Ropp in H.
  assert (He : exp (1098612288 / 1000000000) < 3).
  { pose proof (exp_pos (1098612288 / 1000000000)) as Hp.
    apply Rinv_lt_contravar in H.
    - rewrite !Rinv_inv in H. exact H.
    - apply Rmult_lt_0_compat; [lra | apply Rinv_0_lt_compat; assumption]. }
  apply exp_lt_inv. rewrite exp_ln by lra. exact He.
Qed.

Lemma ln_3_upper : ln 3 < 1098612289 / 1000000000.
Proof.
  assert (H : 3 < exp (IZR 1098612289 / IZR 1000000000)).
  { eapply Rlt_le_trans;
      [| apply exp_lower_bound; [reflexivity | vm_compute; discriminate]].
    apply Rmult_lt_reg_r with (IZR scale); [apply scale_pos |].
    unfold Rdiv. rewrite Rmult_assoc, Rinv_l, Rmult_1_r
      by (apply Rgt_not_eq, scale_pos).
    replace 3 with (IZR 3) by reflexivity. rewrite <- mult_IZR.
    apply IZR_lt. vm_compute. reflexivity. }
  apply exp_lt_inv. rewrite exp_ln by lra. exact H.
Qed.

Lemma ln_pow2 (k : Z) : ln (powerRZ 2 k) = IZR k * ln 2.
Proof. rewrite pow2_exp. apply ln_exp. Qed.

Lemma ln_neg (U : R) : 0 < U < 1 -> ln U < 0.
Proof. intros [H0 H1]. rewrite <- ln_1. apply ln_increasing; assumption. Qed.

Lemma ln_nonpos (U : R) : 0 < U <= 1 -> ln U <= 0.
Proof. intros [H0 H1]. rewrite <- ln_1. apply ln_le_compat; assumption. Qed.

Lemma ln_half : ln (1 / 2) = - ln 2.
Proof. replace (1 / 2) with (/ 2) by lra. apply ln_Rinv. lra. Qed.

(** *** The delay in minutes as a function of [U] *)

Lemma log_value (x : R) : 0 < x -> log x = Some (to_double (ln x)).
Proof.
  intros H. unfold log. destruct (Rlt_dec 0 x); [reflexivity | contradiction].
Qed.

Lemma delay_minutes_value (U : R) :
  0 < U ->
  delay_minutes U
  = Some (to_float (to_double (IZR AVERAGE_DELAY_MINUTES
                               * to_double (- ln U)))).
Proof.
  intros H. unfold delay_minutes. rewrite log_value by assumption.
  assert (E : - IZR AVERAGE_DELAY_MINUTES * to_double (ln U)
              = IZR AVERAGE_DELAY_MINUTES * to_double (- ln U)).
  { unfold to_double. rewrite round_opp. ring. }
  rewrite E. reflexivity.
Qed.

Lemma delay_minutes_defined (U : R) :
  0 < U -> exists d, delay_minutes U = Some d.
Proof. intros H. eexists. apply delay_minutes_value. exact H. Qed.

(** The delay is the exponential one to within one part in [2 ^ 23]. *)
Lemma delay_minutes_accuracy (U d : R) :
  0 < U <= 1 -> delay_minutes U = Some d ->
  - IZR AVERAGE_DELAY_MINUTES * ln U * (1 - / 8388608) <= d
  <= - IZR AVERAGE_DELAY_MINUTES * ln U * (1 + / 8388608).
Proof.
  intros HU Hd. rewrite delay_minutes_value in Hd by apply HU.
  injection Hd as <-. pose proof (ln_nonpos U HU) as Hl.
  unfold AVERAGE_DELAY_MINUTES.
  set (L := - ln U) in *. assert (HL : 0 <= L) by (unfold L; lra).
  replace (ln U) with (- L) by (unfold L; ring).
  pose proof (to_double_error L HL) as H1.
  assert (H1' : 0 <= to_double L)
    by (apply round_nonneg; [discriminate | exact HL]).
  set (r1 := to_double L) in *.
  pose proof (to_double_error (60 * r1) ltac:(lra)) as H2.
  assert (H2' : 0 <= to_double (60 * r1))
    by (apply round_nonneg; [discriminate | lra]).
  set (r2 := to_double (60 * r1)) in *.
  pose proof (to_float_error r2 H2') as H3.
  set (r3 := to_float r2) in *. lra.
Qed.

Lemma delay_minutes_mono (U1 U2 d1 d2 : R) :
  0 < U1 -> U1 <= U2 ->
  delay_minutes U1 = Some d1 -> delay_minutes U2 = Some d2 -> d2 <= d1.
Proof.
  intros H1 H12 Hd1 Hd2.
  rewrite delay_minutes_value in Hd1 by assumption.
  rewrite delay_minutes_value in Hd2 by lra.
  injection Hd1 as <-. injection Hd2 as <-.
  pose proof (ln_le_compat U1 U2 H1 H12) as Hl.
  apply to_float_mono, to_double_mono. unfold AVERAGE_DELAY_MINUTES.
  assert (H : to_double (- ln U2) <= to_double (- ln U1))
    by (apply to_double_mono; lra).
  lra.
Qed.

Lemma delay_minutes_positive (U d : R) :
  0 < U < 1 -> delay_minutes U = Some d -> 0 < d.
Proof.
  intros HU Hd. rewrite delay_minutes_value in Hd by apply HU.
  injection Hd as <-. pose proof (ln_neg U HU) as Hl.
  assert (H1 : 0 < to_double (- ln U))
    by (apply round_positive; [discriminate | lra]).
  apply round_positive; [discriminate |].
  apply round_positive; [discriminate |].
  unfold AVERAGE_DELAY_MINUTES. lra.
Qed.

(** At [U = 0.5] the delay is about 41.59 minutes. *)
Lemma delay_minutes_half (d : R) :
  delay_minutes (1 / 2) = Some d -> 4158 / 100 < d < 4160 / 100.
Proof.
  intros Hd.
  pose proof (delay_minutes_accuracy (1 / 2) d ltac:(lra) Hd) as H.
  rewrite ln_half in H. unfold AVERAGE_DELAY_MINUTES in H.
  pose proof ln_2_lower. pose proof ln_2_upper. lra.
Qed.

(** *** The draw as a fraction *)

Lemma float_of_uint32_mono (a b : Z) :
  (a <= b)%Z -> float_of_uint32 a <= float_of_uint32 b.
Proof. intros H. apply to_float_mono, IZR_le, H. Qed.

Lemma U_of_draw_mono (d1 d2 : Z) :
  (d1 <= d2)%Z -> U_of_draw d1 <= U_of_draw d2.
Proof.
  intros H. unfold U_of_draw. rewrite float_of_uint32_max.
  apply to_float_mono. apply Rmult_le_compat_r; [lra |].
  apply float_of_uint32_mono, H.
Qed.

Lemma pow2_m32 : powerRZ 2 (-32) = / 4294967296.
Proof. exact (pow2_neg_IZR 32 ltac:(discriminate)). Qed.

Lemma pow2_m31 : powerRZ 2 (-31) = / 2147483648.
Proof. exact (pow2_neg_IZR 31 ltac:(discriminate)). Qed.

Lemma pow2_m24 : powerRZ 2 (-24) = / 16777216.
Proof. exact (pow2_neg_IZR 24 ltac:(discriminate)). Qed.

Lemma pow2_m19 : powerRZ 2 (-19) = / 524288.
Proof. exact (pow2_neg_IZR 19 ltac:(discriminate)). Qed.

Lemma pow2_m1 : powerRZ 2 (-1) = / 2.
Proof. exact (pow2_neg_IZR 1 ltac:(discriminate)). Qed.

Lemma U_of_draw_one : U_of_draw 1 = / 4294967296.
Proof.
  unfold U_of_draw. rewrite float_of_uint32_max.
  rewrite float_of_uint32_exact by lia.
  replace (1 / 4294967296) with (powerRZ 2 (-32)) by (rewrite pow2_m32; lra).
  unfold to_float. rewrite round_pow2 by discriminate. apply pow2_m32.
Qed.

Lemma U_of_draw_range (draw : Z) :
  (1 <= draw <= UINT32_MAX)%Z -> / 4294967296 <= U_of_draw draw <= 1.
Proof.
  intros [Hlo Hhi]. rewrite <- U_of_draw_one, <- U_of_draw_max.
  split; apply U_of_draw_mono; assumption.
Qed.

(** The draw [2 ^ 31] gives [U = 0.5]. *)
Lemma U_of_draw_half : U_of_draw 2147483648 = 1 / 2.
Proof.
  unfold U_of_draw. rewrite float_of_uint32_max.
  assert (H : float_of_uint32 2147483648 = 2147483648).
  { unfold float_of_uint32, to_float.
    change 2147483648%Z with (2 ^ 31)%Z.
    rewrite <- pow2_IZR by discriminate. apply round_pow2. discriminate. }
  rewrite H. replace (2147483648 / 4294967296) with (powerRZ 2 (-1))
    by (rewrite pow2_m1; lra).
  unfold to_float. rewrite round_pow2 by discriminate. rewrite pow2_m1. lra.
Qed.

(** The draw [2 ^ 32 - 256] gives the largest [U] below 1. *)
Lemma U_of_draw_below_one : U_of_draw 4294967040 = 16777215 / 16777216.
Proof.
  unfold U_of_draw. rewrite float_of_uint32_max.
  assert (H8 : powerRZ 2 8 = 256).
  { rewrite pow2_IZR by discriminate. reflexivity. }
  pose proof pow2_m24 as H24.
  assert (H : float_of_uint32 4294967040 = 4294967040).
  { unfold float_of_uint32, to_float.
    replace (IZR 4294967040) with (IZR 16777215 * powerRZ 2 8) by lra.
    rewrite round_scale by (try discriminate; lra).
    rewrite round_int by (first [discriminate | split; [discriminate | reflexivity]]). reflexivity. }
  rewrite H.
  replace (4294967040 / 4294967296) with (IZR 16777215 * powerRZ 2 (-24))
    by lra.
  unfold to_float. rewrite round_scale by (try discriminate; lra).
  rewrite round_int by (first [discriminate | split; [discriminate | reflexivity]]). lra.
Qed.

(** *** The delay in ticks *)

Lemma poisson_ticks_value (portTICK_PERIOD_MS draw : Z) (d : R) :
  delay_minutes (U_of_draw draw) = Some d ->
  poisson_ticks portTICK_PERIOD_MS draw
  = to_uint32
      (to_float (to_float (to_float (d * 60) * 1000)
                 / float_of_uint32 portTICK_PERIOD_MS)).
Proof. intros H. unfold poisson_ticks. rewrite H. reflexivity. Qed.

(** The three [float] operations of line 140 together change the value by
    at most one part in [2 ^ 22]. *)
Lemma ticks_accuracy (d fP : R) :
  0 <= d -> 1 <= fP ->
  d * 60 * 1000 / fP * (1 - / 4194304)
  <= to_float (to_float (to_float (d * 60) * 1000) / fP)
  <= d * 60 * 1000 / fP * (1 + / 4194304).
Proof.
  intros Hd HP.
  assert (Hq : 0 < / fP) by (apply Rinv_0_lt_compat; lra).
  pose proof (to_float_error (d * 60) ltac:(lra)) as H1.
  assert (H1' : 0 <= to_float (d * 60))
    by (apply round_nonneg; [discriminate | lra]).
  set (r1 := to_float (d * 60)) in *.
  pose proof (to_float_error (r1 * 1000) ltac:(lra)) as H2.
  assert (H2' : 0 <= to_float (r1 * 1000))
    by (apply round_nonneg; [discriminate | lra]).
  set (r2 := to_float (r1 * 1000)) in *.
  assert (Hy : 0 <= r2 / fP) by (apply Rmult_le_pos; lra).
  pose proof (to_float_error (r2 / fP) Hy) as H3.
  set (r3 := to_float (r2 / fP)) in *.
  assert (Hlo : d * 60 * 1000 / fP * ((1 - / 16777216) * (1 - / 16777216))
                <= r2 / fP).
  { replace (d * 60 * 1000 / fP * ((1 - / 16777216) * (1 - / 16777216)))
      with (d * 60 * 1000 * ((1 - / 16777216) * (1 - / 16777216)) * / fP)
      by (unfold Rdiv; ring).
    apply Rmult_le_compat_r; lra. }
  assert (Hhi : r2 / fP
                <= d * 60 * 1000 / fP * ((1 + / 16777216) * (1 + / 16777216))).
  { replace (d * 60 * 1000 / fP * ((1 + / 16777216) * (1 + / 16777216)))
      with (d * 60 * 1000 * ((1 + / 16777216) * (1 + / 16777216)) * / fP)
      by (unfold Rdiv; ring).
    apply Rmult_le_compat_r; lra. }
  assert (HX : 0 <= d * 60 * 1000 / fP) by (apply Rmult_le_pos; lra).
  set (X := d * 60 * 1000 / fP) in *. set (y := r2 / fP) in *. lra.
Qed.

Lemma to_uint32_floor (x : R) (b : Z) :
  (b <= UINT32_MAX)%Z -> 0 <= x <= IZR b ->
  exists t, to_uint32 x = Some t /\ (0 <= t <= b)%Z /\ x - 1 < IZR t <= x.
Proof.
  intros Hb Hx. exists (Int_part x).
  pose proof (Int_part_between x b Hx) as Ht.
  destruct (base_Int_part x) as [H1 H2].
  split; [| split; [exact Ht | lra]].
  unfold to_uint32.
  replace (0 <=? Int_part x)%Z with true by (symmetry; apply Z.leb_le; lia).
  replace (Int_part x <=? UINT32_MAX)%Z with true
    by (symmetry; apply Z.leb_le; lia).
  reflexivity.
Qed.

(** The delay of a non-zero draw is below 1332 minutes. *)
Lemma delay_minutes_bound (draw : Z) (d : R) :
  (1 <= draw <= UINT32_MAX)%Z ->
  delay_minutes (U_of_draw draw) = Some d -> 0 <= d <= 13312 / 10.
Proof.
  intros Hdraw Hd. destruct (U_of_draw_range draw Hdraw) as [Hlo Hhi].
  assert (HU : 0 < U_of_draw draw) by lra.
  pose proof (delay_minutes_accuracy _ d (conj HU Hhi) Hd) as [Ha Hb].
  pose proof (ln_nonpos _ (conj HU Hhi)) as Hl.
  assert (Hln : - (32 * ln 2) <= ln (U_of_draw draw)).
  { replace (- (32 * ln 2)) with (ln (powerRZ 2 (-32)))
      by (rewrite ln_pow2; lra).
    apply ln_le_compat; [apply pow2_pos |].
    rewrite pow2_m32. exact Hlo. }
  pose proof ln_2_upper. unfold AVERAGE_DELAY_MINUTES in Ha, Hb. lra.
Qed.

(** Every non-zero draw gives a defined tick count, the delay in minutes
    converted to ticks to within one part in [2 ^ 22] and truncated. *)
Lemma poisson_ticks_sound (portTICK_PERIOD_MS draw : Z) (d : R) :
  (1 <= portTICK_PERIOD_MS)%Z ->
  (1 <= draw <= UINT32_MAX)%Z ->
  delay_minutes (U_of_draw draw) = Some d ->
  exists t,
    poisson_ticks portTICK_PERIOD_MS draw = Some t /\
    (0 <= t <= 79920000)%Z /\
    d * 60 * 1000 / float_of_uint32 portTICK_PERIOD_MS * (1 - / 4194304) - 1
    < IZR t
    <= d * 60 * 1000 / float_of_uint32 portTICK_PERIOD_MS * (1 + / 4194304).
Proof.
  intros HP Hdraw Hd. rewrite (poisson_ticks_value _ _ d Hd).
  destruct (delay_minutes_bound draw d Hdraw Hd) as [Hd0 Hd1].
  assert (HfP : 1 <= float_of_uint32 portTICK_PERIOD_MS).
  { rewrite <- (float_of_uint32_exact 1) by lia.
    apply float_of_uint32_mono. lia. }
  set (fP := float_of_uint32 portTICK_PERIOD_MS) in *.
  pose proof (ticks_accuracy d fP Hd0 HfP) as [Ha Hb].
  assert (Hq : 0 < / fP <= 1).
  { split; [apply Rinv_0_lt_compat; lra |].
    rewrite <- Rinv_1. apply Rinv_le_contravar; lra. }
  assert (HX : 0 <= d * 60 * 1000 / fP <= 79872000).
  { split; [apply Rmult_le_pos; lra |].
    apply Rle_trans with (d * 60 * 1000 * 1); [| lra].
    apply Rmult_le_compat_l; lra. }
  set (X := d * 60 * 1000 / fP) in *.
  set (r := to_float (to_float (to_float (d * 60) * 1000) / fP)) in *.
  destruct (to_uint32_floor r 79920000 ltac:(discriminate) ltac:(lra))
    as (t & Ht & Hr & Hf).
  exists t. split; [exact Ht |]. split; [exact Hr |]. lra.
Qed.

Lemma poisson_ticks_defined (portTICK_PERIOD_MS draw : Z) :
  (1 <= portTICK_PERIOD_MS)%Z ->
  (1 <= draw <= UINT32_MAX)%Z ->
  exists t,
    poisson_ticks portTICK_PERIOD_MS draw = Some t /\ (0 <= t <= 79920000)%Z.
Proof.
  intros HP Hdraw. destruct (U_of_draw_range draw Hdraw) as [Hlo _].
  destruct (delay_minutes_defined (U_of_draw draw) ltac:(lra)) as [d Hd].
  destruct (poisson_ticks_sound _ _ d HP Hdraw Hd) as (t & Ht & Hr & _).
  exists t. split; assumption.
Qed.

Lemma poisson_ticks_mono (portTICK_PERIOD_MS d1 d2 t1 t2 : Z) :
  (1 <= portTICK_PERIOD_MS)%Z ->
  (1 <= d1)%Z -> (d1 <= d2)%Z ->
  poisson_ticks portTICK_PERIOD_MS d1 = Some t1 ->
  poisson_ticks portTICK_PERIOD_MS d2 = Some t2 -> (t2 <= t1)%Z.
Proof.
  intros HP H1 H12 Ht1 Ht2. unfold poisson_ticks in Ht1, Ht2.
  destruct (delay_minutes (U_of_draw d1)) as [m1 |] eqn:Hm1; [| discriminate].
  destruct (delay_minutes (U_of_draw d2)) as [m2 |] eqn:Hm2; [| discriminate].
  assert (HU1 : 0 < U_of_draw d1).
  { pose proof (U_of_draw_mono 1 d1 H1) as H. rewrite U_of_draw_one in H. lra. }
  pose proof (delay_minutes_mono _ _ m1 m2 HU1 (U_of_draw_mono d1 d2 H12)
                                 Hm1 Hm2) as Hm.
  assert (HfP : 1 <= float_of_uint32 portTICK_PERIOD_MS).
  { rewrite <- (float_of_uint32_exact 1) by lia.
    apply float_of_uint32_mono. lia. }
  set (fP := float_of_uint32 portTICK_PERIOD_MS) in *.
  assert (Hq : 0 < / fP) by (apply Rinv_0_lt_compat; lra).
  assert (Hr : to_float (to_float (to_float (m2 * 60) * 1000) / fP)
               <= to_float (to_float (to_float (m1 * 60) * 1000) / fP)).
  { apply to_float_mono. apply Rmult_le_compat_r; [lra |].
    apply to_float_mono. apply Rmult_le_compat_r; [lra |].
    apply to_float_mono. lra. }
  apply Int_part_mono in Hr. unfold to_uint32 in Ht1, Ht2.
  destruct (_ && _)%bool in Ht1; [| discriminate].
  destruct (_ && _)%bool in Ht2; [| discriminate].
  injection Ht1 as <-. injection Ht2 as <-. exact Hr.
Qed.

Lemma generate_poisson_delay_done (hw : nat -> Z) (P : Z) (s : state) (t : Z) :
  poisson_ticks P (wrap32 (hw (draws s))) = Some t ->
  generate_poisson_delay hw P s = Done t (set_draws (S (draws s)) s).
Proof.
  intros H. unfold generate_poisson_delay, bind, esp_random. rewrite H.
  reflexivity.
Qed.

(** *** Where the rounded delay differs from the exact one *)

Lemma pow2_m42 : powerRZ 2 (-42) = / 4398046511104.
Proof. exact (pow2_neg_IZR 42 ltac:(discriminate)). Qed.

(** A rounded value is an integer multiple of every power of two up to its
    unit in the last place. *)
Lemma round_pos_grid (prec j : Z) (x : R) :
  (j <= binade x - (prec - 1))%Z ->
  exists N, round_pos prec x = IZR N * powerRZ 2 j.
Proof.
  intros Hj. unfold round_pos. set (e := (binade x - (prec - 1))%Z) in *.
  exists (rne (x * powerRZ 2 (- e)) * 2 ^ (e - j))%Z.
  rewrite mult_IZR, <- pow2_IZR by lia.
  rewrite Rmult_assoc, <- pow2_add. do 2 f_equal. lia.
Qed.

Lemma ln_below_one :
  / 16777216 < - ln (16777215 / 16777216) <= / 16777215.
Proof.
  split.
  - assert (H : ln (16777215 / 16777216) < ln (exp (- / 16777216))).
    { apply ln_increasing; [lra |].
      eapply Rle_lt_trans; [| apply exp_ineq1; lra]. lra. }
    rewrite ln_exp in H. lra.
  - assert (H : ln (/ (16777215 / 16777216)) <= ln (exp (/ 16777215))).
    { apply ln_le_compat; [lra |].
      eapply Rle_trans; [| apply exp_ineq1_le]. lra. }
    rewrite ln_exp, ln_Rinv in H by lra. exact H.
Qed.

(** C1, as the code has it: for a draw whose [U] lies in (0,1), the delay
    in minutes is [-mean * ln U] computed in binary floating point.  It is
    defined, lies within one part in [2 ^ 23] of [-mean * ln U], and is
    strictly positive; a larger [U] never gives a longer delay;
    [generate_poisson_delay] uses one draw and returns that delay converted
    to ticks, to within one part in [2 ^ 22] and truncated.  With the mean of
    60 minutes, [U = 0.5] gives between 41.58 and 41.60 minutes. *)
Theorem next_delay_exponential (hw : nat -> Z) (portTICK_PERIOD_MS draw : Z)
        (s : state) :
  (1 <= portTICK_PERIOD_MS <= 1000)%Z ->
  wrap32 (hw (draws s)) = draw ->
  0 < U_of_draw draw < 1 ->
  exists d t,
    delay_minutes (U_of_draw draw) = Some d /\
    (- IZR AVERAGE_DELAY_MINUTES * ln (U_of_draw draw) * (1 - / 8388608) <= d
     <= - IZR AVERAGE_DELAY_MINUTES * ln (U_of_draw draw) * (1 + / 8388608)) /\
    0 < d /\
    (forall U1 U2 d1 d2,
       0 < U1 -> U1 <= U2 ->
       delay_minutes U1 = Some d1 -> delay_minutes U2 = Some d2 -> d2 <= d1) /\
    generate_poisson_delay hw portTICK_PERIOD_MS s
    = Done t (set_draws (S (draws s)) s) /\
    (d * 60 * 1000 / IZR portTICK_PERIOD_MS * (1 - / 4194304) - 1 < IZR t
     <= d * 60 * 1000 / IZR portTICK_PERIOD_MS * (1 + / 4194304)) /\
    (forall h, delay_minutes (1 / 2) = Some h -> 4158 / 100 < h < 4160 / 100).
Proof.
  intros HP Hdraw HU.
  assert (Hrange : (1 <= draw <= UINT32_MAX)%Z).
  { pose proof (wrap32_range (hw (draws s))) as Hw. rewrite Hdraw in Hw.
    destruct (Z.eq_dec draw 0) as [-> | Hne];
      [rewrite U_of_draw_zero in HU; lra |].
    change (2 ^ 32)%Z with (UINT32_MAX + 1)%Z in Hw. lia. }
  destruct (delay_minutes_defined (U_of_draw draw) ltac:(lra)) as [d Hd].
  destruct (poisson_ticks_sound portTICK_PERIOD_MS draw d
              ltac:(lia) Hrange Hd) as (t & Ht & _ & Hacc).
  rewrite float_of_uint32_exact in Hacc by lia.
  exists d, t. split; [exact Hd |]. split.
  { apply delay_minutes_accuracy; [lra | exact Hd]. }
  split; [apply (delay_minutes_positive _ d HU Hd) |].
  split; [apply delay_minutes_mono |].
  split; [apply generate_poisson_delay_done; rewrite Hdraw; exact Ht |].
  split; [exact Hacc | apply delay_minutes_half].
Qed.

Lemma next_delay_exponential_witness :
  exists d t,
    delay_minutes (U_of_draw 2147483648) = Some d /\
    4158 / 100 < d < 4160 / 100 /\
    generate_poisson_delay (fun _ => 2147483648%Z) 10 (boot None)
    = Done t (set_draws 1 (boot None)) /\
    (249479 <= t <= 249600)%Z.
Proof.
  assert (HU : 0 < U_of_draw 2147483648 < 1)
    by (rewrite U_of_draw_half; lra).
  destruct (next_delay_exponential (fun _ => 2147483648%Z) 10 2147483648
              (boot None) ltac:(lia) ltac:(reflexivity) HU)
    as (d & t & Hd & _ & _ & _ & Hg & Ht & Hh).
  exists d, t. rewrite U_of_draw_half in Hd. specialize (Hh d Hd).
  rewrite U_of_draw_half. split; [exact Hd |]. split; [exact Hh |].
  split; [exact Hg |].
  split; [assert (H : (249478 < t)%Z) by (apply lt_IZR; lra); lia
         | assert (H : (t < 249601)%Z) by (apply lt_IZR; lra); lia].
Defined.

(** At the draw [2 ^ 32 - 256], where [U] is the largest [float] below 1,
    the delay the code computes is not [-mean * ln U]: it is a [float], and
    no [float] lies where [-mean * ln U] does. *)
Lemma next_delay_not_exact :
  0 < U_of_draw 4294967040 < 1 /\
  exists d,
    delay_minutes (U_of_draw 4294967040) = Some d /\
    d <> - IZR AVERAGE_DELAY_MINUTES * ln (U_of_draw 4294967040).
Proof.
  rewrite U_of_draw_below_one. split; [lra |].
  destruct ln_below_one as [Hlo Hhi].
  set (L := - ln (16777215 / 16777216)) in *.
  rewrite delay_minutes_value by lra. fold L.
  eexists. split; [reflexivity |]. unfold AVERAGE_DELAY_MINUTES.
  assert (H1 : / 16777216 <= to_double L).
  { rewrite <- pow2_m24. unfold to_double.
    rewrite <- (round_pow2 DBL_MANT_DIG (-24)) at 1 by discriminate.
    apply round_mono; [discriminate |]. rewrite pow2_m24. lra. }
  set (r1 := to_double L) in *.
  assert (H2 : / 524288 <= to_double (60 * r1)).
  { rewrite <- pow2_m19. unfold to_double.
    rewrite <- (round_pow2 DBL_MANT_DIG (-19)) at 1 by discriminate.
    apply round_mono; [discriminate |]. rewrite pow2_m19. lra. }
  set (x := to_double (60 * r1)) in *.
  assert (Hx : 0 < x) by lra.
  assert (HE : (-19 <= binade x)%Z).
  { rewrite <- (binade_pow2 (-19)). apply binade_mono; [apply pow2_pos |].
    rewrite pow2_m19. exact H2. }
  unfold to_float. rewrite round_of_pos by exact Hx.
  destruct (round_pos_grid FLT_MANT_DIG (-42) x) as [N HN].
  { unfold FLT_MANT_DIG. lia. }
  rewrite HN, pow2_m42. intros Heq.
  assert (HL : ln (16777215 / 16777216) = - L) by (unfold L; ring).
  rewrite HL in Heq. clearbody L r1 x.
  assert (Ha : (15728640 < N)%Z) by (apply lt_IZR; lra).
  assert (Hb : (N < 15728641)%Z) by (apply lt_IZR; lra).
  lia.
Qed.

(** C2 at the draw 0: [U] is 0, outside (0,1); the logarithm has no finite
    value there, so neither the delay in minutes nor the tick count returned
    by [generate_poisson_delay] is defined.  At the largest draw [U] is 1. *)
Theorem zero_draw_is_undefined (portTICK_PERIOD_MS : Z) (s : state) :
  U_of_draw 0 = 0 /\
  delay_minutes (U_of_draw 0) = None /\
  poisson_ticks portTICK_PERIOD_MS 0 = None /\
  generate_poisson_delay (fun _ => 0%Z) portTICK_PERIOD_MS s = Undefined /\
  U_of_draw UINT32_MAX = 1.
Proof.
  assert (Hd : delay_minutes (U_of_draw 0) = None).
  { unfold delay_minutes. rewrite log_pole; [reflexivity |].
    rewrite U_of_draw_zero. lra. }
  assert (Ht : poisson_ticks portTICK_PERIOD_MS 0 = None).
  { unfold poisson_ticks. rewrite Hd. reflexivity. }
  split; [apply U_of_draw_zero |]. split; [exact Hd |]. split; [exact Ht |].
  split; [| apply U_of_draw_max].
  unfold generate_poisson_delay, bind, esp_random.
  change (wrap32 0) with 0%Z. rewrite Ht. reflexivity.
Qed.

Local Close Scope R_scope.

(** ** Reasoning in the monad *)

Lemma bind_done {A B} (m : M A) (k : A -> M B) (s s' : state) (b : B) :
  bind m k s = Done b s' ->
  exists a s1, m s = Done a s1 /\ k a s1 = Done b s'.
Proof.
  unfold bind. destruct (m s) as [a s1 | | |]; try discriminate.
  intros H. exists a, s1. split; [reflexivity | exact H].
Qed.

Lemma bind_reboot {A B} (m : M A) (k : A -> M B) (s s' : state) :
  bind m k s = Reboot s' ->
  m s = Reboot s' \/ exists a s1, m s = Done a s1 /\ k a s1 = Reboot s'.
Proof.
  unfold bind. destruct (m s) as [a s1 | s1 | |]; try discriminate.
  - intros H. right. exists a, s1. split; [reflexivity | exact H].
  - intros H. left. injection H as ->. reflexivity.
Qed.

Lemma bind_of_done {A B} (m : M A) (k : A -> M B) (s s1 : state) (a : A) :
  m s = Done a s1 -> bind m k s = k a s1.
Proof. unfold bind. intros ->. reflexivity. Qed.

(** ** Delivery Session *)

Lemma mqtt_event_handler_error (publish_result : Z) (s : state) :
  mqtt_event_handler MQTT_EVENT_ERROR publish_result s
  = Reboot (record_call esp_restart s).
Proof. reflexivity. Qed.

Lemma mqtt_event_handler_connected (publish_result : Z) (s : state) :
  mqtt_event_handler MQTT_EVENT_CONNECTED publish_result s
  = Done tt
      (let s1 := record_call
                   (esp_mqtt_client_publish (client s) MQTT_TOPIC
                                            (json_payload s) 0 1 0) s in
       if publish_result <? 0 then set_flag true s1 else s1).
Proof.
  unfold mqtt_event_handler. cbn [Z.eqb MQTT_EVENT_CONNECTED Pos.eqb].
  run_monad. destruct (publish_result <? 0); reflexivity.
Qed.

(** Any event but the protocol error lets the handler return; the handle and
    the payload are untouched, and the flag is raised exactly by the settling
    events. *)
Lemma mqtt_event_handler_returns (event_id publish_result : Z) (s : state) :
  event_id <> MQTT_EVENT_ERROR ->
  exists s',
    mqtt_event_handler event_id publish_result s = Done tt s' /\
    client s' = client s /\ json_payload s' = json_payload s /\
    entropy64 s' = entropy64 s /\
    (MQTT_DISCONNECT_FLAG s' = true <->
     MQTT_DISCONNECT_FLAG s = true \/ settles (event_id, publish_result)).
Proof.
  intros Hne. unfold mqtt_event_handler, settles. cbn [fst snd].
  destruct (Z.eqb_spec event_id MQTT_EVENT_CONNECTED) as [Hc | Hc].
  - run_monad. destruct (Z.ltb_spec publish_result 0) as [Hlt | Hge];
      eexists; (split; [reflexivity |]); cbn; intuition (mqtt_ids; try lia; try congruence).
  - destruct (Z.eqb_spec event_id MQTT_EVENT_PUBLISHED) as [Hp | Hp].
    + run_monad. eexists; (split; [reflexivity |]); cbn; intuition (mqtt_ids; try lia; try congruence).
    + destruct (Z.eqb_spec event_id MQTT_EVENT_DISCONNECTED) as [Hd | Hd].
      * run_monad. eexists; (split; [reflexivity |]); cbn; intuition (mqtt_ids; try lia; try congruence).
      * destruct (Z.eqb_spec event_id MQTT_EVENT_ERROR) as [He | He];
          [contradiction |].
        run_monad. eexists; (split; [reflexivity |]); cbn; intuition (mqtt_ids; try lia; try congruence).
Qed.

Lemma mqtt_event_handler_reboot_iff (event_id publish_result : Z) (s : state) :
  (exists s', mqtt_event_handler event_id publish_result s = Reboot s')
  <-> event_id = MQTT_EVENT_ERROR.
Proof.
  split.
  - intros [s' H]. destruct (Z.eq_dec event_id MQTT_EVENT_ERROR) as [| Hne];
      [assumption |].
    destruct (mqtt_event_handler_returns event_id publish_result s Hne)
      as (s1 & Hs1 & _). congruence.
  - intros ->. eexists. apply mqtt_event_handler_error.
Qed.

(** Delivering a batch of events: it ends in a restart exactly when the batch
    holds a protocol error; otherwise every connected event has caused one
    publish of the payload, and the flag is raised exactly by the settling
    events. *)
Lemma deliver_cases (d : list (Z * Z)) :
  forall s,
    (Exists is_error d /\ exists s', deliver d s = Reboot s') \/
    (~ Exists is_error d /\
     exists s',
       deliver d s = Done tt s' /\
       client s' = client s /\ json_payload s' = json_payload s /\
       (MQTT_DISCONNECT_FLAG s' = true <->
        MQTT_DISCONNECT_FLAG s = true \/ Exists settles d) /\
       calls s' =
       (calls s ++ map (fun _ => esp_mqtt_client_publish (client s) MQTT_TOPIC
                                   (json_payload s) 0 1 0)
                       (filter is_connected d))%list).
Proof.
  induction d as [| [event_id publish_result] d IH]; intros s.
  - right. split; [intros H; inversion H |].
    exists s. cbn [deliver filter map]. unfold ret. rewrite app_nil_r.
    repeat split; auto. intros [H | H]; [assumption | inversion H].
  - cbn [deliver].
    destruct (Z.eq_dec event_id MQTT_EVENT_ERROR) as [He | Hne].
    + left. split; [apply Exists_cons_hd; exact He |].
      subst event_id. eexists. unfold bind.
      rewrite mqtt_event_handler_error. reflexivity.
    + assert (Hcalls : exists s1,
                 mqtt_event_handler event_id publish_result s = Done tt s1 /\
                 client s1 = client s /\ json_payload s1 = json_payload s /\
                 (MQTT_DISCONNECT_FLAG s1 = true <->
                  MQTT_DISCONNECT_FLAG s = true \/
                  settles (event_id, publish_result)) /\
                 calls s1 =
                 (calls s ++
                  (if is_connected (event_id, publish_result)
                   then [esp_mqtt_client_publish (client s) MQTT_TOPIC
                           (json_payload s) 0 1 0]
                   else []))%list).
      { destruct (mqtt_event_handler_returns event_id publish_result s Hne)
          as (s1 & Hs1 & Hc & Hp & _ & Hf).
        exists s1. repeat split; try assumption; try apply Hf.
        unfold is_connected. cbn [fst].
        destruct (Z.eqb_spec event_id MQTT_EVENT_CONNECTED) as [-> | Hnc].
        - rewrite mqtt_event_handler_connected in Hs1.
          injection Hs1 as <-. destruct (publish_result <? 0); reflexivity.
        - revert Hs1. unfold mqtt_event_handler.
          destruct (Z.eqb_spec event_id MQTT_EVENT_CONNECTED); [contradiction |].
          destruct (event_id =? MQTT_EVENT_PUBLISHED);
            [| destruct (event_id =? MQTT_EVENT_DISCONNECTED);
               [| destruct (event_id =? MQTT_EVENT_ERROR)]];
            run_monad; intros Hs1; try discriminate;
            injection Hs1 as <-; cbn; rewrite app_nil_r; reflexivity. }
      destruct Hcalls as (s1 & Hs1 & Hc & Hp & Hf & Hk).
      rewrite (bind_of_done _ _ _ _ _ Hs1).
      destruct (IH s1) as [[Hex [s' Hs']] | [Hnex (s' & Hs' & Hc' & Hp' & Hf' & Hk')]].
      * left. split; [apply Exists_cons_tl; exact Hex | exists s'; exact Hs'].
      * right. split.
        { intros H. inversion H; subst; [contradiction | contradiction]. }
        exists s'. split; [exact Hs' |].
        split; [congruence |]. split; [congruence |]. split.
        { rewrite Hf', Hf. rewrite Exists_cons. tauto. }
        rewrite Hk', Hk, Hc, Hp. cbn [filter].
        destruct (is_connected (event_id, publish_result));
          cbn [map]; rewrite <- app_assoc; reflexivity.
Qed.

Lemma poll_cons (P : Z) (d : list (Z * Z)) (ds : list (list (Z * Z))) (s : state) :
  poll P (d :: ds) s =
  match deliver d (record_call (vTaskDelay (1000 / P)) s) with
  | Done _ s1 =>
      if MQTT_DISCONNECT_FLAG s1 then Done tt (torn_down s1) else poll P ds s1
  | Reboot s1 => Reboot s1
  | Blocked s1 => Blocked s1
  | Undefined => Undefined
  end.
Proof.
  cbn [poll]. run_monad.
  destruct (deliver d (record_call (vTaskDelay (1000 / P)) s)) as [[] s1 | | |];
    try reflexivity.
  destruct (MQTT_DISCONNECT_FLAG s1); reflexivity.
Qed.

(** When the loop returns, the flag was seen raised, the handle has been
    stopped and destroyed, and the flag is lowered again. *)
Lemma poll_done (P : Z) (ds : list (list (Z * Z))) :
  forall s s',
    poll P ds s = Done tt s' ->
    exists s1, MQTT_DISCONNECT_FLAG s1 = true /\ s' = torn_down s1.
Proof.
  induction ds as [| d ds IH]; intros s s' H.
  - discriminate H.
  - rewrite poll_cons in H.
    destruct (deliver d _) as [[] s1 | | |]; try discriminate.
    destruct (MQTT_DISCONNECT_FLAG s1) eqn:Hf.
    + injection H as <-. exists s1. split; [exact Hf | reflexivity].
    + apply (IH _ _ H).
Qed.

(** The loop can only return after a settling event of this session, when it
    is entered with the flag lowered. *)
Lemma poll_done_settled (P : Z) (ds : list (list (Z * Z))) :
  forall s s',
    MQTT_DISCONNECT_FLAG s = false ->
    poll P ds s = Done tt s' ->
    Exists settles (List.concat ds).
Proof.
  induction ds as [| d ds IH]; intros s s' Hflag H.
  - discriminate H.
  - rewrite poll_cons in H. cbn [List.concat]. rewrite Exists_app.
    destruct (deliver_cases d (record_call (vTaskDelay (1000 / P)) s))
      as [[_ [s1 Hs1]] | [_ (s1 & Hs1 & _ & _ & Hf & _)]];
      rewrite Hs1 in H; [discriminate |].
    destruct (MQTT_DISCONNECT_FLAG s1) eqn:Hf1.
    + left. destruct Hf as [Hf _]. destruct (Hf eq_refl) as [Hc | Hc];
        [| exact Hc]. cbn in Hc. congruence.
    + right. apply (IH _ _ Hf1 H).
Qed.

Lemma poll_reboot (P : Z) (ds : list (list (Z * Z))) :
  forall s s', poll P ds s = Reboot s' -> Exists is_error (List.concat ds).
Proof.
  induction ds as [| d ds IH]; intros s s' H.
  - discriminate H.
  - rewrite poll_cons in H. cbn [List.concat]. rewrite Exists_app.
    destruct (deliver_cases d (record_call (vTaskDelay (1000 / P)) s))
      as [[He _] | [_ (s1 & Hs1 & _)]]; [left; exact He |].
    rewrite Hs1 in H. destruct (MQTT_DISCONNECT_FLAG s1); [discriminate |].
    right. apply (IH _ _ H).
Qed.

Lemma send_data_split (P v : Z) (e : mqtt_session) (s : state) :
  send_data P v e s =
  bind (session_start e)
       (fun entered => if entered then poll P (deliveries e) else ret tt) s.
Proof.
  unfold send_data, session_start. run_monad. cbn [client set_client].
  destruct (init_result e); [| reflexivity].
  destruct (start_result e =? ESP_OK); reflexivity.
Qed.

(** Opening a session touches neither the flag nor the payload. *)
Lemma session_start_done (e : mqtt_session) (s : state) :
  exists entered s1,
    session_start e s = Done entered s1 /\
    MQTT_DISCONNECT_FLAG s1 = MQTT_DISCONNECT_FLAG s /\
    json_payload s1 = json_payload s /\
    client s1 = init_result e /\
    (entered = true <->
     init_result e <> None /\ start_result e = ESP_OK).
Proof.
  unfold session_start. run_monad. cbn [client set_client].
  destruct (init_result e) as [h |] eqn:Hi.
  - eexists _, _. split; [reflexivity |]. cbn.
    repeat split; try congruence; try (apply Z.eqb_eq; assumption).
    intros [_ H]. apply Z.eqb_eq. exact H.
  - eexists _, _. split; [reflexivity |]. cbn.
    repeat split; try congruence; intros []; congruence.
Qed.

Lemma cycle_split (hw : nat -> Z) (P : Z) (e : mqtt_session) (s : state) :
  report_cycle hw P e s =
  bind (cycle_to_wait hw P e)
       (fun entered => if entered then poll P (deliveries e) else ret tt) s.
Proof.
  unfold report_cycle, cycle_to_wait.
  unfold bind, do_call, modify, get.
  destruct (generate_poisson_delay hw P s) as [d s1 | | |]; try reflexivity.
  destruct (harvest hw _) as [[] s2 | | |]; try reflexivity.
  rewrite send_data_split. unfold bind. reflexivity.
Qed.

(** The part of a cycle before the session is opened returns or is
    undefined; it never touches the flag. *)
Lemma cycle_to_wait_cases (hw : nat -> Z) (P : Z) (e : mqtt_session) (s : state) :
  cycle_to_wait hw P e s = Undefined \/
  exists entered s1,
    cycle_to_wait hw P e s = Done entered s1 /\
    MQTT_DISCONNECT_FLAG s1 = MQTT_DISCONNECT_FLAG s /\
    0 <= entropy64 s1 < 2 ^ 64 /\
    json_payload s1 = encode_payload (entropy64 s1) /\
    client s1 = init_result e.
Proof.
  unfold cycle_to_wait, generate_poisson_delay, esp_random.
  unfold bind, do_call, modify, ret, undefined.
  destruct (poisson_ticks P _) as [d |]; [| left; reflexivity].
  right.
  match goal with
  | |- context [harvest hw ?s0] =>
      destruct (harvest_done hw s0) as (s2 & Hh & _ & He & Hp & Hf & _);
      rewrite Hh;
      assert (Hr : 0 <= entropy64 s2 < 2 ^ 64)
        by (rewrite He; apply compose64_range; apply wrap32_range)
  end.
  cbn [MQTT_DISCONNECT_FLAG record_call set_draws] in Hf.
  destruct (session_start_done e s2) as (entered & s3 & Hs & Hf3 & Hp3 & Hc3 & _).
  exists entered, s3. split; [exact Hs |]. split; [congruence |].
  cut ((0 <= entropy64 s3 < 2 ^ 64) /\
       json_payload s3 = encode_payload (entropy64 s3));
    [intros [? ?]; auto |].
  assert (Hent : entropy64 s3 = entropy64 s2).
  { revert Hs. unfold session_start. run_monad.
    cbn [client set_client]. destruct (init_result e);
      intros Hs; injection Hs as _ <-; reflexivity. }
  rewrite Hp3, Hent. split; assumption.
Qed.

Lemma deliver_reboot_iff (d : list (Z * Z)) (s : state) :
  (exists s', deliver d s = Reboot s') <-> Exists is_error d.
Proof.
  destruct (deliver_cases d s) as [[He Hr] | [Hne (s1 & Hs1 & _)]].
  - tauto.
  - split; [intros [s' H]; congruence | contradiction].
Qed.

Lemma poll_error (P : Z) (d : list (Z * Z)) (rest : list (list (Z * Z)))
      (s : state) :
  Exists is_error d -> exists s', poll P (d :: rest) s = Reboot s'.
Proof.
  intros He. rewrite poll_cons.
  apply (deliver_reboot_iff d (record_call (vTaskDelay (1000 / P)) s)) in He.
  destruct He as [s' ->]. exists s'. reflexivity.
Qed.

Lemma send_data_reboot (P v : Z) (e : mqtt_session) (s s' : state) :
  send_data P v e s = Reboot s' ->
  Exists is_error (List.concat (deliveries e)).
Proof.
  rewrite send_data_split.
  destruct (session_start_done e s) as (entered & s1 & Hs & _).
  rewrite (bind_of_done _ _ _ _ _ Hs).
  destruct entered; [apply poll_reboot | discriminate].
Qed.

Lemma report_cycle_reboot (hw : nat -> Z) (P : Z) (e : mqtt_session)
      (s s' : state) :
  report_cycle hw P e s = Reboot s' ->
  Exists is_error (List.concat (deliveries e)).
Proof.
  rewrite cycle_split.
  destruct (cycle_to_wait_cases hw P e s) as [Hu | (entered & s1 & Hs & _)].
  - unfold bind. rewrite Hu. discriminate.
  - rewrite (bind_of_done _ _ _ _ _ Hs).
    destruct entered; [apply poll_reboot | discriminate].
Qed.

Lemma report_entropy_reboot (hw : nat -> Z) (P : Z) (es : list mqtt_session) :
  forall s s',
    report_entropy hw P es s = Reboot s' ->
    exists e, In e es /\ Exists is_error (List.concat (deliveries e)).
Proof.
  induction es as [| e es IH]; intros s s' H.
  - discriminate H.
  - cbn [report_entropy] in H. apply bind_reboot in H.
    destruct H as [H | ([] & s1 & _ & H)].
    + exists e. split; [left; reflexivity | apply (report_cycle_reboot _ _ _ _ _ H)].
    + destruct (IH _ _ H) as (e' & Hin & He).
      exists e'. split; [right; exact Hin | exact He].
Qed.

(** *** What is published *)




(** *** The flag across cycles *)

Lemma torn_down_flag (s : state) : MQTT_DISCONNECT_FLAG (torn_down s) = false.
Proof. reflexivity. Qed.

Lemma send_data_keeps_flag_low (P v : Z) (e : mqtt_session) (s s' : state) :
  MQTT_DISCONNECT_FLAG s = false ->
  send_data P v e s = Done tt s' ->
  MQTT_DISCONNECT_FLAG s' = false.
Proof.
  intros Hf. rewrite send_data_split.
  destruct (session_start_done e s) as (entered & s1 & Hs & Hf1 & _).
  rewrite (bind_of_done _ _ _ _ _ Hs). destruct entered.
  - intros H. apply poll_done in H. destruct H as (s2 & _ & ->).
    apply torn_down_flag.
  - intros H. injection H as <-. congruence.
Qed.

Lemma report_cycle_keeps_flag_low (hw : nat -> Z) (P : Z) (e : mqtt_session)
      (s s' : state) :
  MQTT_DISCONNECT_FLAG s = false ->
  report_cycle hw P e s = Done tt s' ->
  MQTT_DISCONNECT_FLAG s' = false.
Proof.
  intros Hf. rewrite cycle_split.
  destruct (cycle_to_wait_cases hw P e s) as [Hu | (entered & s1 & Hs & Hf1 & _)].
  - unfold bind. rewrite Hu. discriminate.
  - rewrite (bind_of_done _ _ _ _ _ Hs). destruct entered.
    + intros H. apply poll_done in H. destruct H as (s2 & _ & ->).
      apply torn_down_flag.
    + intros H. injection H as <-. congruence.
Qed.

Lemma report_entropy_keeps_flag_low (hw : nat -> Z) (P : Z)
      (es : list mqtt_session) :
  forall s s',
    MQTT_DISCONNECT_FLAG s = false ->
    report_entropy hw P es s = Done tt s' ->
    MQTT_DISCONNECT_FLAG s' = false.
Proof.
  induction es as [| e es IH]; intros s s' Hf H.
  - injection H as <-. exact Hf.
  - cbn [report_entropy] in H. apply bind_done in H.
    destruct H as ([] & s1 & Hc & H).
    apply (IH s1 s'); [| exact H].
    apply (report_cycle_keeps_flag_low hw P e s s1 Hf Hc).
Qed.

(** C10: [MQTT_DISCONNECT_FLAG] starts false; whenever [send_data] returns
    (from its polling loop, where it lowers the flag, or early, where the flag
    was never raised) the flag is false; hence after any number of completed
    cycles the next cycle enters its polling loop with the flag false, and a
    polling loop entered with the flag false returns only after a settling
    event of its own session. *)
Theorem disconnect_flag_low_at_wait (hw_random : nat -> Z)
        (portTICK_PERIOD_MS : Z) :
  (forall stored, MQTT_DISCONNECT_FLAG (boot stored) = false) /\
  (forall ds s s',
     poll portTICK_PERIOD_MS ds s = Done tt s' ->
     MQTT_DISCONNECT_FLAG s' = false) /\
  (forall v e s s',
     MQTT_DISCONNECT_FLAG s = false ->
     send_data portTICK_PERIOD_MS v e s = Done tt s' ->
     MQTT_DISCONNECT_FLAG s' = false) /\
  (forall es e s sk s1,
     MQTT_DISCONNECT_FLAG s = false ->
     report_entropy hw_random portTICK_PERIOD_MS es s = Done tt sk ->
     cycle_to_wait hw_random portTICK_PERIOD_MS e sk = Done true s1 ->
     MQTT_DISCONNECT_FLAG s1 = false) /\
  (forall ds s s',
     MQTT_DISCONNECT_FLAG s = false ->
     poll portTICK_PERIOD_MS ds s = Done tt s' ->
     Exists settles (List.concat ds)).
Proof.
  split; [reflexivity |]. split; [| split; [| split]].
  - intros ds s s' H. apply poll_done in H. destruct H as (s1 & _ & ->).
    apply torn_down_flag.
  - intros v e s s'. apply send_data_keeps_flag_low.
  - intros es e s sk s1 Hf Hrun Hwait.
    pose proof (report_entropy_keeps_flag_low _ _ _ _ _ Hf Hrun) as Hk.
    destruct (cycle_to_wait_cases hw_random portTICK_PERIOD_MS e sk)
      as [Hu | (entered & s2 & Hs & Hf2 & _)]; [congruence |].
    rewrite Hs in Hwait. injection Hwait as _ <-. congruence.
  - intros ds s s'. apply poll_done_settled.
Qed.







(** ** Connectivity Manager *)

Lemma bit1_lor_connected (g : Z) :
  Z.testbit (Z.lor g CONNECTED_BIT) 1 = Z.testbit g 1.
Proof. rewrite Z.lor_spec. cbn. apply orb_false_r. Qed.

Lemma bit1_ldiff_connected (g : Z) :
  Z.testbit (Z.ldiff g CONNECTED_BIT) 1 = Z.testbit g 1.
Proof. rewrite Z.ldiff_spec. cbn. apply andb_true_r. Qed.

Lemma bit0_ldiff_connected (g : Z) :
  Z.testbit (Z.ldiff g CONNECTED_BIT) 0 = false.
Proof. rewrite Z.ldiff_spec. cbn. apply andb_false_r. Qed.

(** What one call of [event_handler] can do: it returns (or dereferences a
    missing event payload); it adds at most one task, and only of a name
    that was absent; it never stops the capture; and only the
    capture-acknowledged event raises [ESPTOUCH_DONE_BIT]. *)
Lemma event_handler_shape (cfg created : bool) (event_base : esp_event_base_t)
      (event_id : Z) (event_data : option got_ssid_pswd) (s : state) :
  event_handler cfg created event_base event_id event_data s = Undefined \/
  exists s',
    event_handler cfg created event_base event_id event_data s = Done tt s' /\
    (tasks s' = tasks s \/
     exists name entry,
       tasks s' = (tasks s ++ [mk_task name entry])%list /\
       existsb (task_named name) (tasks s) = false) /\
    (exists l, calls s' = (calls s ++ l)%list /\
               ~ In esp_smartconfig_stop l /\ ~ In vTaskDelete l) /\
    (Z.testbit (s_wifi_event_group s') 1 = true ->
     Z.testbit (s_wifi_event_group s) 1 = true \/
     is_ack (Event created event_base event_id event_data)) /\
    MQTT_DISCONNECT_FLAG s' = MQTT_DISCONNECT_FLAG s.
Proof.
  unfold event_handler, start_smartconfig, spawn, xTaskGetHandle,
    xEventGroupSetBits, xEventGroupClearBits.
  destruct event_base; cbn [base_eqb andb];
    repeat match goal with
           | |- context [?x =? ?c] => destruct (Z.eqb_spec x c)
           end.
  all: run_monad.
  all: split_ifs.
  all: try (left; reflexivity).
  all: right; eexists; (split; [reflexivity |]).
  all: cbn [tasks calls s_wifi_event_group MQTT_DISCONNECT_FLAG record_call
            set_tasks set_event_group set_sta_config is_ack].
  all: rewrite ?bit1_lor_connected, ?bit1_ldiff_connected.
  all: split;
    [ first [ left; reflexivity
            | right; eexists _, _; split; [reflexivity |];
              match goal with
              | H : negb ?b = true |- ?b = false =>
                  apply negb_true_iff in H; exact H
              end ] |].
  all: split;
    [ first [ exists []; rewrite app_nil_r; split; [reflexivity | split; intros []]
            | eexists; split;
              [ rewrite <- ?app_assoc; reflexivity
              | cbn [In app]; split; intros H;
                repeat (destruct H as [H | H]; try discriminate H); exact H ] ] |].
  all: split; [| reflexivity].
  all: try (intros H; left; exact H).
  all: intros _; right; assumption.
Qed.

(** ** Provisioning Listener *)

Lemma land_connected_bit (g : Z) :
  Z.land g CONNECTED_BIT = if Z.testbit g 0 then 1 else 0.
Proof.
  apply Z.bits_inj'. intros n Hn. rewrite Z.land_spec.
  change CONNECTED_BIT with (2 ^ 0). rewrite Z.pow2_bits_eqb by lia.
  destruct (Z.eqb_spec 0 n) as [<- | Hne].
  - rewrite andb_true_r. destruct (Z.testbit g 0); reflexivity.
  - rewrite andb_false_r. destruct (Z.testbit g 0).
    + change 1 with (2 ^ 0). rewrite Z.pow2_bits_eqb by lia.
      symmetry. apply Z.eqb_neq. exact Hne.
    + rewrite Z.bits_0. reflexivity.
Qed.

Lemma land_done_bit (g : Z) :
  Z.land g ESPTOUCH_DONE_BIT = if Z.testbit g 1 then 2 else 0.
Proof.
  apply Z.bits_inj'. intros n Hn. rewrite Z.land_spec.
  change ESPTOUCH_DONE_BIT with (2 ^ 1). rewrite Z.pow2_bits_eqb by lia.
  destruct (Z.eqb_spec 1 n) as [<- | Hne].
  - rewrite andb_true_r. destruct (Z.testbit g 1); reflexivity.
  - rewrite andb_false_r. destruct (Z.testbit g 1).
    + change 2 with (2 ^ 1). rewrite Z.pow2_bits_eqb by lia.
      symmetry. apply Z.eqb_neq. exact Hne.
    + rewrite Z.bits_0. reflexivity.
Qed.

Lemma land_both_bits (g : Z) :
  (Z.land g (Z.lor CONNECTED_BIT ESPTOUCH_DONE_BIT) =? 0)
  = negb (Z.testbit g 0) && negb (Z.testbit g 1).
Proof.
  rewrite Z.land_lor_distr_r. rewrite land_connected_bit. rewrite land_done_bit.
  destruct (Z.testbit g 0), (Z.testbit g 1); reflexivity.
Qed.

Lemma bit1_ldiff_both (g : Z) :
  Z.testbit (Z.ldiff g (Z.lor CONNECTED_BIT ESPTOUCH_DONE_BIT)) 1 = false.
Proof. rewrite Z.ldiff_spec. cbn. apply andb_false_r. Qed.

Lemma bit0_ldiff_both (g : Z) :
  Z.testbit (Z.ldiff g (Z.lor CONNECTED_BIT ESPTOUCH_DONE_BIT)) 0 = false.
Proof. rewrite Z.ldiff_spec. cbn. apply andb_false_r. Qed.

(** One scheduling of the listener blocked in its wait, by the two flags. *)
Lemma smartconfig_task_waiting (i : nat) (s : state) :
  let g := s_wifi_event_group s in
  let cleared :=
    set_event_group (Z.ldiff g (Z.lor CONNECTED_BIT ESPTOUCH_DONE_BIT)) s in
  smartconfig_task i sc_waiting s =
  if Z.testbit g 1 then
    Done tt (set_tasks (remove_nth i (tasks s))
               (record_call vTaskDelete
                  (record_call esp_smartconfig_stop cleared)))
  else if Z.testbit g 0 then Done tt cleared
  else Blocked s.
Proof.
  intros g cleared. unfold smartconfig_task, xEventGroupWaitBits, bind,
    wait_condition. fold g. rewrite land_both_bits.
  destruct (Z.testbit g 0) eqn:H0, (Z.testbit g 1) eqn:H1;
    cbn [negb andb]; rewrite ?land_done_bit, ?H1; reflexivity.
Qed.

(** ** The task registry *)

Lemma filter_none {A} (f : A -> bool) (l : list A) :
  existsb f l = false -> filter f l = [].
Proof.
  induction l as [| x l IH]; cbn [existsb filter]; [reflexivity |].
  intros H. apply orb_false_iff in H. destruct H as [Hx Hl].
  rewrite Hx. apply IH. exact Hl.
Qed.

Lemma filter_tl_le {A} (f : A -> bool) (l : list A) :
  (List.length (filter f (tl l)) <= List.length (filter f l))%nat.
Proof.
  destruct l as [| x l]; cbn [tl filter]; [lia |].
  destruct (f x); cbn [List.length]; lia.
Qed.

Lemma skipn_S_tl {A} (i : nat) (l : list A) : skipn (S i) l = tl (skipn i l).
Proof.
  revert l. induction i as [| i IH]; intros [| x l]; try reflexivity.
  cbn [skipn]. destruct l; [destruct i; reflexivity | apply (IH (a :: l))].
Qed.

Lemma filter_remove_nth_le (f : task -> bool) (i : nat) (l : list task) :
  (List.length (filter f (remove_nth i l)) <= List.length (filter f l))%nat.
Proof.
  unfold remove_nth. rewrite <- (firstn_skipn i l) at 3.
  rewrite !filter_app, !length_app, skipn_S_tl.
  pose proof (filter_tl_le f (skipn i l)). lia.
Qed.

Lemma filter_move_nth (name : string) (i : nat) (loc : location) (l : list task) :
  filter (task_named name) (move_nth i loc l) = filter (task_named name) l
  \/ List.length (filter (task_named name) (move_nth i loc l))
     = List.length (filter (task_named name) l).
Proof.
  unfold move_nth. destruct (nth_error l i) as [t |] eqn:Hn; [| left; reflexivity].
  right. apply nth_error_split in Hn. destruct Hn as (l1 & l2 & -> & <-).
  rewrite firstn_app, firstn_all, Nat.sub_diag, firstn_O, app_nil_r.
  replace (skipn (S (List.length l1)) (l1 ++ t :: l2)) with l2.
  - rewrite !filter_app, !length_app. cbn [filter].
    replace (task_named name (mk_task (pcTaskName t) loc))
      with (task_named name t) by reflexivity.
    destruct (task_named name t); reflexivity.
  - rewrite skipn_app, skipn_all2 by lia.
    replace (S (List.length l1) - List.length l1)%nat with 1%nat by lia.
    reflexivity.
Qed.

Lemma instances_spawned (name name' : string) (entry : location) (s s' : state) :
  tasks s' = (tasks s ++ [mk_task name entry])%list ->
  existsb (task_named name) (tasks s) = false ->
  (instances name' s <= 1)%nat -> (instances name' s' <= 1)%nat.
Proof.
  intros Ht Hex Hle. unfold instances in *. rewrite Ht, filter_app, length_app.
  cbn [filter]. unfold task_named at 2. cbn [pcTaskName].
  destruct (String.eqb_spec name name') as [<- | Hne]; cbn [List.length].
  - rewrite (filter_none _ _ Hex). cbn [List.length]. lia.
  - lia.
Qed.

(** ** Steps and runs of the connectivity model *)

Lemma listener_exited_app (s s' : state) (l : list call) :
  calls s' = (calls s ++ l)%list ->
  ~ In esp_smartconfig_stop l -> ~ In vTaskDelete l ->
  listener_exited s' -> listener_exited s.
Proof.
  unfold listener_exited. intros -> Hs Hd [H | H];
    apply in_app_or in H; destruct H as [H | H]; auto; contradiction.
Qed.

Lemma smartconfig_task_shape (i : nat) (loc : location) (s : state) :
  exists s',
    (smartconfig_task i loc s = Done tt s' \/
     smartconfig_task i loc s = Blocked s') /\
    (forall name, (instances name s' <= instances name s)%nat) /\
    (listener_exited s' ->
     listener_exited s \/ Z.testbit (s_wifi_event_group s) 1 = true) /\
    (Z.testbit (s_wifi_event_group s') 1 = true ->
     Z.testbit (s_wifi_event_group s) 1 = true) /\
    MQTT_DISCONNECT_FLAG s' = MQTT_DISCONNECT_FLAG s.
Proof.
  destruct loc.
  - eexists. split; [left; reflexivity |].
    split; [| split; [| split; [auto | reflexivity]]].
    + intros name. unfold instances. cbn [tasks set_tasks record_call].
      destruct (filter_move_nth name i sc_waiting (tasks s)) as [-> | ->]; lia.
    + intros H. left. revert H.
      apply (listener_exited_app s _
               [esp_smartconfig_set_type SC_TYPE_ESPTOUCH; esp_smartconfig_start]).
      * cbn [calls set_tasks record_call]. rewrite <- app_assoc. reflexivity.
      * cbn [In]. intuition discriminate.
      * cbn [In]. intuition discriminate.
  - rewrite smartconfig_task_waiting.
    destruct (Z.testbit (s_wifi_event_group s) 1) eqn:H1;
      [| destruct (Z.testbit (s_wifi_event_group s) 0) eqn:H0].
    + eexists. split; [left; reflexivity |].
      cbn [s_wifi_event_group MQTT_DISCONNECT_FLAG record_call
           set_tasks set_event_group].
      split; [| split; [auto | split; [auto | reflexivity]]].
      intros name. unfold instances.
      cbn [tasks set_tasks record_call set_event_group].
      apply filter_remove_nth_le.
    + eexists. split; [left; reflexivity |].
      cbn [s_wifi_event_group MQTT_DISCONNECT_FLAG set_event_group].
      rewrite bit1_ldiff_both.
      split; [intros name; unfold instances; cbn [tasks set_event_group]; lia |].
      split; [intros H; left; exact H | split; [discriminate | reflexivity]].
    + exists s. split; [right; reflexivity |].
      split; [intros name; lia | intuition congruence].
  - exists s. split; [left; reflexivity |].
    split; [intros name; lia | auto].
Qed.

Lemma step_shape (cfg : bool) (a : action) (s : state) :
  step cfg a s = Undefined \/
  exists s',
    (step cfg a s = Done tt s' \/ step cfg a s = Blocked s') /\
    (forall name, (instances name s <= 1)%nat -> (instances name s' <= 1)%nat) /\
    (listener_exited s' ->
     listener_exited s \/ Z.testbit (s_wifi_event_group s) 1 = true) /\
    (Z.testbit (s_wifi_event_group s') 1 = true ->
     Z.testbit (s_wifi_event_group s) 1 = true \/ is_ack a) /\
    MQTT_DISCONNECT_FLAG s' = MQTT_DISCONNECT_FLAG s.
Proof.
  destruct a as [created event_base event_id event_data | i]; cbn [step].
  - destruct (event_handler_shape cfg created event_base event_id event_data s)
      as [Hu | (s' & Hs' & Ht & (l & Hk & Hstop & Hdel) & Hb & Hf)];
      [left; exact Hu |].
    right. exists s'. split; [left; exact Hs' |].
    split; [| split; [| split; assumption]].
    + intros name Hle. destruct Ht as [Ht | (n & entry & Ht & Hex)].
      * unfold instances in *. rewrite Ht. exact Hle.
      * apply (instances_spawned n name entry s s' Ht Hex Hle).
    + intros H. left. apply (listener_exited_app s s' l Hk Hstop Hdel H).
  - right. unfold bind, get.
    destruct (nth_error (tasks s) i) as [t |].
    + destruct (smartconfig_task_shape i (at_location t) s)
        as (s' & Hs' & Hi & Hk & Hb & Hf).
      exists s'. split; [exact Hs' |].
      split; [intros name Hle; specialize (Hi name); lia |].
      split; [exact Hk | split; [auto | exact Hf]].
    + exists s. split; [left; reflexivity |]. auto.
Qed.

Lemma run_cons (cfg : bool) (a : action) (tr : list action) (s s' : state) :
  run cfg (a :: tr) s = Some s' ->
  exists s1,
    (step cfg a s = Done tt s1 \/ step cfg a s = Blocked s1) /\
    run cfg tr s1 = Some s'.
Proof.
  cbn [run]. destruct (step cfg a s) as [[] s1 | s1 | s1 |]; cbn [after];
    try discriminate; intros H; exists s1; auto.
Qed.

Lemma step_after (cfg : bool) (a : action) (s s1 : state) :
  step cfg a s = Done tt s1 \/ step cfg a s = Blocked s1 ->
  forall s',
    step cfg a s = Done tt s' \/ step cfg a s = Blocked s' -> s' = s1.
Proof. intros [H | H] s' [H' | H']; congruence. Qed.

Lemma run_instances (cfg : bool) (tr : list action) :
  forall s s' name,
    run cfg tr s = Some s' ->
    (instances name s <= 1)%nat -> (instances name s' <= 1)%nat.
Proof.
  induction tr as [| a tr IH]; intros s s' name H Hle.
  - injection H as <-. exact Hle.
  - apply run_cons in H. destruct H as (s1 & Hstep & Hrun).
    apply (IH s1 s' name Hrun).
    destruct (step_shape cfg a s) as [Hu | (s2 & Hs2 & Hi & _)].
    + destruct Hstep; congruence.
    + rewrite <- (step_after cfg a s s1 Hstep s2 Hs2). apply Hi. exact Hle.
Qed.

(** The listener has exited, or is about to, only after an acknowledgement. *)
Lemma run_exit_needs_ack (cfg : bool) (tr : list action) :
  forall s s',
    run cfg tr s = Some s' ->
    listener_exited s' \/ Z.testbit (s_wifi_event_group s') 1 = true ->
    (listener_exited s \/ Z.testbit (s_wifi_event_group s) 1 = true) \/
    Exists is_ack tr.
Proof.
  induction tr as [| a tr IH]; intros s s' H Hend.
  - injection H as <-. left. exact Hend.
  - apply run_cons in H. destruct H as (s1 & Hstep & Hrun).
    destruct (IH s1 s' Hrun Hend) as [Hmid | Hex];
      [| right; apply Exists_cons_tl; exact Hex].
    destruct (step_shape cfg a s) as [Hu | (s2 & Hs2 & _ & Hk & Hb & _)].
    + destruct Hstep; congruence.
    + rewrite <- (step_after cfg a s s1 Hstep s2 Hs2) in Hmid.
      destruct Hmid as [Hexit | Hbit].
      * left. destruct (Hk Hexit); auto.
      * destruct (Hb Hbit) as [Hb' | Hack];
          [left; right; exact Hb' | right; apply Exists_cons_hd; exact Hack].
Qed.

(** ** The claims on connectivity and provisioning *)

(** C3, as the code has it: the listener wakes on either flag and clears
    both; when the capture-acknowledged flag is among the flags it observes it
    stops the capture and deletes itself, whether or not address-acquired is
    set; when it observes address-acquired alone it neither stops the capture
    nor exits, and waits again; with neither flag set it stays blocked; and in
    every run from boot the listener stops the capture or deletes itself only
    after a capture-acknowledged event. *)
Theorem listener_exits_on_ack (cfg : bool) :
  (forall i s,
     Z.testbit (s_wifi_event_group s) 1 = true ->
     exists s',
       smartconfig_task i sc_waiting s = Done tt s' /\
       calls s' = (calls s ++ [esp_smartconfig_stop; vTaskDelete])%list /\
       tasks s' = remove_nth i (tasks s) /\
       Z.testbit (s_wifi_event_group s') 0 = false /\
       Z.testbit (s_wifi_event_group s') 1 = false) /\
  (forall i s,
     Z.testbit (s_wifi_event_group s) 1 = false ->
     Z.testbit (s_wifi_event_group s) 0 = true ->
     exists s',
       smartconfig_task i sc_waiting s = Done tt s' /\
       calls s' = calls s /\ tasks s' = tasks s /\
       Z.testbit (s_wifi_event_group s') 0 = false /\
       Z.testbit (s_wifi_event_group s') 1 = false) /\
  (forall i s,
     Z.testbit (s_wifi_event_group s) 1 = false ->
     Z.testbit (s_wifi_event_group s) 0 = false ->
     smartconfig_task i sc_waiting s = Blocked s) /\
  (forall tr stored s,
     run cfg tr (boot stored) = Some s ->
     listener_exited s ->
     Exists is_ack tr).
Proof.
  split; [| split; [| split]].
  - intros i s H1. rewrite smartconfig_task_waiting, H1.
    eexists. split; [reflexivity |].
    cbn [tasks calls s_wifi_event_group record_call set_tasks set_event_group].
    rewrite <- app_assoc, bit0_ldiff_both, bit1_ldiff_both. auto.
  - intros i s H1 H0. rewrite smartconfig_task_waiting, H1, H0.
    eexists. split; [reflexivity |].
    cbn [tasks calls s_wifi_event_group set_event_group].
    rewrite bit0_ldiff_both, bit1_ldiff_both. auto.
  - intros i s H1 H0. rewrite smartconfig_task_waiting, H1, H0. reflexivity.
  - intros tr stored s Hrun Hexit.
    destruct (run_exit_needs_ack cfg tr _ _ Hrun (or_introl Hexit))
      as [[[H | H] | H] | H];
      [destruct H | destruct H | discriminate H | exact H].
Qed.

(** C4, as the code has it: in every state, a link-dropped event clears the
    address-acquired bit, leaves the other bits and the tasks as they are, and
    requests reassociation; this does not depend on whether provisioning is
    in progress. *)
Theorem link_dropped_always_reconnects (cfg created : bool)
        (event_data : option got_ssid_pswd) (s : state) :
  exists s',
    event_handler cfg created WIFI_EVENT WIFI_EVENT_STA_DISCONNECTED
                  event_data s = Done tt s' /\
    s_wifi_event_group s' = Z.ldiff (s_wifi_event_group s) CONNECTED_BIT /\
    Z.testbit (s_wifi_event_group s') 0 = false /\
    calls s' = (calls s ++ [esp_wifi_connect])%list /\
    tasks s' = tasks s /\
    provisioning s' = provisioning s.
Proof.
  eexists. split; [reflexivity |].
  cbn [tasks calls s_wifi_event_group record_call set_event_group].
  rewrite bit0_ldiff_connected. auto.
Qed.

(** C5: [mqtt_event_handler] restarts the system exactly on the protocol
    error event, in every state; a batch of delivered events ends in a restart
    exactly when it holds a protocol error, whatever the polling loop has
    seen before; [send_data] and the Report Loop restart only after such an
    event; the Wi-Fi event handler and the Provisioning Listener never
    restart. *)
Theorem restart_iff_protocol_error (hw_random : nat -> Z)
        (portTICK_PERIOD_MS : Z) (cfg : bool) :
  (forall event_id publish_result s,
     (exists s', mqtt_event_handler event_id publish_result s = Reboot s')
     <-> event_id = MQTT_EVENT_ERROR) /\
  (forall publish_result s,
     mqtt_event_handler MQTT_EVENT_ERROR publish_result s
     = Reboot (record_call esp_restart s)) /\
  (forall d s, (exists s', deliver d s = Reboot s') <-> Exists is_error d) /\
  (forall d rest s,
     Exists is_error d ->
     exists s', poll portTICK_PERIOD_MS (d :: rest) s = Reboot s') /\
  (forall v e s s',
     send_data portTICK_PERIOD_MS v e s = Reboot s' ->
     Exists is_error (List.concat (deliveries e))) /\
  (forall es s s',
     report_entropy hw_random portTICK_PERIOD_MS es s = Reboot s' ->
     exists e, In e es /\ Exists is_error (List.concat (deliveries e))) /\
  (forall a s s', step cfg a s <> Reboot s').
Proof.
  split; [apply mqtt_event_handler_reboot_iff |].
  split; [apply mqtt_event_handler_error |].
  split; [apply deliver_reboot_iff |].
  split; [intros d rest s; apply poll_error |].
  split; [apply send_data_reboot |].
  split; [apply report_entropy_reboot |].
  intros a s s' H.
  destruct (step_shape cfg a s) as [Hu | (s1 & [Hs | Hs] & _)]; congruence.
Qed.

(** C9: in every run from boot there is at most one task named [sc_task]
    and at most one named [report_task]; a start request met by an existing
    instance creates nothing: the link-started event without credentials
    leaves the state as it is when the listener exists, and the
    address-acquired event only sets the address-acquired bit when the report
    task exists. *)
Theorem at_most_one_instance (cfg : bool) :
  (forall tr stored s,
     run cfg tr (boot stored) = Some s ->
     (instances "sc_task" s <= 1)%nat /\ (instances "report_task" s <= 1)%nat) /\
  (forall created s,
     provisioning s = true -> start_smartconfig created s = Done tt s) /\
  (forall created event_data s,
     provisioning s = true -> no_credentials s = true ->
     event_handler cfg created WIFI_EVENT WIFI_EVENT_STA_START event_data s
     = Done tt s) /\
  (forall created event_data s,
     existsb (task_named "report_task") (tasks s) = true ->
     event_handler cfg created IP_EVENT IP_EVENT_STA_GOT_IP event_data s
     = Done tt (set_event_group
                  (Z.lor (s_wifi_event_group s) CONNECTED_BIT) s)).
Proof.
  assert (Hstart : forall created s,
             provisioning s = true -> start_smartconfig created s = Done tt s).
  { intros created s Hp. unfold start_smartconfig, xTaskGetHandle, bind, get.
    unfold provisioning in Hp. rewrite Hp. reflexivity. }
  split; [| split; [exact Hstart | split]].
  - intros tr stored s Hrun.
    split; apply (run_instances cfg tr _ _ _ Hrun); cbn; lia.
  - intros created event_data s Hp Hc.
    unfold event_handler. cbn [base_eqb andb Z.eqb WIFI_EVENT_STA_START Pos.eqb].
    unfold bind at 1, get. unfold no_credentials in Hc.
    destruct (sta_config s) as [wifi_config |]; [| apply Hstart; exact Hp].
    apply negb_true_iff in Hc. rewrite Hc. apply Hstart. exact Hp.
  - intros created event_data s Hr.
    unfold event_handler. cbn [base_eqb andb Z.eqb IP_EVENT_STA_GOT_IP].
    unfold xEventGroupSetBits, xTaskGetHandle. run_monad.
    cbn [tasks set_event_group]. rewrite Hr. reflexivity.
Qed.

(** ** Concrete runs *)

Example send_data_publish_rejected :
  calls_of
    (send_data 10 0
       (mk_session (Some 1) ESP_OK
          [[]; [(MQTT_EVENT_CONNECTED, -1)]; [(MQTT_EVENT_PUBLISHED, 7)]])
       (set_json_payload (encode_payload 5) (boot None)))
  = [esp_mqtt_client_init;
     esp_mqtt_client_register_event (Some 1);
     esp_mqtt_client_start (Some 1);
     vTaskDelay 100;
     vTaskDelay 100;
     esp_mqtt_client_publish (Some 1) MQTT_TOPIC (encode_payload 5) 0 1 0;
     esp_mqtt_client_stop (Some 1);
     esp_mqtt_client_destroy (Some 1)].
Proof. reflexivity. Qed.

(** The listener stops the capture and exits on the acknowledgement alone:
    no address-acquired event occurs in this run. *)
Lemma listener_exits_without_address :
  let tr := [Event true WIFI_EVENT WIFI_EVENT_STA_START None;
             Schedule 0;
             Event true SC_EVENT SC_EVENT_SEND_ACK_DONE None;
             Schedule 0] in
  ~ Exists is_got_ip tr /\
  exists s,
    run false tr (boot None) = Some s /\
    calls s = [xTaskCreate "sc_task" true;
               esp_smartconfig_set_type SC_TYPE_ESPTOUCH;
               esp_smartconfig_start;
               esp_smartconfig_stop;
               vTaskDelete] /\
    tasks s = [].
Proof.
  split.
  - intros H. repeat (apply Exists_cons in H; destruct H as [H | H];
                      [exact H || discriminate H |]).
    apply Exists_nil in H. exact H.
  - eexists. split; [vm_compute; reflexivity |]. split; reflexivity.
Qed.

(** A link drop while the Provisioning Listener is running still requests
    reassociation. *)
Lemma reconnect_while_provisioning :
  exists s s',
    run false [Event true WIFI_EVENT WIFI_EVENT_STA_START None; Schedule 0]
        (boot None) = Some s /\
    provisioning s = true /\
    event_handler false true WIFI_EVENT WIFI_EVENT_STA_DISCONNECTED None s
    = Done tt s' /\
    calls s' = (calls s ++ [esp_wifi_connect])%list.
Proof.
  eexists _, _. split; [vm_compute; reflexivity |]. split; [reflexivity |].
  split; [vm_compute; reflexivity | reflexivity].
Qed.

Lemma listener_exits_on_ack_witness :
  let ack_only := set_event_group ESPTOUCH_DONE_BIT (boot None) in
  let tr := [Event true WIFI_EVENT WIFI_EVENT_STA_START None;
             Schedule 0;
             Event true IP_EVENT IP_EVENT_STA_GOT_IP None;
             Schedule 0;
             Event true SC_EVENT SC_EVENT_SEND_ACK_DONE None;
             Schedule 0] in
  (Z.testbit (s_wifi_event_group ack_only) 1 = true /\
   exists s',
     smartconfig_task 0 sc_waiting ack_only = Done tt s' /\
     calls s' = [esp_smartconfig_stop; vTaskDelete]) /\
  (exists s, run false tr (boot None) = Some s /\ listener_exited s) /\
  Exists is_ack tr.
Proof.
  intros ack_only tr.
  assert (Hbit : Z.testbit (s_wifi_event_group ack_only) 1 = true)
    by reflexivity.
  assert (H : exists s, run false tr (boot None) = Some s /\ listener_exited s).
  { eexists. split; [vm_compute; reflexivity |].
    left. cbn [calls In]. auto 10. }
  split; [split; [exact Hbit |] | split; [exact H |]].
  - destruct (proj1 (listener_exits_on_ack false) 0%nat ack_only Hbit)
      as (s' & Hs' & Hcalls & _).
    exists s'. split; [exact Hs' | exact Hcalls].
  - destruct H as (s & Hrun & Hexit).
    exact (proj2 (proj2 (proj2 (listener_exits_on_ack false)))
             tr None s Hrun Hexit).
Defined.

Lemma restart_iff_protocol_error_witness :
  Exists is_error [(MQTT_EVENT_CONNECTED, 3); (MQTT_EVENT_ERROR, 0)] /\
  exists s',
    poll 10 ([(MQTT_EVENT_CONNECTED, 3); (MQTT_EVENT_ERROR, 0)] :: [])
         (boot None) = Reboot s'.
Proof.
  assert (H : Exists is_error [(MQTT_EVENT_CONNECTED, 3); (MQTT_EVENT_ERROR, 0)]).
  { apply Exists_cons_tl, Exists_cons_hd. reflexivity. }
  split; [exact H |].
  exact (proj1 (proj2 (proj2 (proj2
           (restart_iff_protocol_error (fun _ => 0) 10 false))))
           _ [] (boot None) H).
Defined.


Lemma at_most_one_instance_witness :
  let tr := [Event true WIFI_EVENT WIFI_EVENT_STA_START None;
             Event true WIFI_EVENT WIFI_EVENT_STA_START None;
             Schedule 0;
             Event true IP_EVENT IP_EVENT_STA_GOT_IP None;
             Event true WIFI_EVENT WIFI_EVENT_STA_DISCONNECTED None;
             Event true IP_EVENT IP_EVENT_STA_GOT_IP None] in
  exists s,
    run false tr (boot None) = Some s /\
    (instances "sc_task" s <= 1)%nat /\ (instances "report_task" s <= 1)%nat.
Proof.
  intros tr.
  assert (H : exists s, run false tr (boot None) = Some s)
    by (eexists; vm_compute; reflexivity).
  destruct H as (s & Hrun). exists s. split; [exact Hrun |].
  exact (proj1 (at_most_one_instance false) tr None s Hrun).
Defined.

Lemma disconnect_flag_low_at_wait_witness :
  let e := mk_session (Some 1) ESP_OK
             [[(MQTT_EVENT_CONNECTED, 1)]; [(MQTT_EVENT_PUBLISHED, 1)]] in
  MQTT_DISCONNECT_FLAG (boot None) = false /\
  exists s',
    send_data 10 0 e (boot None) = Done tt s' /\
    MQTT_DISCONNECT_FLAG s' = false.
Proof.
  intros e. split; [reflexivity |].
  assert (H : exists s', send_data 10 0 e (boot None) = Done tt s')
    by (eexists; vm_compute; reflexivity).
  destruct H as (s' & Hs'). exists s'. split; [exact Hs' |].
  exact (proj1 (proj2 (proj2 (disconnect_flag_low_at_wait (fun _ => 0) 10)))
           0 e (boot None) s' eq_refl Hs').
Defined.

(** * Further properties of the code *)

(** ** Composition of the sample *)

(** X1: [compose64] is a bijection between pairs of 32-bit words and 64-bit
    values: the high and low halves of a 64-bit value compose back to it, and
    two pairs that compose to the same value are equal. *)
Theorem compose64_bijective :
  (forall v, 0 <= v < 2 ^ 64 ->
     0 <= Z.shiftr v 32 < 2 ^ 32 /\
     0 <= Z.land v (Z.ones 32) < 2 ^ 32 /\
     compose64 (Z.shiftr v 32) (Z.land v (Z.ones 32)) = v) /\
  (forall hi lo hi' lo',
     0 <= hi < 2 ^ 32 -> 0 <= lo < 2 ^ 32 ->
     0 <= hi' < 2 ^ 32 -> 0 <= lo' < 2 ^ 32 ->
     compose64 hi lo = compose64 hi' lo' -> hi = hi' /\ lo = lo').
Proof.
  split.
  - intros v Hv.
    assert (Hhi : 0 <= Z.shiftr v 32 < 2 ^ 32).
    { rewrite Z.shiftr_div_pow2 by lia. split.
      - apply Z.div_pos; lia.
      - apply Z.div_lt_upper_bound; [lia |].
        change (2 ^ 32 * 2 ^ 32) with (2 ^ 64). lia. }
    assert (Hlo : 0 <= Z.land v (Z.ones 32) < 2 ^ 32).
    { rewrite Z.land_ones by lia. apply Z.mod_pos_bound. lia. }
    split; [exact Hhi |]. split; [exact Hlo |].
    rewrite compose64_sum by assumption.
    rewrite Z.shiftr_div_pow2, Z.land_ones by lia.
    pose proof (Z.div_mod v (2 ^ 32) ltac:(lia)). lia.
  - intros hi lo hi' lo' Hhi Hlo Hhi' Hlo' Heq.
    split.
    + rewrite <- (compose64_high hi lo), <- (compose64_high hi' lo'), Heq
        by assumption. reflexivity.
    + rewrite <- (compose64_low hi lo), <- (compose64_low hi' lo'), Heq
        by assumption. reflexivity.
Qed.

Lemma compose64_bijective_witness :
  0 <= 0xDEADBEEF01234567 < 2 ^ 64 /\
  compose64 (Z.shiftr 0xDEADBEEF01234567 32)
            (Z.land 0xDEADBEEF01234567 (Z.ones 32)) = 0xDEADBEEF01234567.
Proof.
  assert (H : 0 <= 0xDEADBEEF01234567 < 2 ^ 64)
    by (split; [discriminate | reflexivity]).
  split; [exact H |].
  exact (proj2 (proj2 (proj1 compose64_bijective 0xDEADBEEF01234567 H))).
Defined.

(** ** Encoding of the sample *)

Lemma decode_encode_payload (v : Z) :
  0 <= v < 2 ^ 64 -> decode_payload (encode_payload v) = Some v.
Proof.
  intros Hv.
  destruct (utoa_spec v Hv) as (c & ds & Hu & Hlen & (d & Hd) & Hread).
  assert (Henc : encode_payload v = format_entropy v).
  { unfold encode_payload, snprintf. apply substring_all.
    unfold format_entropy. rewrite !string_length_app, Hu.
    change (String.length entropy_prefix) with 12%nat.
    change (String.length "}") with 1%nat.
    change (json_payload_size - 1)%nat with 63%nat. lia. }
  rewrite Henc. unfold decode_payload, format_entropy.
  rewrite strip_prefix_app, Hu. cbn [append]. rewrite Hd.
  change (String c (ds ++ "}")) with (String c ds ++ "}")%string.
  rewrite Hread. cbn [read_digits]. rewrite digit_value_brace.
  rewrite String.eqb_refl. reflexivity.
Qed.

(** X2: two different 64-bit samples never give the same payload. *)
Theorem encode_payload_injective (v w : Z) :
  0 <= v < 2 ^ 64 -> 0 <= w < 2 ^ 64 ->
  encode_payload v = encode_payload w -> v = w.
Proof.
  intros Hv Hw Heq.
  pose proof (decode_encode_payload v Hv) as H1.
  pose proof (decode_encode_payload w Hw) as H2.
  rewrite Heq, H2 in H1. injection H1 as H1. symmetry. exact H1.
Qed.

Lemma encode_payload_injective_witness :
  (0 <= 7 < 2 ^ 64 /\ 0 <= 7 < 2 ^ 64 /\ encode_payload 7 = encode_payload 7) /\
  7 = 7.
Proof.
  assert (H : 0 <= 7 < 2 ^ 64) by (split; [discriminate | reflexivity]).
  split; [split; [exact H | split; [exact H | reflexivity]] |].
  exact (encode_payload_injective 7 7 H H eq_refl).
Defined.

(** ** Bounds of the delay *)

(** X3: for a tick period of at least one millisecond, every non-zero draw
    gives a delay of at most 79 920 000 ticks (1332 minutes); a larger draw
    never gives a longer delay; the largest draw gives no delay; and on a
    non-zero draw [generate_poisson_delay] returns that tick count and has
    used one draw. *)
Theorem poisson_ticks_bounded_monotone (hw : nat -> Z)
        (portTICK_PERIOD_MS : Z) (s : state) :
  (1 <= portTICK_PERIOD_MS)%Z ->
  (forall d1 d2,
     (1 <= d1)%Z -> (d1 <= d2)%Z -> (d2 <= UINT32_MAX)%Z ->
     exists t1 t2,
       poisson_ticks portTICK_PERIOD_MS d1 = Some t1 /\
       poisson_ticks portTICK_PERIOD_MS d2 = Some t2 /\
       (0 <= t2 <= t1)%Z /\ (t1 <= 79920000)%Z) /\
  poisson_ticks portTICK_PERIOD_MS UINT32_MAX = Some 0%Z /\
  (wrap32 (hw (draws s)) <> 0%Z ->
   exists t,
     poisson_ticks portTICK_PERIOD_MS (wrap32 (hw (draws s))) = Some t /\
     generate_poisson_delay hw portTICK_PERIOD_MS s
     = Done t (set_draws (S (draws s)) s) /\
     (0 <= t <= 79920000)%Z).
Proof.
  intros HP. split; [| split].
  - intros d1 d2 H1 H12 H2.
    destruct (poisson_ticks_defined portTICK_PERIOD_MS d1 HP ltac:(lia))
      as (t1 & Ht1 & Hb1).
    destruct (poisson_ticks_defined portTICK_PERIOD_MS d2 HP ltac:(lia))
      as (t2 & Ht2 & Hb2).
    exists t1, t2. split; [exact Ht1 |]. split; [exact Ht2 |].
    pose proof (poisson_ticks_mono _ d1 d2 t1 t2 HP H1 H12 Ht1 Ht2). lia.
  - apply poisson_ticks_max.
  - intros Hne. pose proof (wrap32_range (hw (draws s))) as Hw.
    change (2 ^ 32)%Z with (UINT32_MAX + 1)%Z in Hw.
    destruct (poisson_ticks_defined portTICK_PERIOD_MS
                (wrap32 (hw (draws s))) HP ltac:(lia)) as (t & Ht & Hb).
    exists t. split; [exact Ht |].
    split; [apply generate_poisson_delay_done; exact Ht | exact Hb].
Qed.

Lemma poisson_ticks_bounded_monotone_witness :
  (exists t1 t2,
     poisson_ticks 10 1 = Some t1 /\ poisson_ticks 10 2 = Some t2 /\
     (0 <= t2 <= t1)%Z /\ (t1 <= 79920000)%Z) /\
  poisson_ticks 10 UINT32_MAX = Some 0%Z /\
  (exists t,
     poisson_ticks 10 5 = Some t /\
     generate_poisson_delay (fun _ => 5%Z) 10 (boot None)
     = Done t (set_draws 1 (boot None)) /\
     (0 <= t <= 79920000)%Z).
Proof.
  assert (H : (1 <= 10)%Z) by discriminate.
  assert (H1 : (1 <= 1)%Z) by discriminate.
  assert (H2 : (1 <= 2)%Z) by discriminate.
  assert (H3 : (2 <= UINT32_MAX)%Z) by discriminate.
  assert (H5 : wrap32 5 <> 0%Z) by discriminate.
  pose proof (poisson_ticks_bounded_monotone (fun _ => 5%Z) 10 (boot None) H)
    as (Ha & Hb & Hc).
  split; [exact (Ha 1%Z 2%Z H1 H2 H3) |]. split; [exact Hb |].
  exact (Hc H5).
Defined.

(** ** The computation at concrete draws *)

Local Open Scope R_scope.

Lemma rne_near (m : R) (k : Z) :
  IZR k - 1 / 2 < m < IZR k + 1 / 2 -> rne m = k.
Proof.
  intros [Hlo Hhi]. destruct (Rle_lt_dec (IZR k) m) as [H | H].
  - apply rne_down. lra.
  - rewrite (rne_up m (k - 1)); [lia |]. rewrite minus_IZR. lra.
Qed.

(** A value inside the rounding cell of [k * u], where [u = 2 ^ e] is the
    unit in the last place of its binade, rounds to [k * u]. *)
Lemma round_cell (prec e k : Z) (x u : R) :
  (1 <= prec)%Z -> powerRZ 2 e = u ->
  IZR (2 ^ (prec - 1)) * u <= x < IZR (2 ^ prec) * u ->
  (IZR k - 1 / 2) * u < x < (IZR k + 1 / 2) * u ->
  round prec x = IZR k * u.
Proof.
  intros Hp Hu [Blo Bhi] [Clo Chi]. pose proof (pow2_pos e) as He.
  pose proof (pow2_pos (- e)) as Hne. pose proof (pow2_cancel e) as Hc.
  assert (H0 : 0 < IZR (2 ^ (prec - 1))).
  { apply IZR_lt. apply Z.pow_pos_nonneg; lia. }
  assert (Hx : 0 < x).
  { apply Rlt_le_trans with (IZR (2 ^ (prec - 1)) * u); [| exact Blo].
    apply Rmult_lt_0_compat; lra. }
  assert (HE : binade x = (prec - 1 + e)%Z).
  { apply binade_unique.
    replace (prec - 1 + e + 1)%Z with (prec + e)%Z by lia.
    rewrite (pow2_add (prec - 1) e), (pow2_add prec e).
    rewrite (pow2_IZR (prec - 1)), (pow2_IZR prec) by lia.
    rewrite Hu. split; assumption. }
  rewrite round_of_pos by exact Hx. unfold round_pos. rewrite HE.
  replace (prec - 1 + e - (prec - 1))%Z with e by lia.
  rewrite Hu. f_equal. f_equal. apply rne_near.
  assert (Hm : u * powerRZ 2 (- e) = 1) by (rewrite <- Hu; lra).
  split.
  - replace (IZR k - 1 / 2) with ((IZR k - 1 / 2) * u * powerRZ 2 (- e))
      by (rewrite Rmult_assoc, Hm; ring).
    apply Rmult_lt_compat_r; assumption.
  - replace (IZR k + 1 / 2) with ((IZR k + 1 / 2) * u * powerRZ 2 (- e))
      by (rewrite Rmult_assoc, Hm; ring).
    apply Rmult_lt_compat_r; assumption.
Qed.

Lemma to_float_cell (e k : Z) (x u : R) :
  powerRZ 2 e = u ->
  8388608 * u <= x < 16777216 * u ->
  (IZR k - 1 / 2) * u < x < (IZR k + 1 / 2) * u ->
  to_float x = IZR k * u.
Proof.
  intros Hu Hb Hc. apply (round_cell FLT_MANT_DIG e); try assumption.
  discriminate.
Qed.

Lemma pow2_m13 : powerRZ 2 (-13) = / 8192.
Proof. exact (pow2_neg_IZR 13 ltac:(discriminate)). Qed.

Lemma pow2_m18 : powerRZ 2 (-18) = / 262144.
Proof. exact (pow2_neg_IZR 18 ltac:(discriminate)). Qed.

Lemma pow2_m7 : powerRZ 2 (-7) = / 128.
Proof. exact (pow2_neg_IZR 7 ltac:(discriminate)). Qed.

Lemma pow2_m12 : powerRZ 2 (-12) = / 4096.
Proof. exact (pow2_neg_IZR 12 ltac:(discriminate)). Qed.

Lemma pow2_m6 : powerRZ 2 (-6) = / 64.
Proof. exact (pow2_neg_IZR 6 ltac:(discriminate)). Qed.

Lemma pow2_m2 : powerRZ 2 (-2) = / 4.
Proof. exact (pow2_neg_IZR 2 ltac:(discriminate)). Qed.

Lemma pow2_3 : powerRZ 2 3 = 8.
Proof. exact (pow2_IZR 3 ltac:(discriminate)). Qed.

(** The [double] computation of [60 * log] stays within two roundings of
    the exact product. *)
Lemma double_product_bounds (L : R) :
  0 <= L ->
  60 * L * (1 - / 2251799813685248)
  <= to_double (60 * to_double L)
  <= 60 * L * (1 + / 2251799813685248).
Proof.
  intros HL. pose proof (to_double_error L HL) as H1.
  assert (H1' : 0 <= to_double L)
    by (apply round_nonneg; [discriminate | exact HL]).
  set (r1 := to_double L) in *.
  pose proof (to_double_error (60 * r1) ltac:(lra)) as H2.
  set (r2 := to_double (60 * r1)) in *. lra.
Qed.

(** At [U = 0.5] the delay is the [float] 41.588829040527344. *)
Lemma delay_minutes_half_value :
  delay_minutes (U_of_draw 2147483648) = Some (10902262 / 262144).
Proof.
  rewrite U_of_draw_half, delay_minutes_value by lra. f_equal.
  rewrite ln_half, Ropp_involutive. unfold AVERAGE_DELAY_MINUTES.
  pose proof ln_2_lower as Hlo. pose proof ln_2_upper as Hhi.
  pose proof (double_product_bounds (ln 2) ltac:(lra)) as Hb.
  set (x := to_double (60 * to_double (ln 2))) in *.
  rewrite (to_float_cell (-18) 10902262 x (/ 262144) pow2_m18); lra.
Qed.

(** The first draw being 1, the delay is the [float] 1330.8425292968750
    minutes. *)
Lemma delay_minutes_one_value :
  delay_minutes (U_of_draw 1) = Some (10902262 / 8192).
Proof.
  rewrite U_of_draw_one.
  rewrite delay_minutes_value by (apply Rinv_0_lt_compat; lra). f_equal.
  rewrite <- pow2_m32, ln_pow2. unfold AVERAGE_DELAY_MINUTES.
  replace (- (IZR (-32) * ln 2)) with (32 * ln 2) by lra.
  pose proof ln_2_lower as Hlo. pose proof ln_2_upper as Hhi.
  pose proof (double_product_bounds (32 * ln 2) ltac:(lra)) as Hb.
  set (x := to_double (60 * to_double (32 * ln 2))) in *.
  rewrite (to_float_cell (-13) 10902262 x (/ 8192) pow2_m13); lra.
Qed.

(** The draw 6 gives [U = 6 / 2 ^ 32] and the [float] 1223.3370361328125
    minutes. *)
Lemma U_of_draw_six : U_of_draw 6 = 6 * / 4294967296.
Proof.
  unfold U_of_draw. rewrite float_of_uint32_max.
  rewrite float_of_uint32_exact by lia.
  replace (6 / 4294967296) with (IZR 6 * powerRZ 2 (-32))
    by (rewrite pow2_m32; lra).
  unfold to_float. rewrite round_scale by (try discriminate; lra).
  rewrite round_int by (first [discriminate | split; [discriminate | reflexivity]]).
  rewrite pow2_m32. reflexivity.
Qed.

Lemma delay_minutes_six_value :
  delay_minutes (U_of_draw 6) = Some (10021577 / 8192).
Proof.
  rewrite U_of_draw_six. rewrite delay_minutes_value by lra. f_equal.
  assert (HL : - ln (6 * / 4294967296) = 31 * ln 2 - ln 3).
  { replace (6 * / 4294967296) with (3 * powerRZ 2 (-31)).
    - rewrite ln_mult by (try apply pow2_pos; lra). rewrite ln_pow2. lra.
    - rewrite pow2_m31. lra. }
  rewrite HL. unfold AVERAGE_DELAY_MINUTES.
  pose proof ln_2_lower. pose proof ln_2_upper.
  pose proof ln_3_lower. pose proof ln_3_upper.
  pose proof (double_product_bounds (31 * ln 2 - ln 3) ltac:(lra)) as Hb.
  set (x := to_double (60 * to_double (31 * ln 2 - ln 3))) in *.
  rewrite (to_float_cell (-13) 10021577 x (/ 8192) pow2_m13); lra.
Qed.

(** X15: the arithmetic of lines 138-140 at three concrete draws.  With a
    tick period of 1 ms the draw 1 gives 79 850 552 ticks: the delay is
    1330.8425 minutes as a [float], its product with 60 rounds to
    79850.5546875, that with 1000 to 79850552.  With a tick period of 10 ms
    the draw 6 gives 7 340 021 ticks, and the draw [2 ^ 31], where
    [U = 0.5] and the delay is 41.588829 minutes as a [float], gives
    249 532 ticks. *)
Theorem poisson_ticks_concrete :
  U_of_draw 1 = / 4294967296 /\
  delay_minutes (U_of_draw 1) = Some (10902262 / 8192) /\
  poisson_ticks 1 1 = Some 79850552%Z /\
  generate_poisson_delay (fun _ => 1%Z) 1 (boot None)
  = Done 79850552%Z (set_draws 1 (boot None)) /\
  U_of_draw 2147483648 = 1 / 2 /\
  delay_minutes (U_of_draw 2147483648) = Some (10902262 / 262144) /\
  poisson_ticks 10 2147483648 = Some 249532%Z /\
  delay_minutes (U_of_draw 6) = Some (10021577 / 8192) /\
  poisson_ticks 10 6 = Some 7340021%Z /\
  generate_poisson_delay (fun _ => 6%Z) 10 (boot None)
  = Done 7340021%Z (set_draws 1 (boot None)).
Proof.
  assert (Ht6 : poisson_ticks 10 6 = Some 7340021%Z).
  { rewrite (poisson_ticks_value 10 6 _ delay_minutes_six_value).
    rewrite (float_of_uint32_exact 10) by lia.
    rewrite (to_float_cell (-7) 9395228 (10021577 / 8192 * 60) (/ 128)
               pow2_m7) by lra.
    rewrite (to_float_cell 3 9175027 (9395228 * / 128 * 1000) 8 pow2_3)
      by lra.
    rewrite (to_float_cell (-1) 14680043 (9175027 * 8 / 10) (/ 2) pow2_m1)
      by lra.
    unfold to_uint32.
    replace (Int_part (14680043 * / 2)) with 7340021%Z; [reflexivity |].
    apply Int_part_spec. lra. }
  assert (Ht : poisson_ticks 1 1 = Some 79850552%Z).
  { rewrite (poisson_ticks_value 1 1 _ delay_minutes_one_value).
    rewrite (float_of_uint32_exact 1) by lia.
    rewrite (to_float_cell (-7) 10220871 (10902262 / 8192 * 60) (/ 128)
               pow2_m7) by lra.
    rewrite (to_float_cell 3 9981319 (10220871 * / 128 * 1000) 8 pow2_3)
      by lra.
    rewrite (to_float_cell 3 9981319 (9981319 * 8 / 1) 8 pow2_3) by lra.
    replace (9981319 * 8) with (IZR 79850552) by lra.
    unfold to_uint32. rewrite Int_part_IZR. reflexivity. }
  split; [exact U_of_draw_one |]. split; [exact delay_minutes_one_value |].
  split; [exact Ht |].
  split; [apply generate_poisson_delay_done; exact Ht |].
  split; [exact U_of_draw_half |].
  split; [exact delay_minutes_half_value |].
  split; [| split; [exact delay_minutes_six_value |
                    split; [exact Ht6 |
                            apply generate_poisson_delay_done; exact Ht6]]].
  rewrite (poisson_ticks_value 10 2147483648 _ delay_minutes_half_value).
  rewrite (float_of_uint32_exact 10) by lia.
  rewrite (to_float_cell (-12) 10220871 (10902262 / 262144 * 60) (/ 4096)
             pow2_m12) by lra.
  rewrite (to_float_cell (-2) 9981319 (10220871 * / 4096 * 1000) (/ 4)
             pow2_m2) by lra.
  rewrite (to_float_cell (-6) 15970110 (9981319 * / 4 / 10) (/ 64)
             pow2_m6) by lra.
  unfold to_uint32.
  replace (Int_part (15970110 * / 64)) with 249532%Z; [reflexivity |].
  apply Int_part_spec. lra.
Qed.

Local Close Scope R_scope.

(** ** Who touches what *)

Lemma same_connectivity_refl (s : state) : same_connectivity s s.
Proof. unfold same_connectivity. auto. Qed.

Lemma same_connectivity_trans (a b c : state) :
  same_connectivity a b -> same_connectivity b c -> same_connectivity a c.
Proof. unfold same_connectivity. intuition congruence. Qed.

Lemma session_frame_refl (s : state) : session_frame s s.
Proof. unfold session_frame, same_connectivity. auto. Qed.

Lemma session_frame_trans (a b c : state) :
  session_frame a b -> session_frame b c -> session_frame a c.
Proof. unfold session_frame, same_connectivity. intuition congruence. Qed.

Lemma same_delivery_refl (s : state) : same_delivery s s.
Proof. unfold same_delivery. auto. Qed.

Lemma same_delivery_trans (a b c : state) :
  same_delivery a b -> same_delivery b c -> same_delivery a c.
Proof. unfold same_delivery. intuition congruence. Qed.

Section Preserves.

Variable R : state -> state -> Prop.
Hypothesis R_refl : forall s, R s s.
Hypothesis R_trans : forall a b c, R a b -> R b c -> R a c.

Lemma preserves_bind {A B} (m : M A) (k : A -> M B) :
  preserves R m -> (forall a, preserves R (k a)) -> preserves R (bind m k).
Proof.
  intros Hm Hk s s'. unfold bind.
  destruct (m s) as [a s1 | s1 | s1 |] eqn:E; cbn [state_of]; intros H.
  - apply R_trans with s1; [apply Hm; rewrite E; reflexivity |].
    apply (Hk a s1 s' H).
  - apply Hm. rewrite E. exact H.
  - apply Hm. rewrite E. exact H.
  - discriminate H.
Qed.

Lemma preserves_ret {A} (a : A) : preserves R (ret a).
Proof. intros s s' H. change (Some s = Some s') in H. injection H as <-. apply R_refl. Qed.

Lemma preserves_get {A} (f : state -> A) : preserves R (get f).
Proof. intros s s' H. change (Some s = Some s') in H. injection H as <-. apply R_refl. Qed.

Lemma preserves_block {A} : preserves R (@block A).
Proof. intros s s' H. change (Some s = Some s') in H. injection H as <-. apply R_refl. Qed.

Lemma preserves_undefined {A} : preserves R (@undefined A).
Proof. intros s s' H. discriminate H. Qed.

Lemma preserves_modify (f : state -> state) :
  (forall s, R s (f s)) -> preserves R (modify f).
Proof. intros Hf s s' H. change (Some (f s) = Some s') in H. injection H as <-. apply Hf. Qed.

Lemma preserves_if {A} (b : bool) (m1 m2 : M A) :
  preserves R m1 -> preserves R m2 -> preserves R (if b then m1 else m2).
Proof. destruct b; auto. Qed.

End Preserves.

Lemma session_frame_record_call (c : call) (s : state) :
  session_frame s (record_call c s).
Proof. unfold session_frame, same_connectivity. cbn. auto 10. Qed.

Lemma session_frame_set_flag (b : bool) (s : state) :
  session_frame s (set_flag b s).
Proof. unfold session_frame, same_connectivity. cbn. auto 10. Qed.

Lemma session_frame_set_client (c : option Z) (s : state) :
  session_frame s (set_client c s).
Proof. unfold session_frame, same_connectivity. cbn. auto 10. Qed.

Ltac frame_step :=
  first
    [ apply preserves_bind; [exact session_frame_trans | | intros ? ]
    | apply preserves_if
    | apply preserves_ret; exact session_frame_refl
    | apply preserves_get; exact session_frame_refl
    | apply preserves_block; exact session_frame_refl
    | apply preserves_undefined
    | apply preserves_modify; intros ?;
      first [ apply session_frame_record_call
            | apply session_frame_set_flag
            | apply session_frame_set_client ] ].

Lemma mqtt_event_handler_frame (event_id publish_result : Z) :
  preserves session_frame (mqtt_event_handler event_id publish_result).
Proof.
  unfold mqtt_event_handler, do_call, restart.
  repeat frame_step.
Qed.

Lemma deliver_frame (d : list (Z * Z)) : preserves session_frame (deliver d).
Proof.
  induction d as [| [event_id publish_result] d IH]; cbn [deliver].
  - apply preserves_ret. exact session_frame_refl.
  - apply preserves_bind; [exact session_frame_trans | | intros _; exact IH].
    apply mqtt_event_handler_frame.
Qed.

Lemma poll_frame (P : Z) (ds : list (list (Z * Z))) :
  preserves session_frame (poll P ds).
Proof.
  induction ds as [| d ds IH]; cbn [poll].
  - apply preserves_block. exact session_frame_refl.
  - unfold do_call.
    frame_step; [frame_step |].
    frame_step; [apply deliver_frame |].
    frame_step; [frame_step |].
    apply preserves_if; [| exact IH].
    repeat frame_step.
Qed.

Lemma send_data_frame (P v : Z) (e : mqtt_session) :
  preserves session_frame (send_data P v e).
Proof.
  unfold send_data, do_call.
  repeat first
    [ apply poll_frame
    | frame_step
    | match goal with
      | |- preserves _ (match ?x with Some _ => _ | None => _ end) =>
          destruct x
      end ].
Qed.

Lemma generate_poisson_delay_cases (hw : nat -> Z) (P : Z) (s : state) :
  generate_poisson_delay hw P s = Undefined \/
  exists ticks,
    poisson_ticks P (wrap32 (hw (draws s))) = Some ticks /\
    generate_poisson_delay hw P s = Done ticks (set_draws (S (draws s)) s).
Proof.
  unfold generate_poisson_delay, bind, esp_random.
  destruct (poisson_ticks P (wrap32 (hw (draws s)))) as [ticks |];
    [right; exists ticks; split; reflexivity | left; reflexivity].
Qed.

(** Whatever a cycle ends in, it has used three draws: the first for the
    delay, the next two for the sample, which the session leaves alone. *)
Lemma report_cycle_state (hw : nat -> Z) (P : Z) (e : mqtt_session)
      (s s' : state) :
  state_of (report_cycle hw P e s) = Some s' ->
  same_connectivity s s' /\
  draws s' = (draws s + 3)%nat /\
  entropy64 s' = compose64 (wrap32 (hw (S (draws s))))
                           (wrap32 (hw (S (S (draws s))))) /\
  json_payload s' = encode_payload (entropy64 s').
Proof.
  unfold report_cycle, bind at 1.
  destruct (generate_poisson_delay_cases hw P s) as [-> | (t & _ & ->)];
    [discriminate |].
  unfold bind at 1, do_call, modify. unfold bind at 1.
  set (s1 := record_call (vTaskDelay t) (set_draws (S (draws s)) s)).
  destruct (harvest_done hw s1) as (s2 & Hh & Hd & He & Hp & _).
  rewrite Hh. unfold bind at 1, get. intros H.
  apply send_data_frame in H.
  destruct H as ((Hg & Ht & Hc) & Hdr & Hen & Hpl).
  assert (Hconn : same_connectivity s1 s2).
  { revert Hh. unfold harvest, esp_random. run_monad.
    intros Hh. injection Hh as <-. unfold same_connectivity. cbn. auto. }
  destruct Hconn as (Hg2 & Ht2 & Hc2).
  change (draws s1) with (S (draws s)) in Hd, He.
  change (s_wifi_event_group s1) with (s_wifi_event_group s) in Hg2.
  change (tasks s1) with (tasks s) in Ht2.
  change (sta_config s1) with (sta_config s) in Hc2.
  unfold same_connectivity.
  repeat split; try congruence; try lia.
Qed.

Lemma report_entropy_state (hw : nat -> Z) (P : Z) (es : list mqtt_session) :
  forall s s',
    state_of (report_entropy hw P es s) = Some s' ->
    same_connectivity s s' /\
    exists k, (k <= List.length es)%nat /\ draws s' = (draws s + 3 * k)%nat /\
              (forall u, report_entropy hw P es s = Done u s' ->
                         k = List.length es).
Proof.
  induction es as [| e es IH]; intros s s' H.
  - change (Some s = Some s') in H. injection H as <-.
    split; [apply same_connectivity_refl |].
    exists 0%nat. cbn [List.length]. repeat split; lia.
  - cbn [report_entropy] in H |- *. unfold bind in H |- *.
    destruct (report_cycle hw P e s) as [[] s1 | s1 | s1 |] eqn:E;
      try discriminate H.
    + assert (H1 : state_of (report_cycle hw P e s) = Some s1)
        by (rewrite E; reflexivity).
      apply report_cycle_state in H1. destruct H1 as (Hc1 & Hd1 & _).
      destruct (IH s1 s' H) as (Hc & k & Hk & Hd & Hdone).
      split; [apply (same_connectivity_trans _ _ _ Hc1 Hc) |].
      exists (S k). cbn [List.length].
      split; [lia |]. split; [lia |].
      intros u Hu. f_equal. apply (Hdone u Hu).
    + assert (H1 : state_of (report_cycle hw P e s) = Some s')
        by (rewrite E; exact H).
      apply report_cycle_state in H1. destruct H1 as (Hc1 & Hd1 & _).
      split; [exact Hc1 |]. exists 1%nat. cbn [List.length].
      split; [lia |]. split; [lia |]. intros u Hu. discriminate Hu.
    + assert (H1 : state_of (report_cycle hw P e s) = Some s')
        by (rewrite E; exact H).
      apply report_cycle_state in H1. destruct H1 as (Hc1 & Hd1 & _).
      split; [exact Hc1 |]. exists 1%nat. cbn [List.length].
      split; [lia |]. split; [lia |]. intros u Hu. discriminate Hu.
Qed.

(** X4: every cycle of the Report Loop uses exactly three draws of the
    Random Source, whatever the cycle ends in: the first for the delay, the
    second and third for the high and low halves of the sample.  After [n]
    completed cycles [3 n] draws have been used. *)
Theorem report_loop_draws (hw_random : nat -> Z) (portTICK_PERIOD_MS : Z) :
  (forall e s s',
     state_of (report_cycle hw_random portTICK_PERIOD_MS e s) = Some s' ->
     draws s' = (draws s + 3)%nat /\
     entropy64 s' = compose64 (wrap32 (hw_random (S (draws s))))
                              (wrap32 (hw_random (S (S (draws s))))) /\
     json_payload s' = encode_payload (entropy64 s')) /\
  (forall es s s',
     report_entropy hw_random portTICK_PERIOD_MS es s = Done tt s' ->
     draws s' = (draws s + 3 * List.length es)%nat) /\
  (forall es s s',
     state_of (report_entropy hw_random portTICK_PERIOD_MS es s) = Some s' ->
     (draws s <= draws s' <= draws s + 3 * List.length es)%nat).
Proof.
  split; [| split].
  - intros e s s' H. apply report_cycle_state in H. tauto.
  - intros es s s' H.
    assert (H1 : state_of (report_entropy hw_random portTICK_PERIOD_MS es s)
                 = Some s') by (rewrite H; reflexivity).
    apply report_entropy_state in H1.
    destruct H1 as (_ & k & Hk & Hd & Hdone).
    rewrite (Hdone tt H) in Hd. exact Hd.
  - intros es s s' H. apply report_entropy_state in H.
    destruct H as (_ & k & Hk & Hd & _). lia.
Qed.

(** X5: the Report Loop and its sessions never touch the event group, the
    task registry or the stored station configuration, whatever they end in;
    and a session never touches the sample, its encoding or the count of
    draws. *)
Theorem report_loop_leaves_connectivity (hw_random : nat -> Z)
        (portTICK_PERIOD_MS : Z) :
  (forall es s s',
     state_of (report_entropy hw_random portTICK_PERIOD_MS es s) = Some s' ->
     same_connectivity s s') /\
  (forall v e s s',
     state_of (send_data portTICK_PERIOD_MS v e s) = Some s' ->
     session_frame s s').
Proof.
  split.
  - intros es s s' H. apply report_entropy_state in H. tauto.
  - intros v e. apply send_data_frame.
Qed.

(** What [event_handler] does to the tasks, the calls and the delivery
    state. *)
Lemma event_handler_effects (cfg created : bool) (event_base : esp_event_base_t)
      (event_id : Z) (event_data : option got_ssid_pswd) (s : state) :
  event_handler cfg created event_base event_id event_data s = Undefined \/
  exists s',
    event_handler cfg created event_base event_id event_data s = Done tt s' /\
    same_delivery s s' /\
    (tasks s' = tasks s \/
     tasks s' = (tasks s ++ [mk_task "sc_task" sc_entry])%list \/
     tasks s' = (tasks s ++ [mk_task "report_task" report_running])%list) /\
    exists l, calls s' = (calls s ++ l)%list /\
              filter is_capture_start l = [] /\
              filter is_capture_stop l = [].
Proof.
  unfold event_handler, start_smartconfig, spawn, xTaskGetHandle,
    xEventGroupSetBits, xEventGroupClearBits.
  destruct event_base; cbn [base_eqb andb];
    repeat match goal with
           | |- context [?x =? ?c] => destruct (Z.eqb_spec x c)
           end.
  all: run_monad.
  all: split_ifs.
  all: try (left; reflexivity).
  all: right; eexists; (split; [reflexivity |]).
  all: split; [unfold same_delivery; cbn; auto 10 |].
  all: cbn [tasks calls record_call set_tasks set_event_group set_sta_config].
  all: split; [auto |].
  all: first [ exists []; rewrite app_nil_r;
               split; [reflexivity | split; reflexivity]
             | eexists; split; [rewrite <- ?app_assoc; reflexivity |];
               split; reflexivity ].
Qed.

Lemma smartconfig_task_delivery (i : nat) (loc : location) (s s' : state) :
  state_of (smartconfig_task i loc s) = Some s' -> same_delivery s s'.
Proof.
  destruct loc.
  - intros H. cbv [smartconfig_task bind do_call modify state_of] in H.
    injection H as <-. unfold same_delivery. cbn. auto 10.
  - rewrite smartconfig_task_waiting.
    destruct (Z.testbit (s_wifi_event_group s) 1);
      [| destruct (Z.testbit (s_wifi_event_group s) 0)];
      intros H; cbv [state_of] in H; injection H as <-;
      unfold same_delivery; cbn; auto 10.
  - intros H. cbv [smartconfig_task ret state_of] in H. injection H as <-.
    apply same_delivery_refl.
Qed.

Lemma step_delivery (cfg : bool) (a : action) (s s' : state) :
  after (step cfg a s) = Some s' -> same_delivery s s'.
Proof.
  destruct a as [created event_base event_id event_data | i]; cbn [step].
  - destruct (event_handler_effects cfg created event_base event_id event_data s)
      as [-> | (s1 & -> & Hd & _)]; [discriminate |].
    intros H. injection H as <-. exact Hd.
  - unfold bind, get. destruct (nth_error (tasks s) i) as [t |].
    + intros H. apply (smartconfig_task_delivery i (at_location t)).
      destruct (smartconfig_task i (at_location t) s); try discriminate H;
        exact H.
    + intros H. injection H as <-. apply same_delivery_refl.
Qed.

(** X6: the Wi-Fi event handler and the Provisioning Listener never touch
    the session handle, the sample, its encoding, the disconnect flag or the
    count of draws, in any step and hence in any run. *)
Theorem connectivity_leaves_delivery (cfg : bool) :
  (forall a s s', after (step cfg a s) = Some s' -> same_delivery s s') /\
  (forall tr s s', run cfg tr s = Some s' -> same_delivery s s').
Proof.
  split; [intros a s s'; apply step_delivery |].
  induction tr as [| a tr IH]; intros s s' H.
  - injection H as <-. apply same_delivery_refl.
  - cbn [run] in H. destruct (after (step cfg a s)) as [s1 |] eqn:E;
      [| discriminate H].
    apply same_delivery_trans with s1; [apply (step_delivery cfg a s s1 E) |].
    apply (IH s1 s' H).
Qed.

(** ** Sessions that do not settle, sessions that do not start *)



(** X8: when the client cannot be created, or cannot be started,
    [send_data] returns at once whatever events are pending: nothing is
    published, stopped or destroyed, and the flag is untouched.  After a
    failed start the handle stays in [client] and is not destroyed. *)
Theorem send_data_failed_session (portTICK_PERIOD_MS v : Z)
        (e : mqtt_session) (s : state) :
  (init_result e = None ->
   exists s',
     send_data portTICK_PERIOD_MS v e s = Done tt s' /\
     calls s' = (calls s ++ [esp_mqtt_client_init;
                             esp_mqtt_client_register_event None])%list /\
     client s' = None /\
     MQTT_DISCONNECT_FLAG s' = MQTT_DISCONNECT_FLAG s) /\
  (forall h,
     init_result e = Some h -> start_result e <> ESP_OK ->
     exists s',
       send_data portTICK_PERIOD_MS v e s = Done tt s' /\
       calls s' = (calls s ++ [esp_mqtt_client_init;
                               esp_mqtt_client_register_event (Some h);
                               esp_mqtt_client_start (Some h)])%list /\
       client s' = Some h /\
       MQTT_DISCONNECT_FLAG s' = MQTT_DISCONNECT_FLAG s).
Proof.
  split.
  - intros Hi. unfold send_data. run_monad. cbn [client set_client record_call].
    rewrite Hi. eexists. split; [reflexivity |].
    cbn [calls client MQTT_DISCONNECT_FLAG record_call set_client].
    rewrite <- app_assoc. auto.
  - intros h Hi Hs. unfold send_data. run_monad.
    cbn [client set_client record_call]. rewrite Hi.
    apply Z.eqb_neq in Hs. rewrite Hs. cbn [negb].
    eexists. split; [reflexivity |].
    cbn [calls client MQTT_DISCONNECT_FLAG record_call set_client].
    rewrite <- !app_assoc. auto.
Qed.

(** ** The handlers on events they do not act on *)

(** X9: [mqtt_event_handler] never lowers the disconnect flag, and neither
    does a batch of delivered events; it ignores every event other than
    connected, published, disconnected and error; and a polling loop entered
    with the flag already raised tears the session down after its first
    interval. *)
Theorem mqtt_events_never_lower_flag (portTICK_PERIOD_MS : Z) :
  (forall event_id publish_result s s',
     mqtt_event_handler event_id publish_result s = Done tt s' ->
     MQTT_DISCONNECT_FLAG s = true -> MQTT_DISCONNECT_FLAG s' = true) /\
  (forall d s s',
     deliver d s = Done tt s' ->
     MQTT_DISCONNECT_FLAG s = true -> MQTT_DISCONNECT_FLAG s' = true) /\
  (forall event_id publish_result s,
     event_id <> MQTT_EVENT_ERROR -> event_id <> MQTT_EVENT_CONNECTED ->
     event_id <> MQTT_EVENT_DISCONNECTED -> event_id <> MQTT_EVENT_PUBLISHED ->
     mqtt_event_handler event_id publish_result s = Done tt s) /\
  (forall d rest s,
     MQTT_DISCONNECT_FLAG s = true -> ~ Exists is_error d ->
     exists s1,
       deliver d (record_call (vTaskDelay (1000 / portTICK_PERIOD_MS)) s)
       = Done tt s1 /\
       poll portTICK_PERIOD_MS (d :: rest) s = Done tt (torn_down s1)).
Proof.
  split; [| split; [| split]].
  - intros event_id publish_result s s' H Hf.
    destruct (Z.eq_dec event_id MQTT_EVENT_ERROR) as [-> | Hne].
    + rewrite mqtt_event_handler_error in H. discriminate H.
    + destruct (mqtt_event_handler_returns event_id publish_result s Hne)
        as (s1 & Hs1 & _ & _ & _ & Hfl).
      rewrite Hs1 in H. injection H as <-. apply Hfl. left. exact Hf.
  - intros d s s' H Hf.
    destruct (deliver_cases d s) as [[_ [s1 Hs1]] | [_ (s1 & Hs1 & _ & _ & Hfl & _)]];
      [congruence |].
    rewrite Hs1 in H. injection H as <-. apply Hfl. left. exact Hf.
  - intros event_id publish_result s He Hc Hd Hp.
    unfold mqtt_event_handler.
    apply Z.eqb_neq in He, Hc, Hd, Hp. rewrite He, Hc, Hd, Hp. reflexivity.
  - intros d rest s Hf Hne.
    destruct (deliver_cases d (record_call (vTaskDelay (1000 / portTICK_PERIOD_MS)) s))
      as [[He _] | [_ (s1 & Hs1 & _ & _ & Hfl & _)]]; [contradiction |].
    exists s1. split; [exact Hs1 |]. rewrite poll_cons, Hs1.
    replace (MQTT_DISCONNECT_FLAG s1) with true; [reflexivity |].
    symmetry. apply Hfl. left. exact Hf.
Qed.

(** X10: [event_handler] changes nothing on the informational provisioning
    events (scan done, channel found) and on every event it has no branch
    for. *)
Theorem event_handler_ignores_unhandled (cfg created : bool)
        (event_base : esp_event_base_t) (event_id : Z)
        (event_data : option got_ssid_pswd) (s : state) :
  handled event_base event_id = false ->
  event_handler cfg created event_base event_id event_data s = Done tt s.
Proof.
  intros H. unfold event_handler.
  destruct event_base; cbn [handled base_eqb andb] in *;
    try (apply orb_false_iff in H; destruct H as [H1 H2]; rewrite ?H1, ?H2);
    rewrite ?H;
    repeat match goal with
           | |- context [if ?x =? ?c then _ else _] =>
               destruct (x =? c)
           end; reflexivity.
Qed.

(** ** Credentials *)

Lemma memcpy_exact (n : nat) (src : list Z) :
  List.length src = n -> memcpy n src = src.
Proof.
  intros <-. unfold memcpy.
  rewrite firstn_app, firstn_all, Nat.sub_diag, firstn_O. apply app_nil_r.
Qed.

Lemma strlen_head (b : Z) (rest : list Z) :
  b <> 0 -> Nat.ltb 0 (strlen (b :: rest)) = true.
Proof.
  intros Hb. cbn [strlen]. apply Z.eqb_neq in Hb. rewrite Hb. reflexivity.
Qed.

(** X11: on the link-started event, stored credentials whose SSID begins
    with a non-zero byte lead to one association request and nothing else;
    without stored credentials (none readable, or an SSID that is empty or
    begins with a zero byte) and without a listener, the handler asks for a
    listener task, which exists afterwards exactly when its creation
    succeeded, and it requests no association. *)
Theorem link_started_behaviour (cfg created : bool)
        (event_data : option got_ssid_pswd) (s : state) :
  (forall wifi_config b rest,
     sta_config s = Some wifi_config -> ssid wifi_config = b :: rest ->
     b <> 0 ->
     event_handler cfg created WIFI_EVENT WIFI_EVENT_STA_START event_data s
     = Done tt (record_call esp_wifi_connect s)) /\
  (forall wifi_config rest,
     sta_config s = Some wifi_config ->
     ssid wifi_config = [] \/ ssid wifi_config = 0 :: rest ->
     no_credentials s = true) /\
  (sta_config s = None -> no_credentials s = true) /\
  (no_credentials s = true -> provisioning s = false ->
   exists s',
     event_handler cfg created WIFI_EVENT WIFI_EVENT_STA_START event_data s
     = Done tt s' /\
     calls s' = (calls s ++ [xTaskCreate "sc_task" created])%list /\
     tasks s' = (tasks s ++ if created then [mk_task "sc_task" sc_entry]
                            else [])%list /\
     provisioning s' = created /\
     s_wifi_event_group s' = s_wifi_event_group s).
Proof.
  split; [| split; [| split]].
  - intros wifi_config b rest Hc Hs Hb.
    unfold event_handler. cbn [base_eqb andb Z.eqb WIFI_EVENT_STA_START Pos.eqb].
    unfold bind at 1, get. rewrite Hc, Hs, (strlen_head b rest Hb).
    reflexivity.
  - intros wifi_config rest Hc Hs. unfold no_credentials. rewrite Hc.
    destruct Hs as [-> | ->]; reflexivity.
  - intros Hc. unfold no_credentials. rewrite Hc. reflexivity.
  - intros Hn Hp.
    assert (Hstart : event_handler cfg created WIFI_EVENT WIFI_EVENT_STA_START
                       event_data s = start_smartconfig created s).
    { unfold event_handler.
      cbn [base_eqb andb Z.eqb WIFI_EVENT_STA_START Pos.eqb].
      unfold bind at 1, get. unfold no_credentials in Hn.
      destruct (sta_config s) as [wifi_config |]; [| reflexivity].
      apply negb_true_iff in Hn. rewrite Hn. reflexivity. }
    rewrite Hstart. unfold start_smartconfig, xTaskGetHandle, spawn.
    run_monad. unfold provisioning in Hp. rewrite Hp. cbn [negb].
    destruct created; eexists; (split; [reflexivity |]);
      cbn [calls tasks s_wifi_event_group record_call set_tasks];
      unfold provisioning; cbn [tasks record_call set_tasks];
      rewrite ?existsb_app, ?Hp, ?app_nil_r; auto.
Qed.

(** X12: a credentials-captured event whose SSID and password fields have
    their 32 and 64 bytes makes the handler disassociate, hand exactly these
    bytes to the radio and request association, in this order; tasks and
    event bits are unchanged; the BSSID is taken over only when the build
    option is set and the event carries one.  If the captured SSID begins
    with a non-zero byte, the next link-started event requests association
    and starts no listener. *)
Theorem credentials_captured (cfg created : bool) (evt : got_ssid_pswd)
        (s : state) :
  List.length (evt_ssid evt) = 32%nat ->
  List.length (evt_password evt) = 64%nat ->
  exists s' wifi_config,
    event_handler cfg created SC_EVENT SC_EVENT_GOT_SSID_PSWD (Some evt) s
    = Done tt s' /\
    sta_config s' = Some wifi_config /\
    ssid wifi_config = evt_ssid evt /\
    password wifi_config = evt_password evt /\
    bssid_set wifi_config = cfg && evt_bssid_set evt /\
    calls s' =
    (calls s ++ (if evt_type evt =? SC_TYPE_ESPTOUCH_V2
                 then [esp_smartconfig_get_rvd_data] else [])
             ++ [esp_wifi_disconnect; esp_wifi_set_config wifi_config;
                 esp_wifi_connect])%list /\
    tasks s' = tasks s /\
    s_wifi_event_group s' = s_wifi_event_group s /\
    (forall b rest created' event_data,
       evt_ssid evt = b :: rest -> b <> 0 ->
       event_handler cfg created' WIFI_EVENT WIFI_EVENT_STA_START event_data s'
       = Done tt (record_call esp_wifi_connect s')).
Proof.
  intros Hs Hp. unfold event_handler.
  cbn [base_eqb andb Z.eqb SC_EVENT_GOT_SSID_PSWD SC_EVENT_SCAN_DONE
       SC_EVENT_FOUND_CHANNEL Pos.eqb].
  rewrite (memcpy_exact 32 _ Hs), (memcpy_exact 64 _ Hp).
  run_monad.
  destruct (evt_type evt =? SC_TYPE_ESPTOUCH_V2);
    eexists _, _; (split; [reflexivity |]);
    cbn [sta_config calls tasks s_wifi_event_group ssid password bssid_set
         record_call set_sta_config];
    (split; [reflexivity |]); (split; [reflexivity |]);
    (split; [reflexivity |]); (split; [reflexivity |]);
    (split; [cbn [app]; rewrite <- ?app_assoc; reflexivity |]);
    (split; [reflexivity |]); (split; [reflexivity |]);
    intros b rest created' event_data Hb Hnz;
    cbn [base_eqb andb Z.eqb WIFI_EVENT_STA_START Pos.eqb];
    cbn [sta_config record_call set_sta_config ssid];
    rewrite Hb, (strlen_head b rest Hnz); reflexivity.
Qed.

(** ** The task registry and the capture over a run *)

Lemma remove_nth_split (l1 l2 : list task) (t : task) :
  remove_nth (List.length l1) (l1 ++ t :: l2) = (l1 ++ l2)%list.
Proof.
  unfold remove_nth.
  rewrite firstn_app, firstn_all, Nat.sub_diag, firstn_O, app_nil_r.
  rewrite skipn_app, skipn_all2 by lia.
  replace (S (List.length l1) - List.length l1)%nat with 1%nat by lia.
  reflexivity.
Qed.

Lemma move_nth_split (l1 l2 : list task) (t : task) (loc : location) :
  move_nth (List.length l1) loc (l1 ++ t :: l2)
  = (l1 ++ mk_task (pcTaskName t) loc :: l2)%list.
Proof.
  unfold move_nth.
  rewrite nth_error_app2, Nat.sub_diag by lia. cbn [nth_error].
  rewrite firstn_app, firstn_all, Nat.sub_diag, firstn_O, app_nil_r.
  rewrite skipn_app, skipn_all2 by lia.
  replace (S (List.length l1) - List.length l1)%nat with 1%nat by lia.
  reflexivity.
Qed.

Lemma filter_length_remove {A} (f : A -> bool) (l1 l2 : list A) (t : A) :
  List.length (filter f (l1 ++ t :: l2))
  = (List.length (filter f (l1 ++ l2)) + if f t then 1 else 0)%nat.
Proof.
  rewrite !filter_app, !length_app. cbn [filter].
  destruct (f t); cbn [List.length]; lia.
Qed.

Lemma filter_length_replace {A} (f : A -> bool) (l1 l2 : list A) (t t' : A) :
  (List.length (filter f (l1 ++ t' :: l2)) + (if f t then 1 else 0)
   = List.length (filter f (l1 ++ t :: l2)) + if f t' then 1 else 0)%nat.
Proof.
  rewrite !filter_length_remove. lia.
Qed.

(** The balance between capture starts, capture stops and waiting
    listeners, the kinds of the tasks and the number of report tasks, over
    one step. *)
Lemma step_registry (cfg : bool) (a : action) (s s' : state) :
  after (step cfg a s) = Some s' ->
  Forall task_ok (tasks s) ->
  Forall task_ok (tasks s') /\
  (instances "report_task" s <= instances "report_task" s')%nat /\
  (count_calls is_capture_start s' + count_calls is_capture_stop s
   + waiting_listeners s
   = count_calls is_capture_start s + count_calls is_capture_stop s'
     + waiting_listeners s')%nat.
Proof.
  intros Hstep Hok.
  destruct a as [created event_base event_id event_data | i]; cbn [step] in Hstep.
  - destruct (event_handler_effects cfg created event_base event_id event_data s)
      as [Hu | (s1 & Hs1 & _ & Ht & l & Hk & Hl1 & Hl2)];
      rewrite ?Hu, ?Hs1 in Hstep; [discriminate |].
    injection Hstep as <-.
    unfold count_calls, waiting_listeners, instances.
    rewrite Hk, !filter_app, Hl1, Hl2, !app_nil_r.
    destruct Ht as [-> | [-> | ->]].
    + auto.
    + rewrite !filter_app, !length_app. cbn.
      split; [| split; lia].
      apply Forall_app. split; [exact Hok |].
      constructor; [right; split; [reflexivity | discriminate] | constructor].
    + rewrite !filter_app, !length_app. cbn.
      split; [| split; lia].
      apply Forall_app. split; [exact Hok |].
      constructor; [left; split; reflexivity | constructor].
  - unfold bind, get in Hstep.
    destruct (nth_error (tasks s) i) as [t |] eqn:Hn;
      [| injection Hstep as <-; auto].
    pose proof Hn as Hsplit. apply nth_error_split in Hsplit.
    destruct Hsplit as (l1 & l2 & Hts & <-).
    assert (Hokt : task_ok t).
    { rewrite Hts in Hok. apply Forall_app in Hok. destruct Hok as [_ Hok].
      inversion Hok; assumption. }
    assert (Hok12 : Forall task_ok (l1 ++ l2)).
    { rewrite Hts in Hok. apply Forall_app in Hok. destruct Hok as [Ha Hb].
      inversion Hb; subst. apply Forall_app. split; assumption. }
    assert (Hnr : pcTaskName t = "sc_task" ->
                  task_named "report_task" t = false)
      by (intros Hname; unfold task_named; rewrite Hname; reflexivity).
    destruct (at_location t) eqn:Hloc.
    + (* entry: the capture is started and the task moves to its wait *)
      cbv [smartconfig_task bind do_call modify after] in Hstep.
      injection Hstep as <-.
      destruct Hokt as [[_ Hl] | [Hname _]]; [congruence |].
      specialize (Hnr Hname).
      assert (Hw : is_waiting t = false)
        by (unfold is_waiting; rewrite Hloc; reflexivity).
      unfold count_calls, waiting_listeners, instances.
      cbn [calls tasks set_tasks record_call].
      rewrite Hts, move_nth_split.
      pose proof (filter_length_replace is_waiting l1 l2 t
                    (mk_task (pcTaskName t) sc_waiting)) as Hfw.
      pose proof (filter_length_replace (task_named "report_task") l1 l2 t
                    (mk_task (pcTaskName t) sc_waiting)) as Hfr.
      replace (task_named "report_task" (mk_task (pcTaskName t) sc_waiting))
        with (task_named "report_task" t) in Hfr by reflexivity.
      rewrite Hw in Hfw. rewrite Hnr in Hfr.
      change (is_waiting (mk_task (pcTaskName t) sc_waiting)) with true in Hfw.
      rewrite !filter_app, !length_app in *.
      cbn [filter is_capture_start is_capture_stop List.length] in *.
      split; [| split; lia].
      rewrite Hts in Hok. apply Forall_app in Hok. destruct Hok as [Ha Hb].
      inversion Hb; subst. apply Forall_app. split; [exact Ha |].
      constructor; [| assumption].
      right. split; [exact Hname | discriminate].
    + (* waiting *)
      rewrite smartconfig_task_waiting in Hstep.
      destruct Hokt as [[_ Hl] | [Hname _]]; [congruence |].
      specialize (Hnr Hname).
      assert (Hw : is_waiting t = true)
        by (unfold is_waiting; rewrite Hloc; reflexivity).
      destruct (Z.testbit (s_wifi_event_group s) 1);
        [| destruct (Z.testbit (s_wifi_event_group s) 0)];
        cbv [after] in Hstep; injection Hstep as <-.
      * unfold count_calls, waiting_listeners, instances.
        cbn [calls tasks set_tasks set_event_group record_call].
        rewrite Hts, remove_nth_split.
        pose proof (filter_length_remove is_waiting l1 l2 t) as Hfw.
        pose proof (filter_length_remove (task_named "report_task") l1 l2 t)
          as Hfr.
        rewrite Hw in Hfw. rewrite Hnr in Hfr.
        rewrite !filter_app, !length_app in *.
        cbn [filter is_capture_start is_capture_stop List.length] in *.
        split; [exact Hok12 | split; lia].
      * unfold count_calls, waiting_listeners, instances.
        cbn [calls tasks set_event_group]. auto.
      * auto.
    + cbv [smartconfig_task ret after] in Hstep. injection Hstep as <-. auto.
Qed.

Lemma run_registry (cfg : bool) (tr : list action) :
  forall s s',
    run cfg tr s = Some s' ->
    Forall task_ok (tasks s) ->
    Forall task_ok (tasks s') /\
    (instances "report_task" s <= instances "report_task" s')%nat /\
    (count_calls is_capture_start s' + count_calls is_capture_stop s
     + waiting_listeners s
     = count_calls is_capture_start s + count_calls is_capture_stop s'
       + waiting_listeners s')%nat.
Proof.
  induction tr as [| a tr IH]; intros s s' H Hok.
  - injection H as <-. auto.
  - cbn [run] in H. destruct (after (step cfg a s)) as [s1 |] eqn:E;
      [| discriminate H].
    destruct (step_registry cfg a s s1 E Hok) as (Hok1 & Hr1 & Hb1).
    destruct (IH s1 s' H Hok1) as (Hok' & Hr' & Hb').
    split; [exact Hok' |]. split; lia.
Qed.

Lemma waiting_le_listeners (s : state) :
  Forall task_ok (tasks s) ->
  (waiting_listeners s <= instances "sc_task" s)%nat.
Proof.
  unfold waiting_listeners, instances. generalize (tasks s).
  induction l as [| t ts IH]; intros H; [cbn; lia |].
  inversion H as [| ? ? Ht Hts]; subst. specialize (IH Hts).
  cbn [filter]. unfold is_waiting at 1, task_named at 1.
  destruct Ht as [[Hn Hl] | [Hn Hl]]; rewrite Hn.
  - rewrite Hl. cbn. exact IH.
  - rewrite String.eqb_refl.
    destruct (at_location t); cbn [List.length]; lia.
Qed.

Lemma run_app (cfg : bool) (tr1 tr2 : list action) :
  forall s,
    run cfg (tr1 ++ tr2) s =
    match run cfg tr1 s with
    | Some s1 => run cfg tr2 s1
    | None => None
    end.
Proof.
  induction tr1 as [| a tr1 IH]; intros s; cbn [app run]; [reflexivity |].
  destruct (after (step cfg a s)) as [s1 |]; [apply IH | reflexivity].
Qed.

(** X13: the report task is never removed: along every run from boot the
    number of report tasks never decreases, and once an address-acquired
    event has created the task there is exactly one report task in every
    later state. *)
Theorem report_task_persists (cfg : bool) :
  (forall tr1 tr2 stored s1 s2,
     run cfg tr1 (boot stored) = Some s1 ->
     run cfg tr2 s1 = Some s2 ->
     (instances "report_task" s1 <= instances "report_task" s2)%nat) /\
  (forall tr1 tr2 stored event_data s,
     run cfg (tr1 ++ Event true IP_EVENT IP_EVENT_STA_GOT_IP event_data :: tr2)
         (boot stored) = Some s ->
     instances "report_task" s = 1%nat).
Proof.
  assert (Hboot : forall stored, Forall task_ok (tasks (boot stored)))
    by (intros stored; constructor).
  split.
  - intros tr1 tr2 stored s1 s2 H1 H2.
    destruct (run_registry cfg tr1 _ _ H1 (Hboot stored)) as (Hok1 & _).
    destruct (run_registry cfg tr2 _ _ H2 Hok1) as (_ & Hle & _). exact Hle.
  - intros tr1 tr2 stored event_data s H.
    pose proof (run_instances cfg _ _ _ "report_task" H) as Hmax.
    rewrite run_app in H.
    destruct (run cfg tr1 (boot stored)) as [s1 |] eqn:E1; [| discriminate H].
    destruct (run_registry cfg tr1 _ _ E1 (Hboot stored)) as (Hok1 & _).
    cbn [run] in H.
    destruct (after (step cfg (Event true IP_EVENT IP_EVENT_STA_GOT_IP
                                     event_data) s1)) as [s2 |] eqn:E2;
      [| discriminate H].
    destruct (step_registry cfg _ _ _ E2 Hok1) as (Hok2 & _).
    destruct (run_registry cfg tr2 _ _ H Hok2) as (_ & Hle & _).
    assert (H2 : (1 <= instances "report_task" s2)%nat).
    { revert E2. cbn [step]. unfold event_handler.
      cbn [base_eqb andb Z.eqb IP_EVENT_STA_GOT_IP].
      unfold xEventGroupSetBits, xTaskGetHandle, spawn. run_monad.
      cbn [tasks set_event_group].
      destruct (existsb (task_named "report_task") (tasks s1)) eqn:Ex;
        cbn [negb after]; intros E2; injection E2 as <-;
        unfold instances; cbn [tasks set_tasks set_event_group record_call].
      - apply existsb_exists in Ex. destruct Ex as (t & Hin & Ht).
        assert (Hin' : In t (filter (task_named "report_task") (tasks s1)))
          by (apply filter_In; auto).
        destruct (filter (task_named "report_task") (tasks s1));
          [destruct Hin' | cbn [List.length]; lia].
      - rewrite filter_app, length_app. cbn. lia. }
    assert (Hmax' : (instances "report_task" s <= 1)%nat)
      by (apply Hmax; cbn; lia).
    lia.
Qed.

(** X14: in every state reached from boot, the capture has been started
    exactly as often as it has been stopped, plus once for each listener
    blocked in its wait, of which there is at most one: the capture is never
    stopped without having been started, and never open twice. *)
Theorem capture_balanced (cfg : bool) (tr : list action)
        (stored : option wifi_sta_config) (s : state) :
  run cfg tr (boot stored) = Some s ->
  count_calls is_capture_start s
  = (count_calls is_capture_stop s + waiting_listeners s)%nat /\
  (waiting_listeners s <= 1)%nat.
Proof.
  intros H.
  assert (Hboot : Forall task_ok (tasks (boot stored))) by constructor.
  destruct (run_registry cfg tr _ _ H Hboot) as (Hok & _ & Hbal).
  change (count_calls is_capture_start (boot stored)) with 0%nat in Hbal.
  change (count_calls is_capture_stop (boot stored)) with 0%nat in Hbal.
  change (waiting_listeners (boot stored)) with 0%nat in Hbal.
  split; [lia |].
  pose proof (waiting_le_listeners s Hok) as Hw.
  assert (Hi : (instances "sc_task" s <= 1)%nat)
    by (apply (run_instances cfg tr _ _ _ H); cbn; lia).
  lia.
Qed.

(** ** Concrete instances of the further properties *)

Lemma report_loop_draws_witness :
  let hw := fun _ : nat => 5 in
  let e := mk_session None ESP_OK [] in
  exists s',
    report_entropy hw 10 [e] (boot None) = Done tt s' /\ draws s' = 3%nat.
Proof.
  intros hw e.
  assert (H : exists s', report_entropy hw 10 [e] (boot None) = Done tt s').
  { destruct (poisson_ticks_defined 10 5) as (t & Ht & _);
      [discriminate | split; discriminate |].
    cbn [report_entropy].
    unfold report_cycle, generate_poisson_delay, esp_random, bind.
    cbn [draws boot]. change (wrap32 (hw 0%nat)) with 5. rewrite Ht.
    eexists. reflexivity. }
  destruct H as (s' & Hs'). exists s'. split; [exact Hs' |].
  exact (proj1 (proj2 (report_loop_draws hw 10)) [e] (boot None) s' Hs').
Defined.

Lemma report_loop_leaves_connectivity_witness :
  let e := mk_session (Some 1) ESP_OK
             [[(MQTT_EVENT_CONNECTED, 4)]; [(MQTT_EVENT_PUBLISHED, 4)]] in
  exists s',
    state_of (send_data 10 0 e (boot None)) = Some s' /\
    session_frame (boot None) s'.
Proof.
  intros e.
  assert (H : exists s', state_of (send_data 10 0 e (boot None)) = Some s')
    by (eexists; vm_compute; reflexivity).
  destruct H as (s' & Hs'). exists s'. split; [exact Hs' |].
  exact (proj2 (report_loop_leaves_connectivity (fun _ => 0) 10)
           0 e (boot None) s' Hs').
Defined.

Lemma connectivity_leaves_delivery_witness :
  let tr := [Event true WIFI_EVENT WIFI_EVENT_STA_START None;
             Schedule 0;
             Event true SC_EVENT SC_EVENT_SEND_ACK_DONE None;
             Event true IP_EVENT IP_EVENT_STA_GOT_IP None;
             Schedule 0] in
  exists s',
    run false tr (boot None) = Some s' /\ same_delivery (boot None) s'.
Proof.
  intros tr.
  assert (H : exists s', run false tr (boot None) = Some s')
    by (eexists; vm_compute; reflexivity).
  destruct H as (s' & Hs'). exists s'. split; [exact Hs' |].
  exact (proj2 (connectivity_leaves_delivery false) tr (boot None) s' Hs').
Defined.



Lemma send_data_failed_session_witness :
  let e := mk_session (Some 1) 257 [[(MQTT_EVENT_CONNECTED, 4)]] in
  (init_result e = Some 1 /\ start_result e <> ESP_OK) /\
  exists s',
    send_data 10 0 e (boot None) = Done tt s' /\
    calls s' = [esp_mqtt_client_init;
                esp_mqtt_client_register_event (Some 1);
                esp_mqtt_client_start (Some 1)].
Proof.
  intros e.
  assert (Hs : start_result e <> ESP_OK) by discriminate.
  split; [split; [reflexivity | exact Hs] |].
  destruct (proj2 (send_data_failed_session 10 0 e (boot None)) 1 eq_refl Hs)
    as (s' & Hs' & Hc & _).
  exists s'. split; [exact Hs' | exact Hc].
Defined.

Lemma mqtt_events_never_lower_flag_witness :
  let s := set_flag true (boot None) in
  (MQTT_DISCONNECT_FLAG s = true /\ ~ Exists is_error [(MQTT_EVENT_CONNECTED, 4)]) /\
  exists s1, poll 10 ([(MQTT_EVENT_CONNECTED, 4)] :: []) s = Done tt (torn_down s1).
Proof.
  intros s.
  assert (Hne : ~ Exists is_error [(MQTT_EVENT_CONNECTED, 4)]).
  { intros H. apply Exists_cons in H. destruct H as [H | H];
      [discriminate H | apply Exists_nil in H; exact H]. }
  split; [split; [reflexivity | exact Hne] |].
  destruct (proj2 (proj2 (proj2 (mqtt_events_never_lower_flag 10)))
              [(MQTT_EVENT_CONNECTED, 4)] [] s eq_refl Hne) as (s1 & _ & Hp).
  exists s1. exact Hp.
Defined.

Lemma event_handler_ignores_unhandled_witness :
  handled SC_EVENT SC_EVENT_FOUND_CHANNEL = false /\
  event_handler false true SC_EVENT SC_EVENT_FOUND_CHANNEL None (boot None)
  = Done tt (boot None).
Proof.
  split; [reflexivity |].
  exact (event_handler_ignores_unhandled false true SC_EVENT
           SC_EVENT_FOUND_CHANNEL None (boot None) eq_refl).
Defined.

Lemma link_started_behaviour_witness :
  let wifi_config := mk_sta (72 :: repeat 0 31) (repeat 0 64) false (repeat 0 6) in
  let s := boot (Some wifi_config) in
  (sta_config s = Some wifi_config /\
   ssid wifi_config = 72 :: repeat 0 31 /\ 72 <> 0) /\
  event_handler false true WIFI_EVENT WIFI_EVENT_STA_START None s
  = Done tt (record_call esp_wifi_connect s).
Proof.
  intros wifi_config s.
  assert (H : 72 <> 0) by discriminate.
  split; [split; [reflexivity | split; [reflexivity | exact H]] |].
  exact (proj1 (link_started_behaviour false true None s)
           wifi_config 72 (repeat 0 31) eq_refl eq_refl H).
Defined.

Lemma credentials_captured_witness :
  let evt := mk_evt (72 :: 111 :: 109 :: 101 :: repeat 0 28)
                    (112 :: 97 :: 115 :: 115 :: repeat 0 60)
                    false (repeat 0 6) SC_TYPE_ESPTOUCH in
  (List.length (evt_ssid evt) = 32%nat /\
   List.length (evt_password evt) = 64%nat) /\
  exists s' wifi_config,
    event_handler false true SC_EVENT SC_EVENT_GOT_SSID_PSWD (Some evt)
                  (boot None) = Done tt s' /\
    sta_config s' = Some wifi_config /\
    ssid wifi_config = evt_ssid evt.
Proof.
  intros evt. split; [split; reflexivity |].
  destruct (credentials_captured false true evt (boot None) eq_refl eq_refl)
    as (s' & wifi_config & Hs' & Hc & Hssid & _).
  exists s', wifi_config. auto.
Defined.

Lemma report_task_persists_witness :
  let tr1 := [Event true WIFI_EVENT WIFI_EVENT_STA_START None; Schedule 0] in
  let tr2 := [Event true WIFI_EVENT WIFI_EVENT_STA_DISCONNECTED None;
              Event true SC_EVENT SC_EVENT_SEND_ACK_DONE None;
              Schedule 0;
              Event true IP_EVENT IP_EVENT_STA_GOT_IP None] in
  exists s,
    run false (tr1 ++ Event true IP_EVENT IP_EVENT_STA_GOT_IP None :: tr2)
        (boot None) = Some s /\
    instances "report_task" s = 1%nat.
Proof.
  intros tr1 tr2.
  assert (H : exists s,
             run false (tr1 ++ Event true IP_EVENT IP_EVENT_STA_GOT_IP None
                            :: tr2) (boot None) = Some s)
    by (eexists; vm_compute; reflexivity).
  destruct H as (s & Hs). exists s. split; [exact Hs |].
  exact (proj2 (report_task_persists false) tr1 tr2 None None s Hs).
Defined.

Lemma capture_balanced_witness :
  let tr := [Event true WIFI_EVENT WIFI_EVENT_STA_START None;
             Schedule 0;
             Event true SC_EVENT SC_EVENT_SEND_ACK_DONE None;
             Schedule 0;
             Event true WIFI_EVENT WIFI_EVENT_STA_START None;
             Schedule 0] in
  exists s,
    run false tr (boot None) = Some s /\
    count_calls is_capture_start s
    = (count_calls is_capture_stop s + waiting_listeners s)%nat.
Proof.
  intros tr.
  assert (H : exists s, run false tr (boot None) = Some s)
    by (eexists; vm_compute; reflexivity).
  destruct H as (s & Hs). exists s. split; [exact Hs |].
  exact (proj1 (capture_balanced false tr None s Hs)).
Defined.
